(** * geo-downloader: the download engine of [geo_downloader], embedded in Rocq

    The development follows [src/geo_downloader/downloader.py], [utils.py],
    [config.py] and the tail of [cli.py].  Python values keep their shape:
    [None] is an [option], an exception is a [Raise] carrying [str(e)], the
    file system and the remote ends are an explicit world that every
    operation threads through. *)

From Stdlib Require Import String Ascii ZArith QArith List Lia Bool Permutation.
From stdpp Require Import gmap strings list.

Local Open Scope string_scope.
Local Open Scope Z_scope.
Local Open Scope list_scope.

(** ** Python strings *)

Module PyStr.

(** [str.lower()].  A name is held as its UTF-8 bytes; only [A]..[Z] move.
    The characters outside ASCII that Python lowers stay outside ASCII, bar
    two that yield a [k] or an [i] before a combining mark, which no keyword
    of the classification can use. *)
Definition lower_char (c : ascii) : ascii :=
  let n := nat_of_ascii c in
  if (65 <=? n)%nat && (n <=? 90)%nat then ascii_of_nat (n + 32) else c.

Fixpoint lower (s : string) : string :=
  match s with
  | EmptyString => EmptyString
  | String c s' => String (lower_char c) (lower s')
  end.

(** [s.startswith(p)] *)
Fixpoint startswith (p s : string) : bool :=
  match p, s with
  | EmptyString, _ => true
  | String a p', String b s' => if Ascii.eqb a b then startswith p' s' else false
  | String _ _, EmptyString => false
  end.

(** [k in s] for strings: some suffix of [s] starts with [k]. *)
Fixpoint contains (k s : string) : bool :=
  startswith k s ||
  match s with
  | EmptyString => false
  | String _ s' => contains k s'
  end.

(** [s.endswith(k)]: the suffix of [s] of the length of [k] is [k]. *)
Fixpoint endswith (k s : string) : bool :=
  String.eqb k s ||
  match s with
  | EmptyString => false
  | String _ s' => endswith k s'
  end.

(** [s.replace(old, new)] for a one-character [old]. *)
Fixpoint replace_char (old : ascii) (new : ascii) (s : string) : string :=
  match s with
  | EmptyString => EmptyString
  | String c s' =>
      String (if Ascii.eqb c old then new else c) (replace_char old new s')
  end.

Definition char_in (c : ascii) (cs : list ascii) : bool :=
  existsb (Ascii.eqb c) cs.

(** [s.lstrip(cs)] and [s.rstrip(cs)], hence [s.strip(cs)]. *)
Fixpoint lstrip (cs : list ascii) (s : string) : string :=
  match s with
  | EmptyString => EmptyString
  | String c s' => if char_in c cs then lstrip cs s' else s
  end.

Fixpoint rstrip (cs : list ascii) (s : string) : string :=
  match s with
  | EmptyString => EmptyString
  | String c s' =>
      match rstrip cs s' with
      | EmptyString => if char_in c cs then EmptyString else String c EmptyString
      | r => String c r
      end
  end.

Definition strip (cs : list ascii) (s : string) : string :=
  rstrip cs (lstrip cs s).

(** Truth value of a string: only [""] is false. *)
Definition truthy (s : string) : bool :=
  match s with EmptyString => false | _ => true end.

(** [len(s)]: the characters of the text, that is the bytes that do not
    continue a UTF-8 sequence. *)
Definition continues (c : ascii) : bool :=
  let n := nat_of_ascii c in (128 <=? n)%nat && (n <? 192)%nat.

Fixpoint len (s : string) : Z :=
  match s with
  | EmptyString => 0
  | String c s' => (if continues c then 0 else 1) + len s'
  end.

End PyStr.

(** ** Raw-file classification ([GEODownloader._check_raw_files]) *)

Definition raw_keywords : list string :=
  [ "raw"; ".idat"; ".cel"; ".fastq"; ".fq"; ".sra"; ".bam"; ".cram";
    "signal"; "intensity"; "reads"; "sequencing" ].

(** The expression bound to [is_raw] in the loop over [file_names]. *)
Definition is_raw (filename : string) : bool :=
  let filename_lower := PyStr.lower filename in
  existsb (fun keyword => PyStr.contains keyword filename_lower) raw_keywords
  || PyStr.contains "_raw." filename_lower
  || PyStr.endswith "_raw.tar" filename_lower.

(** [name not in ["Parent Directory", "filelist.txt"]] *)
Definition listed_candidate (name : string) : bool :=
  negb (existsb (String.eqb name) [ "Parent Directory"; "filelist.txt" ]).

(** [file_names]: the link texts of the directory index that survive the
    exclusion, in listing order.  A link is the pair (href, text) that
    [re.findall] returns. *)
Definition file_names (file_links : list (string * string)) : list string :=
  filter (fun name => listed_candidate name = true) (map snd file_links).

(** The keyword list as the specification words it (no leading dots). *)
Definition spec_keywords : list string :=
  [ "raw"; "idat"; "cel"; "fastq"; "fq"; "sra"; "bam"; "cram";
    "signal"; "intensity"; "reads"; "sequencing" ].


(** ** Python results and the world the engine runs in *)

(** The outcome of evaluating Python code: a value, or an exception of class
    [Exception] of which only [str(e)] is observed by the program. *)
Inductive pyresult (A : Type) : Type :=
| Ok (a : A)
| Raise (msg : string).
Arguments Ok {A} a.
Arguments Raise {A} msg.

Definition is_ok {A} (r : pyresult A) : bool :=
  match r with Ok _ => true | Raise _ => false end.

(** *** Data model of [downloader.py] *)

(** The [size_human] entry: [format_size(file_size) if file_size else "Unknown"];
    the formatted text is kept as the size it renders. *)
Inductive SizeHuman : Type :=
| SizeUnknown
| SizeFormatted (size_bytes : Z).

(** One entry of [raw_files].  [rf_size_bytes] is what [get_file_size]
    returned: [None] when the probe failed. *)
Record RemoteFile : Type := mkRemoteFile {
  rf_filename : string;
  rf_url : string;
  rf_size_bytes : option Z;
  rf_size_human : SizeHuman
}.

Inductive FileStatus : Type := FileCompleted | FileFailed.

(** The dictionary a download of one file yields.  The entry built for a
    worker that raised has no [local_path]; [size_bytes] holds a Python value
    that may be [None]. *)
Record FileResult : Type := mkFileResult {
  fr_filename : string;
  fr_local_path : option string;
  fr_status : FileStatus;
  fr_error : option string;
  fr_size_bytes : option Z
}.

(** Descriptive fields filled from the catalog summary. *)
Record Descr : Type := mkDescr {
  d_title : string;
  d_summary : string;
  d_organism : string;
  d_submission_date : string;
  d_pubmed_id : string;
  d_platforms : list string;
  d_experiment_type : string;
  d_sample_count : Z
}.

Definition descr_default : Descr :=
  {| d_title := "N/A"; d_summary := "N/A"; d_organism := "N/A";
     d_submission_date := "N/A"; d_pubmed_id := "N/A"; d_platforms := [];
     d_experiment_type := "N/A"; d_sample_count := 0 |}.

Record Metadata : Type := mkMetadata {
  md_gse_id : string;
  md_has_raw_data : bool;
  md_descr : Descr;
  md_raw_files : list RemoteFile;
  md_error : option string
}.

Inductive DatasetStatus : Type :=
| DsCompleted | DsPartial | DsFailed | DsNoRawData.

Record DatasetResult : Type := mkDatasetResult {
  dr_gse_id : string;
  dr_status : DatasetStatus;
  dr_error : option string;
  dr_files : list FileResult;
  dr_metadata : option Metadata
}.

(** [Config.config], the keys the engine reads, with values of the kinds the
    engine can use.  The two delays are numbers of seconds that [time.sleep]
    can take for a length: finite ([Config.validate] lets an infinite or
    not-a-number float through, see [ConfigClass.validate]; such a
    configuration has no record here) and within the range of the timer. *)
Record Config : Type := mkConfig {
  output_dir : string;
  parallel : bool;
  workers : Z;
  delay : Q;
  chunk_size : Z;
  max_retries : Z;
  retry_delay : Q;
  verify_integrity : bool;
  force : bool
}.

(** *** Remote ends *)

(** A GET request as [_download_with_progress] builds it: the URL and the
    offset of the [Range: bytes=<n>-] header when it is added. *)
Record Request : Type := mkRequest {
  req_url : string;
  req_range : option Z
}.

(** A response to a GET: the two headers the code reads, the bytes that
    [response.read] delivers, and the error (if any) that a read raises once
    these bytes are consumed. *)
Record Response : Type := mkResponse {
  resp_content_length : option string;
  resp_content_range : option string;
  resp_body : list Byte.byte;
  resp_read_error : option string
}.

(** [urllib.request.urlopen]: raises (network failure, timeout, HTTP error
    status) or hands out a response. *)
Inductive NetOutcome : Type :=
| NetError (msg : string)
| NetResponse (r : Response).

(** Writing the status file: [open(status_file, 'w')] fails and leaves the
    file alone, or [json.dump] fails after the file was truncated, leaving
    a text that [json.load] refuses with [remains]. *)
Inductive SaveOutcome : Type :=
| SaveOk
| SaveOpenError (msg : string)
| SaveDumpError (msg remains : string).

(** A JSON document that is not an object, as [json.load] returns it: a
    list (its items as their text), a string, or a number, [true], [false]
    or [null], of which the program can only meet the name of the type
    ([int], [float], [bool], [NoneType]). *)
Inductive JsonOther : Type :=
| JsonList (items : list string)
| JsonStr (s : string)
| JsonScalar (type_name : string).

(** The value of [self.download_status]: the dictionary the downloader
    starts with and fills, or whatever else [json.load] returned for the
    status file.  The entries of a dictionary are held as the
    [DatasetResult] they encode. *)
Inductive StatusValue : Type :=
| StatusDict (m : gmap string DatasetResult)
| StatusOther (j : JsonOther).

(** The status file [<output_dir>/download_status.json]: absent, unreadable
    ([open] or [json.load] raises [msg]), or a JSON document. *)
Inductive StatusFile : Type :=
| SfAbsent
| SfCorrupt (msg : string)
| SfJson (v : StatusValue).

(** What the catalog gives for an identifier.  [_fetch_gse_summary] fails
    inside (a call, or the parse of the search answer, raises [msg]); or it
    finds no record or an empty document; or it hands a summary document to
    [_parse_gse_summary], which with [_count_samples] sets descriptive
    fields until it returns or until an exception inside stops it:
    [fields] is what [metadata.update] leaves of the descriptive fields. *)
Inductive Catalog : Type :=
| CatalogError (msg : string)
| CatalogNoRecord
| CatalogSummary (fields : Descr) (parse_error : option string).

(** What the program does not define: the remote servers, the clock, the
    pool's completion order, and the built-in [int]. *)
Record Env : Type := mkEnv {
  (** the catalog calls of [_fetch_gse_summary], [_parse_gse_summary] and
      [_count_samples] for an identifier *)
  env_describe : string -> Catalog;
  (** the directory index at a URL after [re.findall]: (href, text) pairs *)
  env_listing : string -> pyresult (list (string * string));
  (** the HEAD request of [get_file_size]: the Content-Length header *)
  env_head : string -> pyresult (option string);
  (** the [k]-th GET of the run *)
  env_get : nat -> Request -> NetOutcome;
  (** [int(s)] on a string; [None] stands for the [ValueError] *)
  env_int : string -> option Z;
  (** the [k]-th write of the status file *)
  env_save : nat -> SaveOutcome;
  (** [concurrent.futures.as_completed] for [n] submitted tasks: their
      indices in completion order *)
  env_completed : nat -> list nat;
  (** [time.time()] after [k] recorded events *)
  env_clock : nat -> Q
}.

(** *** Console messages: one constructor per message of the engine, with the
    values it shows (a run of [print] calls that goes together is one
    message; the progress lines of a transfer are not kept) *)
Inductive LogLine : Type :=
| LErrMetadata (gse_id e : string)
| LWarnSummary (gse_id e : string)
| LWarnParse (gse_id e : string)
| LWarnRawFiles (gse_id e : string)
| LInfoProcessing (gse_id : string)
| LInfoDownloading (i n : Z) (filename : string)
| LInfoParallel (n : Z) (workers : Z)
| LInfoComplete (filename : string)
| LSuccessDownloaded (filename : string)
| LWarnAttempt (attempt total : Z) (error_msg : string)
| LInfoRetrying (retry_delay : Q)
| LErrAttempts (total : Z) (error_msg : string)
| LInfoResuming (resume_pos : Z)
| LWarnSave (e : string)
| LInfoLoaded (n : Z)
| LWarnLoad (e : string)
| LInfoStart (n : Z) (output_dir : string) (parallel : bool)
| LInfoWorkers (workers : Z)
| LInfoDataset (i n : Z) (gse_id : string)
| LSummary (total completed partial failed : Z) (total_time : Q)
| LExitSuccess
| LExitPartial (completed total : Z)
| LExitFailed
| LExitError (e : string).

(** *** Recorded events: every remote call, sleep and status write
    ([EvDescribe] stands for the catalog calls made for one identifier, up
    to three requests) *)
Inductive Event : Type :=
| EvDescribe (gse_id : string)
| EvList (url : string)
| EvHead (url : string)
| EvTransfer (url local_path : string) (expected_size : option Z)
| EvGet (req : Request)
| EvSleep (seconds : Q)
| EvSave (snapshot : StatusValue).

Definition is_transfer (e : Event) : bool :=
  match e with EvTransfer _ _ _ => true | _ => false end.
Definition is_get (e : Event) : bool :=
  match e with EvGet _ => true | _ => false end.
Definition is_sleep (e : Event) : bool :=
  match e with EvSleep _ => true | _ => false end.
Definition is_save (e : Event) : bool :=
  match e with EvSave _ => true | _ => false end.
(** A call over the network: catalog, listing, probe or GET. *)
Definition is_network (e : Event) : bool :=
  match e with
  | EvDescribe _ | EvList _ | EvHead _ | EvGet _ => true
  | _ => false
  end.

(** The world: the files other than the status file (path to content),
    the status file [<output_dir>/download_status.json], the
    [download_status] attribute of the downloader, the events so far (oldest
    first) and the console.  The status file is a file of the output
    directory like the others; it is held apart from [fs], which says
    nothing about its path, because the program reaches it through [json]
    only, and no download is ever written to its path (lemma
    [status_path_is_no_raw_local_path]). *)
Record World : Type := mkWorld {
  fs : gmap string (list Byte.byte);
  status_disk : StatusFile;
  download_status : StatusValue;
  trace : list Event;
  console : list LogLine
}.

(** [GEODownloader.__init__] on a given disk: empty [download_status]. *)
Definition init_world (files : gmap string (list Byte.byte)) (sf : StatusFile) : World :=
  {| fs := files; status_disk := sf; download_status := StatusDict ∅;
     trace := []; console := [] |}.

(** ** The monad of the engine: world passing with exceptions *)

Definition M (A : Type) : Type := World -> pyresult A * World.

Definition ret {A} (a : A) : M A := fun w => (Ok a, w).
Definition raise {A} (msg : string) : M A := fun w => (Raise msg, w).
Definition lift {A} (r : pyresult A) : M A := fun w => (r, w).
Definition bind {A B} (m : M A) (k : A -> M B) : M B :=
  fun w =>
    match m w with
    | (Ok a, w') => k a w'
    | (Raise e, w') => (Raise e, w')
    end.

(** [try: body / except Exception as e: handler(str(e))] *)
Definition try_except {A} (body : M A) (handler : string -> M A) : M A :=
  fun w =>
    match body w with
    | (Ok a, w') => (Ok a, w')
    | (Raise e, w') => handler e w'
    end.

(** The outcome of a [try] body handed to the code that follows it. *)
Definition try_result {A} (body : M A) : M (pyresult A) :=
  fun w => let (r, w') := body w in (Ok r, w').

Notation "'let*' x ':=' m 'in' k" := (bind m (fun x => k))
  (at level 10, x pattern, m at level 100, k at level 200).
Notation "m '>>>' k" := (bind m (fun _ => k))
  (at level 90, right associativity).

(** *** Primitive operations *)

Definition emit (e : Event) : M unit :=
  fun w => (Ok tt, {| fs := fs w; status_disk := status_disk w;
                      download_status := download_status w;
                      trace := trace w ++ [e]; console := console w |}).

Definition print (l : LogLine) : M unit :=
  fun w => (Ok tt, {| fs := fs w; status_disk := status_disk w;
                      download_status := download_status w;
                      trace := trace w; console := console w ++ [l] |}).

Definition set_fs (files : gmap string (list Byte.byte)) : M unit :=
  fun w => (Ok tt, {| fs := files; status_disk := status_disk w;
                      download_status := download_status w;
                      trace := trace w; console := console w |}).

Definition set_status_disk (sf : StatusFile) : M unit :=
  fun w => (Ok tt, {| fs := fs w; status_disk := sf;
                      download_status := download_status w;
                      trace := trace w; console := console w |}).

Definition set_download_status (m : StatusValue) : M unit :=
  fun w => (Ok tt, {| fs := fs w; status_disk := status_disk w;
                      download_status := m;
                      trace := trace w; console := console w |}).

Definition get_world : M World := fun w => (Ok w, w).

(** [os.path.exists] and [os.path.getsize] *)
Definition os_path_exists (path : string) : M bool :=
  fun w => (Ok (bool_decide (is_Some (fs w !! path))), w).

Definition file_size (w : World) (path : string) : option Z :=
  (fun content => Z.of_nat (length content)) <$> (fs w !! path).

Definition os_path_getsize (path : string) : M Z :=
  fun w =>
    match file_size w path with
    | Some n => (Ok n, w)
    | None => (Raise "[Errno 2] No such file or directory", w)
    end.

(** [time.sleep] on a length the timer can take: it refuses a negative
    one. *)
Definition time_sleep (seconds : Q) : M unit :=
  if Qle_bool 0 seconds then emit (EvSleep seconds)
  else raise "sleep length must be non-negative".

Definition time_time (env : Env) : M Q :=
  fun w => (Ok (env_clock env (length (trace w))), w).

(** [urllib.request.urlopen(req, timeout=60)] for a GET. *)
Definition urlopen (env : Env) (req : Request) : M Response :=
  fun w =>
    let k := length (filter (fun e => is_get e = true) (trace w)) in
    match emit (EvGet req) w with
    | (_, w') =>
        match env_get env k req with
        | NetError msg => (Raise msg, w')
        | NetResponse r => (Ok r, w')
        end
    end.

(** *** Python operators on values that may be [None] *)

Definition py_gt (a : option Z) (b : Z) : pyresult bool :=
  match a with
  | Some x => Ok (b <? x)
  | None => Raise "'>' not supported between instances of 'NoneType' and 'int'"
  end.

Definition py_lt (a : Z) (b : option Z) : pyresult bool :=
  match b with
  | Some y => Ok (a <? y)
  | None => Raise "'<' not supported between instances of 'int' and 'NoneType'"
  end.

(** [a == b] for an [int] and a value that may be [None]: never raises. *)
Definition py_eq (a : Z) (b : option Z) : bool :=
  match b with Some y => a =? y | None => false end.

(** Truth value of a string that may be [None]. *)
Definition truthy_opt (s : option string) : bool :=
  match s with Some s' => PyStr.truthy s' | None => false end.

(** [range(n)] *)
Definition py_range (n : Z) : list Z := map Z.of_nat (seq 0 (Z.to_nat n)).

(** [int(s)] through the environment. *)
Definition py_int (env : Env) (s : string) : pyresult Z :=
  match env_int env s with
  | Some n => Ok n
  | None => Raise "invalid literal for int() with base 10"
  end.

(** ** [utils.py] *)

(** [safe_filename] *)
Definition unsafe_chars : list ascii :=
  [ "<"%char; ">"%char; ":"%char; ascii_of_nat 34; "/"%char; "\"%char;
    "|"%char; "?"%char; "*"%char ].

Definition safe_filename (filename : string) : string :=
  let safe_name :=
    fold_left (fun s char => PyStr.replace_char char "_"%char s) unsafe_chars filename in
  let safe_name := PyStr.strip [ "."%char; " "%char ] safe_name in
  if PyStr.truthy safe_name then safe_name else "unnamed_file".

(** [os.path.join] of two components (POSIX). *)
Definition path_join (a b : string) : string :=
  if PyStr.startswith "/" b then b
  else if negb (PyStr.truthy a) || PyStr.endswith "/" a then a +:+ b
  else a +:+ "/" +:+ b.

(** [verify_file_integrity]: every exception inside is turned into [False]. *)
Definition verify_file_integrity (file_path : string) (expected_size : option Z) : M bool :=
  try_except
    (let* ex := os_path_exists file_path in
     if negb ex then ret false
     else
       let* actual_size := os_path_getsize file_path in
       ret (py_eq actual_size expected_size))
    (fun _ => ret false).

(** [get_file_size]: a HEAD request; any failure yields [None]. *)
Definition get_file_size (env : Env) (url : string) : M (option Z) :=
  emit (EvHead url) >>>
  try_except
    (let* content_length := lift (env_head env url) in
     if truthy_opt content_length then
       match content_length with
       | Some cl => let* n := lift (py_int env cl) in ret (Some n)
       | None => ret None
       end
     else ret None)
    (fun _ => ret None).


(** ** File Transfer Unit ([GEODownloader._download_with_progress]) *)

(** [s.split('/')[-1]]: what follows the last slash. *)
Fixpoint last_segment (s : string) : string :=
  match s with
  | EmptyString => EmptyString
  | String c s' =>
      if PyStr.contains "/" s' then last_segment s'
      else if Ascii.eqb c "/"%char then s' else s
  end.

(** [response.read(n)]: up to [n] of the bytes still to come; when none is
    left, the end of the body or the error that cuts the stream. *)
Definition response_read (n : Z) (rest : list Byte.byte) (err : option string)
  : pyresult (list Byte.byte) :=
  match rest with
  | [] => match err with Some e => Raise e | None => Ok [] end
  | _ => Ok (take (Z.to_nat n) rest)
  end.

(** The [while True] loop: read a chunk, stop on an empty one, else write it.
    [f] is what the file holds so far.  [fuel] bounds the iterations;
    [S (length rest)] is enough for a positive chunk size. *)
Fixpoint read_loop (fuel : nat) (chunk : Z) (rest : list Byte.byte)
    (err : option string) (f : list Byte.byte) : pyresult unit * list Byte.byte :=
  match fuel with
  | O => (Ok tt, f)
  | S fuel' =>
      match response_read chunk rest err with
      | Raise e => (Raise e, f)
      | Ok [] => (Ok tt, f)
      | Ok data => read_loop fuel' chunk (drop (length data) rest) err (f ++ data)
      end
  end.

(** [with open(local_path, mode) as f] around the loop: mode ['ab'] keeps the
    content, ['wb'] truncates; what the loop wrote stays on disk even when a
    read raises. *)
Definition write_stream (cfg : Config) (local_path : string) (append : bool)
    (response : Response) : M unit :=
  fun w =>
    let base := if append then default [] (fs w !! local_path) else [] in
    let (r, content) :=
      read_loop (S (length (resp_body response))) (chunk_size cfg)
        (resp_body response) (resp_read_error response) base in
    match set_fs (<[local_path := content]> (fs w)) w with
    | (_, w') => (r, w')
    end.

(** The resume decision: [(resume_pos, mode == 'ab')]. *)
Definition resume_decision (local_path : string) (expected_size : option Z) : M (Z * bool) :=
  let* ex := os_path_exists local_path in
  if ex then
    let* existing_size := os_path_getsize local_path in
    let* smaller := lift (py_lt existing_size expected_size) in
    if smaller then print (LInfoResuming existing_size) >>> ret (existing_size, true)
    else ret (0, false)
  else ret (0, false).

(** [total_size], used by the progress lines only. *)
Definition total_size_of (env : Env) (resume_pos : Z) (expected_size : option Z)
    (response : Response) : pyresult (option Z) :=
  if 0 <? resume_pos then
    match resp_content_range response with
    | Some cr =>
        match py_int env (last_segment cr) with
        | Ok n => Ok (Some n)
        | Raise e => Raise e
        end
    | None => Ok expected_size
    end
  else
    match resp_content_length response with
    | Some cl =>
        match py_int env cl with
        | Ok n => Ok (Some n)
        | Raise e => Raise e
        end
    | None =>
        match expected_size with
        | Some n => Ok (Some n)
        | None => Raise "int() argument must be a string, a bytes-like object or a real number, not 'NoneType'"
        end
    end.

(** The request: the [Range] header is added only for a positive offset. *)
Definition build_request (url : string) (resume_pos : Z) : Request :=
  {| req_url := url;
     req_range := if 0 <? resume_pos then Some resume_pos else None |}.

(** [_download_with_progress].  The progress lines depend on the clock only
    and change nothing; they are left out.  [EvTransfer] marks the call. *)
Definition _download_with_progress (env : Env) (cfg : Config)
    (url local_path : string) (expected_size : option Z) : M unit :=
  emit (EvTransfer url local_path expected_size) >>>
  let* (resume_pos, append) := resume_decision local_path expected_size in
  let* response := urlopen env (build_request url resume_pos) in
  let* _total_size := lift (total_size_of env resume_pos expected_size response) in
  write_stream cfg local_path append response.

(** ** Retry Wrapper ([GEODownloader._download_single_file]) *)

Definition completed_result (filename local_path : string) (size : option Z) : FileResult :=
  {| fr_filename := filename; fr_local_path := Some local_path;
     fr_status := FileCompleted; fr_error := None; fr_size_bytes := size |}.

Definition failed_result (filename local_path error_msg : string) : FileResult :=
  {| fr_filename := filename; fr_local_path := Some local_path;
     fr_status := FileFailed; fr_error := Some error_msg; fr_size_bytes := Some 0 |}.

(** The body of the [try] of one attempt: transfer, size check when the
    expected size is positive and verification is on, then the result. *)
Definition download_attempt (env : Env) (cfg : Config)
    (filename file_url local_path : string) (expected_size : option Z) : M FileResult :=
  _download_with_progress env cfg file_url local_path expected_size >>>
  let* known := lift (py_gt expected_size 0) in
  (if known && verify_integrity cfg then
     let* good := verify_file_integrity local_path expected_size in
     if negb good then raise "Downloaded file size doesn't match expected size"
     else ret tt
   else ret tt) >>>
  print (LSuccessDownloaded filename) >>>
  let* size := os_path_getsize local_path in
  ret (completed_result filename local_path (Some size)).

(** The handler of a failed attempt that is not the last: two lines on the
    console, then the wait. *)
Definition wait_before_retry (cfg : Config) (attempt : Z) (error_msg : string) : M unit :=
  print (LWarnAttempt (attempt + 1) (max_retries cfg + 1) error_msg) >>>
  print (LInfoRetrying (retry_delay cfg)) >>>
  time_sleep (retry_delay cfg).

(** [for attempt in range(max_retries + 1)]; falling out of the loop returns
    [None]. *)
Fixpoint retry_loop (env : Env) (cfg : Config)
    (filename file_url local_path : string) (expected_size : option Z)
    (attempts : list Z) : M (option FileResult) :=
  match attempts with
  | [] => ret None
  | attempt :: rest =>
      let* r := try_result (download_attempt env cfg filename file_url local_path expected_size) in
      match r with
      | Ok result => ret (Some result)
      | Raise error_msg =>
          if attempt <? max_retries cfg then
            wait_before_retry cfg attempt error_msg >>>
            retry_loop env cfg filename file_url local_path expected_size rest
          else
            print (LErrAttempts (max_retries cfg + 1) error_msg) >>>
            ret (Some (failed_result filename local_path error_msg))
      end
  end.

Definition local_path_of (cfg : Config) (file_info : RemoteFile) : string :=
  path_join (output_dir cfg) (safe_filename (rf_filename file_info)).

(** The test before the loop:
    [os.path.exists(local_path) and expected_size > 0], then
    [verify_file_integrity]. *)
Definition already_complete (local_path : string) (expected_size : option Z) : M bool :=
  let* ex := os_path_exists local_path in
  let* known := (if ex then lift (py_gt expected_size 0) else ret false) in
  if known then verify_file_integrity local_path expected_size else ret false.

Definition _download_single_file (env : Env) (cfg : Config) (gse_id : string)
    (file_info : RemoteFile) : M (option FileResult) :=
  let filename := rf_filename file_info in
  let file_url := rf_url file_info in
  let expected_size := rf_size_bytes file_info in
  let local_path := local_path_of cfg file_info in
  let* complete := already_complete local_path expected_size in
  if complete then
    print (LInfoComplete filename) >>>
    ret (Some (completed_result filename local_path expected_size))
  else
    retry_loop env cfg filename file_url local_path expected_size
      (py_range (max_retries cfg + 1)).

(** ** Parallel Dispatcher *)

(** [_download_files_sequential]: [i] counts from 1, [n = len(raw_files)]. *)
Fixpoint sequential_loop (env : Env) (cfg : Config) (gse_id : string) (n i : Z)
    (files : list RemoteFile) (results : list (option FileResult))
  : M (list (option FileResult)) :=
  match files with
  | [] => ret results
  | file_info :: rest =>
      print (LInfoDownloading i n (rf_filename file_info)) >>>
      let* result := _download_single_file env cfg gse_id file_info in
      (if (i <? n) && negb (Qle_bool (delay cfg) 0) then time_sleep (delay cfg)
       else ret tt) >>>
      sequential_loop env cfg gse_id n (i + 1) rest (results ++ [result])
  end.

Definition _download_files_sequential (env : Env) (cfg : Config) (gse_id : string)
    (raw_files : list RemoteFile) : M (list (option FileResult)) :=
  sequential_loop env cfg gse_id (Z.of_nat (length raw_files)) 1 raw_files [].

(** The entry appended when [future.result()] raises. *)
Definition worker_error_result (file_info : RemoteFile) (e : string) : FileResult :=
  {| fr_filename := rf_filename file_info; fr_local_path := None;
     fr_status := FileFailed; fr_error := Some e;
     fr_size_bytes := rf_size_bytes file_info |}.

(** The loop over [as_completed]: the futures come in completion order,
    given as indices into [raw_files].  A worker is run as one step at the
    moment its future completes; the interleaving of the workers' own steps
    is not part of the model. *)
Fixpoint collect_completed (env : Env) (cfg : Config) (gse_id : string)
    (raw_files : list RemoteFile) (order : list nat)
    (results : list (option FileResult)) : M (list (option FileResult)) :=
  match order with
  | [] => ret results
  | k :: rest =>
      match raw_files !! k with
      | None => collect_completed env cfg gse_id raw_files rest results
      | Some file_info =>
          let* r := try_result (_download_single_file env cfg gse_id file_info) in
          let result :=
            match r with
            | Ok result => result
            | Raise e => Some (worker_error_result file_info e)
            end in
          collect_completed env cfg gse_id raw_files rest (results ++ [result])
      end
  end.

(** [_download_files_parallel]; [ThreadPoolExecutor] refuses a pool of no
    worker. *)
Definition _download_files_parallel (env : Env) (cfg : Config) (gse_id : string)
    (raw_files : list RemoteFile) : M (list (option FileResult)) :=
  print (LInfoParallel (Z.of_nat (length raw_files)) (workers cfg)) >>>
  (if workers cfg <=? 0 then raise "max_workers must be greater than 0" else ret tt) >>>
  collect_completed env cfg gse_id raw_files
    (env_completed env (length raw_files)) [].

(** ** Remote Metadata Resolver *)

(** [gse_id.replace("GSE", "")] *)
Fixpoint remove_gse (s : string) : string :=
  match s with
  | String "G" (String "S" (String "E" r)) => remove_gse r
  | String c r => String c (remove_gse r)
  | EmptyString => EmptyString
  end.

Fixpoint string_take (n : nat) (s : string) : string :=
  match n, s with
  | S n', String c s' => String c (string_take n' s')
  | _, _ => EmptyString
  end.

(** The supplementary directory of a series. *)
Definition suppl_url (gse_id : string) : string :=
  let gse_num := remove_gse gse_id in
  let first_three :=
    if (3 <=? String.length gse_num)%nat
    then string_take (String.length gse_num - 3) gse_num
    else "0" in
  "https://ftp.ncbi.nlm.nih.gov/geo/series/GSE" +:+ first_three +:+ "nnn/"
    +:+ gse_id +:+ "/suppl/".

(** [size_human] of an entry ([format_size] divides as floats, which every
    size below the float range allows). *)
Definition size_human_of (file_size : option Z) : SizeHuman :=
  match file_size with
  | Some n => if n =? 0 then SizeUnknown else SizeFormatted n
  | None => SizeUnknown
  end.

(** The loop over [file_names]: every raw file is probed and appended. *)
Fixpoint probe_raw_files (env : Env) (suppl : string) (names : list string)
    (raw_files : list RemoteFile) : M (list RemoteFile) :=
  match names with
  | [] => ret raw_files
  | filename :: rest =>
      if is_raw filename then
        let file_url := suppl +:+ filename in
        let* file_size := get_file_size env file_url in
        probe_raw_files env suppl rest
          (raw_files ++ [ {| rf_filename := filename; rf_url := file_url;
                             rf_size_bytes := file_size;
                             rf_size_human := size_human_of file_size |} ])
      else probe_raw_files env suppl rest raw_files
  end.

(** [_check_raw_files]: a listing that cannot be fetched leaves no raw file. *)
Definition _check_raw_files (env : Env) (gse_id : string) : M (list RemoteFile * bool) :=
  let url := suppl_url gse_id in
  let* raw_files :=
    try_except
      (emit (EvList url) >>>
       let* file_links := lift (env_listing env url) in
       probe_raw_files env url (file_names file_links) [])
      (fun e => print (LWarnRawFiles gse_id e) >>> ret []) in
  ret (raw_files, (0 <? length raw_files)%nat).

(** [_fetch_gse_summary]: the summary document, held as what
    [_parse_gse_summary] makes of it; every exception inside ends in a
    warning and [None]. *)
Definition _fetch_gse_summary (env : Env) (gse_id : string)
  : M (option (Descr * option string)) :=
  try_except
    (emit (EvDescribe gse_id) >>>
     match env_describe env gse_id with
     | CatalogError msg => raise msg
     | CatalogNoRecord => ret None
     | CatalogSummary fields parse_error => ret (Some (fields, parse_error))
     end)
    (fun e => print (LWarnSummary gse_id e) >>> ret None).

(** [_parse_gse_summary], followed by [metadata.update]: an exception
    inside ends in a warning and the fields set before it. *)
Definition _parse_gse_summary (gse_id : string) (summary_xml : Descr * option string)
  : M Descr :=
  try_except
    (match snd summary_xml with
     | Some e => raise e
     | None => ret (fst summary_xml)
     end)
    (fun e => print (LWarnParse gse_id e) >>> ret (fst summary_xml)).

(** The handler of [get_gse_metadata]: the [error] entry is set on the
    dictionary as the body left it. *)
Definition metadata_error (gse_id : string) (descr : Descr) (e : string) : M Metadata :=
  print (LErrMetadata gse_id e) >>>
  ret {| md_gse_id := gse_id; md_has_raw_data := false; md_descr := descr;
         md_raw_files := []; md_error := Some e |}.

(** [get_gse_metadata]: the summary, then the raw files.  The handler is
    there for an exception of the body, but the three helpers catch their
    own. *)
Definition get_gse_metadata (env : Env) (gse_id : string) : M Metadata :=
  let* r :=
    try_result
      (let* summary_xml := _fetch_gse_summary env gse_id in
       match summary_xml with
       | Some document => _parse_gse_summary gse_id document
       | None => ret descr_default
       end) in
  match r with
  | Raise e => metadata_error gse_id descr_default e
  | Ok descr =>
      let* r := try_result (_check_raw_files env gse_id) in
      match r with
      | Raise e => metadata_error gse_id descr e
      | Ok (raw_files, has_raw) =>
          ret {| md_gse_id := gse_id; md_has_raw_data := has_raw; md_descr := descr;
                 md_raw_files := raw_files; md_error := None |}
      end
  end.

(** ** Run Orchestrator *)

(** [result["status"]] over the dispatcher's list: a [None] entry is not
    subscriptable. *)
Fixpoint subscript_all (results : list (option FileResult)) : pyresult (list FileResult) :=
  match results with
  | [] => Ok []
  | None :: _ => Raise "'NoneType' object is not subscriptable"
  | Some r :: rest =>
      match subscript_all rest with
      | Ok rs => Ok (r :: rs)
      | Raise e => Raise e
      end
  end.

Definition file_completed (r : FileResult) : bool :=
  match fr_status r with FileCompleted => true | FileFailed => false end.

(** [sum(1 for result in download_results if result["status"] == "completed")] *)
Definition count_completed (results : list FileResult) : Z :=
  Z.of_nat (length (filter (fun r => file_completed r = true) results)).

(** The status chosen from [successful] and [total]. *)
Definition overall_status (successful total : Z) : DatasetStatus :=
  if successful =? total then DsCompleted
  else if 0 <? successful then DsPartial
  else DsFailed.

Definition download_gse_dataset (env : Env) (cfg : Config) (gse_id : string)
  : M DatasetResult :=
  print (LInfoProcessing gse_id) >>>
  let* metadata := get_gse_metadata env gse_id in
  if truthy_opt (md_error metadata) then
    ret {| dr_gse_id := gse_id; dr_status := DsFailed;
           dr_error := md_error metadata; dr_files := []; dr_metadata := None |}
  else if negb (md_has_raw_data metadata) then
    ret {| dr_gse_id := gse_id; dr_status := DsNoRawData;
           dr_error := Some "No raw data files found"; dr_files := [];
           dr_metadata := None |}
  else
    let* download_results :=
      (if parallel cfg && (1 <? length (md_raw_files metadata))%nat
       then _download_files_parallel env cfg gse_id (md_raw_files metadata)
       else _download_files_sequential env cfg gse_id (md_raw_files metadata)) in
    let* files := lift (subscript_all download_results) in
    let successful := count_completed files in
    let total := Z.of_nat (length files) in
    ret {| dr_gse_id := gse_id; dr_status := overall_status successful total;
           dr_error := None; dr_files := files; dr_metadata := Some metadata |}.

(** [save_download_status]: the whole status is handed to [json.dump]; a
    failure is reported and swallowed. *)
Definition save_download_status (env : Env) : M unit :=
  try_except
    (let* w := get_world in
     let k := length (filter (fun e => is_save e = true) (trace w)) in
     emit (EvSave (download_status w)) >>>
     match env_save env k with
     | SaveOk => set_status_disk (SfJson (download_status w))
     | SaveOpenError msg => raise msg
     | SaveDumpError msg remains => set_status_disk (SfCorrupt remains) >>> raise msg
     end)
    (fun e => print (LWarnSave e)).

(** [len(self.download_status)] *)
Definition status_len (v : StatusValue) : pyresult Z :=
  match v with
  | StatusDict m => Ok (Z.of_nat (size m))
  | StatusOther (JsonList items) => Ok (Z.of_nat (length items))
  | StatusOther (JsonStr s) => Ok (PyStr.len s)
  | StatusOther (JsonScalar type_name) =>
      Raise ("object of type '" +:+ type_name +:+ "' has no len()")
  end.

(** [load_download_status]: whatever [json.load] returns is kept, unless
    [len] refuses it. *)
Definition load_download_status : M unit :=
  let* w := get_world in
  match status_disk w with
  | SfAbsent => ret tt
  | SfCorrupt msg =>
      try_except (raise msg)
        (fun e => print (LWarnLoad e) >>> set_download_status (StatusDict ∅))
  | SfJson v =>
      try_except
        (set_download_status v >>>
         let* n := lift (status_len v) in
         print (LInfoLoaded n))
        (fun e => print (LWarnLoad e) >>> set_download_status (StatusDict ∅))
  end.

(** [self.download_status[gse_id] = result]: only a dictionary takes a
    string for a key. *)
Definition status_setitem (v : StatusValue) (gse_id : string) (result : DatasetResult)
  : pyresult StatusValue :=
  match v with
  | StatusDict m => Ok (StatusDict (<[gse_id := result]> m))
  | StatusOther (JsonList _) => Raise "list indices must be integers or slices, not str"
  | StatusOther (JsonStr _) => Raise "'str' object does not support item assignment"
  | StatusOther (JsonScalar type_name) =>
      Raise ("'" +:+ type_name +:+ "' object does not support item assignment")
  end.

Definition count_status (p : DatasetStatus -> bool) (results : list DatasetResult) : Z :=
  Z.of_nat (length (filter (fun r => p (dr_status r) = true) results)).

Definition is_completed (s : DatasetStatus) : bool :=
  match s with DsCompleted => true | _ => false end.
Definition is_partial (s : DatasetStatus) : bool :=
  match s with DsPartial => true | _ => false end.
(** [r["status"] in ["failed", "no_raw_data"]] *)
Definition is_failed_or_no_raw (s : DatasetStatus) : bool :=
  match s with DsFailed | DsNoRawData => true | _ => false end.

Record RunSummary : Type := mkRunSummary {
  rs_total : Z;
  rs_completed : Z;
  rs_partial : Z;
  rs_failed : Z;
  rs_results : list DatasetResult;
  rs_total_time : Q
}.

(** What [download_multiple_datasets] returns: the summary, or the
    dictionary with the single key [error]. *)
Inductive RunReturn : Type :=
| RunError (error : string)
| RunDone (summary : RunSummary).

(** The loop over [enumerate(gse_ids, 1)]. *)
Fixpoint datasets_loop (env : Env) (cfg : Config) (n i : Z) (gse_ids : list string)
    (results : list DatasetResult) : M (list DatasetResult) :=
  match gse_ids with
  | [] => ret results
  | gse_id :: rest =>
      print (LInfoDataset i n gse_id) >>>
      let* result := download_gse_dataset env cfg gse_id in
      let* w := get_world in
      let* status := lift (status_setitem (download_status w) gse_id result) in
      set_download_status status >>>
      (if i mod 5 =? 0 then save_download_status env else ret tt) >>>
      datasets_loop env cfg n (i + 1) rest (results ++ [result])
  end.

Definition download_multiple_datasets (env : Env) (cfg : Config)
    (gse_ids : list string) : M RunReturn :=
  match gse_ids with
  | [] => ret (RunError "No GSE IDs provided")
  | _ =>
      let n := Z.of_nat (length gse_ids) in
      print (LInfoStart n (output_dir cfg) (parallel cfg)) >>>
      (if parallel cfg then print (LInfoWorkers (workers cfg)) else ret tt) >>>
      load_download_status >>>
      let* start_time := time_time env in
      let* results := datasets_loop env cfg n 1 gse_ids [] in
      save_download_status env >>>
      let* end_time := time_time env in
      let total_time := (end_time - start_time)%Q in
      let completed := count_status is_completed results in
      let partial := count_status is_partial results in
      let failed := count_status is_failed_or_no_raw results in
      print (LSummary (Z.of_nat (length results)) completed partial failed total_time) >>>
      ret (RunDone {| rs_total := Z.of_nat (length results);
                      rs_completed := completed; rs_partial := partial;
                      rs_failed := failed; rs_results := results;
                      rs_total_time := total_time |})
  end.

(** ** The end of [cli.main]: run, then the exit status of the process *)

(** [results["failed"]] on what the run returned: the [error] dictionary has
    no such key. *)
Definition summary_of (r : RunReturn) : pyresult RunSummary :=
  match r with
  | RunDone s => Ok s
  | RunError _ => Raise "'failed'"
  end.

(** The [try] block that ends [main]; the value is the argument of
    [sys.exit]. *)
Definition main_download (env : Env) (cfg : Config) (gse_ids : list string) : M Z :=
  try_except
    (let* results := download_multiple_datasets env cfg gse_ids in
     let* s := lift (summary_of results) in
     if rs_failed s =? 0 then print LExitSuccess >>> ret 0
     else if 0 <? rs_completed s then
       print (LExitPartial (rs_completed s) (rs_total s)) >>> ret 1
     else print LExitFailed >>> ret 1)
    (fun e => print (LExitError e) >>> ret 1).

(** ** [utils.build_geo_url] *)

Definition build_geo_url (gse_id file_name : string) : string :=
  let gse_num := remove_gse gse_id in
  let first_three :=
    if (3 <=? String.length gse_num)%nat
    then string_take (String.length gse_num - 3) gse_num
    else "0" in
  let base_url := "https://ftp.ncbi.nlm.nih.gov/geo/series" in
  let series_dir := "GSE" +:+ first_three +:+ "nnn" in
  let gse_dir := gse_id in
  base_url +:+ "/" +:+ series_dir +:+ "/" +:+ gse_dir +:+ "/suppl/" +:+ file_name.

(** ** [config.py]: the [Config] class over its dictionary, and the
    configuration that [cli.create_config_from_args] builds *)

Module ConfigClass.

(** A Python [float]: the rational a finite one equals, an infinity, or
    not-a-number. *)
Inductive PyFloat : Type :=
| FFinite (q : Q)
| FInf (negative : bool)
| FNaN.

(** The values a configuration holds: what the literals of
    [DEFAULT_CONFIG], [argparse] and [json.load] give. *)
#[warnings="-register-all"]
Inductive PyVal : Type :=
| PyNone
| PyBool (b : bool)
| PyInt (n : Z)
| PyFloatV (f : PyFloat)
| PyStr (s : string)
| PyList (items : list PyVal)
| PyDict (items : list (string * PyVal)).

(** The classes of the exceptions that the code tells apart. *)
Inductive ExcClass : Type :=
| ValueError | KeyError | TypeError | FileNotFoundError | OSError.

Inductive outcome (A : Type) : Type :=
| Returns (a : A)
| Raises (cls : ExcClass) (msg : string).
Arguments Returns {A} a.
Arguments Raises {A} cls msg.

Definition obind {A B} (m : outcome A) (k : A -> outcome B) : outcome B :=
  match m with
  | Returns a => k a
  | Raises cls msg => Raises cls msg
  end.

(** The literal [0.4]: the double nearest to it. *)
Definition float_0_4 : PyFloat := FFinite (3602879701896397 # 9007199254740992).

Definition DEFAULT_CONFIG : gmap string PyVal :=
  list_to_map
    [ ("output_dir", PyStr "downloads");
      ("parallel", PyBool false);
      ("workers", PyNone);
      ("delay", PyFloatV float_0_4);
      ("chunk_size", PyInt 32768);
      ("max_retries", PyInt 3);
      ("retry_delay", PyInt 2);
      ("verify_integrity", PyBool true);
      ("force", PyBool false);
      ("pattern", PyStr "!Platform_series_id");
      ("gse_ids", PyList []);
      ("input_file", PyNone);
      ("config_file", PyNone) ].

(** [key in self.DEFAULT_CONFIG] *)
Definition known_key (key : string) : bool :=
  bool_decide (is_Some (DEFAULT_CONFIG !! key)).

(** [update]: the items of [config_dict] in order; the first unknown key
    raises, after the items before it have been stored. *)
Fixpoint update (config_dict : list (string * PyVal)) (config : gmap string PyVal)
  : outcome unit * gmap string PyVal :=
  match config_dict with
  | [] => (Returns tt, config)
  | (key, value) :: rest =>
      if known_key key then update rest (<[key := value]> config)
      else (Raises ValueError ("Unknown configuration key: " +:+ key), config)
  end.

(** [get(key, default)] *)
Definition get (key : string) (default : PyVal) (config : gmap string PyVal) : PyVal :=
  match config !! key with
  | Some value => value
  | None => default
  end.

(** [set(key, value)], which is also [__setitem__] *)
Definition set (key : string) (value : PyVal) (config : gmap string PyVal)
  : outcome unit * gmap string PyVal :=
  if known_key key then (Returns tt, <[key := value]> config)
  else (Raises ValueError ("Unknown configuration key: " +:+ key), config).

(** [__getitem__]: a missing key is a [KeyError] whose text is the key
    between quotes. *)
Definition __getitem__ (key : string) (config : gmap string PyVal) : outcome PyVal :=
  match config !! key with
  | Some value => Returns value
  | None => Raises KeyError ("'" +:+ key +:+ "'")
  end.

(** [__contains__] *)
Definition __contains__ (key : string) (config : gmap string PyVal) : bool :=
  bool_decide (is_Some (config !! key)).

(** [max(1, int(os.cpu_count() * 0.75))]; the product is exact for every
    count below [2^51], and [int] truncates. *)
Definition default_workers (cpu_count : option Z) : outcome Z :=
  match cpu_count with
  | Some n => Returns (Z.max 1 (Z.quot (3 * n) 4))
  | None => Raises TypeError "unsupported operand type(s) for *: 'NoneType' and 'float'"
  end.

(** [Config.__init__] *)
Definition __init__ (cpu_count : option Z) (config_dict : option (list (string * PyVal)))
  : outcome (gmap string PyVal) :=
  let config := DEFAULT_CONFIG in
  obind (__getitem__ "workers" config) (fun workers =>
  obind (match workers with
         | PyNone =>
             obind (default_workers cpu_count)
               (fun n => Returns (<["workers" := PyInt n]> config))
         | _ => Returns config
         end) (fun config =>
  match config_dict with
  | Some ((_ :: _) as items) =>
      match update items config with
      | (Returns _, config') => Returns config'
      | (Raises cls msg, _) => Raises cls msg
      end
  | _ => Returns config
  end)).

(** What opening and parsing a configuration file gives. *)
Inductive JsonFile : Type :=
| JsonMissing
| JsonUnreadable (cls : ExcClass) (msg : string)
| JsonInvalid (e : string)
| JsonValue (v : PyVal).

(** [load_from_file] *)
Definition load_from_file (read_json : string -> JsonFile) (config_file : string)
    (config : gmap string PyVal) : outcome unit * gmap string PyVal :=
  match read_json config_file with
  | JsonMissing =>
      (Raises FileNotFoundError ("Configuration file not found: " +:+ config_file), config)
  | JsonUnreadable cls msg => (Raises cls msg, config)
  | JsonInvalid e =>
      (Raises ValueError ("Invalid JSON in configuration file: " +:+ e), config)
  | JsonValue (PyDict file_config) =>
      match update file_config config with
      | (Returns _, config') => (Returns tt, <["config_file" := PyStr config_file]> config')
      | (Raises cls msg, config') => (Raises cls msg, config')
      end
  | JsonValue _ =>
      (Raises ValueError "Configuration file must contain a JSON object", config)
  end.

(** [isinstance(v, int)] holds for [bool] too; [isinstance(v, (int, float))] *)
Definition is_int (v : PyVal) : bool :=
  match v with PyInt _ | PyBool _ => true | _ => false end.
Definition is_number (v : PyVal) : bool :=
  match v with PyInt _ | PyBool _ | PyFloatV _ => true | _ => false end.

(** [v < n] for a number [v] and an [int] literal [n] *)
Definition lt_int (v : PyVal) (n : Z) : bool :=
  match v with
  | PyInt z => z <? n
  | PyBool b => (if b then 1 else 0) <? n
  | PyFloatV (FFinite q) => negb (Qle_bool (inject_Z n) q)
  | PyFloatV (FInf negative) => negative
  | PyFloatV FNaN => false
  | _ => false
  end.

(** Truth value *)
Definition truthy (v : PyVal) : bool :=
  match v with
  | PyNone => false
  | PyBool b => b
  | PyInt n => negb (n =? 0)
  | PyFloatV (FFinite q) => negb (Qeq_bool q 0)
  | PyFloatV _ => true
  | PyStr s => PyStr.truthy s
  | PyList items => match items with [] => false | _ => true end
  | PyDict items => match items with [] => false | _ => true end
  end.

Definition check (failed : bool) (msg : string) : outcome unit :=
  if failed then Raises ValueError msg else Returns tt.

(** The loop over [gse_ids] in [validate]; [upper] is [str.upper]. *)
Fixpoint validate_gse_ids (upper : string -> string) (gse_ids : list PyVal) : outcome unit :=
  match gse_ids with
  | [] => Returns tt
  | gse_id :: rest =>
      match gse_id with
      | PyStr s =>
          if PyStr.startswith "GSE" (upper s) then validate_gse_ids upper rest
          else Raises ValueError ("Invalid GSE ID format: " +:+ s)
      | _ => Raises ValueError "All GSE IDs must be strings"
      end
  end.

(** [Config.validate] *)
Definition validate (upper : string -> string) (config : gmap string PyVal) : outcome unit :=
  obind (__getitem__ "workers" config) (fun workers =>
  obind (check (negb (is_int workers) || lt_int workers 1)
           "Workers must be a positive integer") (fun _ =>
  obind (__getitem__ "delay" config) (fun delay =>
  obind (check (negb (is_number delay) || lt_int delay 0)
           "Delay must be a non-negative number") (fun _ =>
  obind (__getitem__ "chunk_size" config) (fun chunk_size =>
  obind (check (negb (is_int chunk_size) || lt_int chunk_size 1)
           "Chunk size must be a positive integer") (fun _ =>
  obind (__getitem__ "max_retries" config) (fun max_retries =>
  obind (check (negb (is_int max_retries) || lt_int max_retries 0)
           "Max retries must be a non-negative integer") (fun _ =>
  obind (__getitem__ "retry_delay" config) (fun retry_delay =>
  obind (check (negb (is_number retry_delay) || lt_int retry_delay 0)
           "Retry delay must be a non-negative number") (fun _ =>
  obind (__getitem__ "gse_ids" config) (fun gse_ids =>
  if truthy gse_ids then
    match gse_ids with
    | PyList items => validate_gse_ids upper items
    | _ => Raises ValueError "GSE IDs must be a list"
    end
  else Returns tt))))))))))).

(** *** [cli.create_config_from_args] *)

(** The parsed command line, as [argparse] types it. *)
Record Args : Type := mkArgs {
  arg_gse_ids : list string;
  arg_input : option string;
  arg_config : option string;
  arg_pattern : string;
  arg_output : string;
  arg_parallel : bool;
  arg_workers : option Z;
  arg_delay : PyFloat;
  arg_chunk_size : Z;
  arg_max_retries : Z;
  arg_retry_delay : PyFloat;
  arg_force : bool;
  arg_no_verify : bool;
  arg_dry_run : bool
}.

(** What the code takes from the machine it runs on. *)
Record Host : Type := mkHost {
  host_cpu_count : option Z;
  host_read_json : string -> JsonFile;
  host_upper : string -> string
}.

(** How a function of the CLI ends: it returns, calls [sys.exit] after a
    message, or lets an exception escape. *)
Inductive CliOutcome (A : Type) : Type :=
| CliReturns (a : A)
| CliExit (code : Z) (message : string)
| CliRaises (cls : ExcClass) (msg : string).
Arguments CliReturns {A} a.
Arguments CliExit {A} code message.
Arguments CliRaises {A} cls msg.

(** [config_updates], with [workers] added last when [args.workers] is
    true. *)
Definition config_updates (args : Args) : list (string * PyVal) :=
  [ ("output_dir", PyStr (arg_output args));
    ("parallel", PyBool (arg_parallel args));
    ("delay", PyFloatV (arg_delay args));
    ("chunk_size", PyInt (arg_chunk_size args));
    ("max_retries", PyInt (arg_max_retries args));
    ("retry_delay", PyFloatV (arg_retry_delay args));
    ("force", PyBool (arg_force args));
    ("verify_integrity", PyBool (negb (arg_no_verify args)));
    ("pattern", PyStr (arg_pattern args)) ]
  ++ match arg_workers args with
     | Some n => if n =? 0 then [] else [ ("workers", PyInt n) ]
     | None => []
     end.

Definition create_config_from_args (host : Host) (args : Args)
  : CliOutcome (gmap string PyVal) :=
  match __init__ (host_cpu_count host) None with
  | Raises cls msg => CliRaises cls msg
  | Returns config =>
      match
        (match arg_config args with
         | Some config_file =>
             if PyStr.truthy config_file
             then load_from_file (host_read_json host) config_file config
             else (Returns tt, config)
         | None => (Returns tt, config)
         end)
      with
      | (Raises _ e, _) =>
          CliExit 1 ("[ERROR] Failed to load configuration file: " +:+ e)
      | (Returns _, config) =>
          match update (config_updates args) config with
          | (Raises cls msg, _) => CliRaises cls msg
          | (Returns _, config) =>
              match validate (host_upper host) config with
              | Raises ValueError e =>
                  CliExit 1 ("[ERROR] Invalid configuration: " +:+ e)
              | Raises cls msg => CliRaises cls msg
              | Returns _ => CliReturns config
              end
          end
      end
  end.

(** *** The configuration as the engine reads it *)

Definition as_int (v : PyVal) : option Z :=
  match v with
  | PyInt n => Some n
  | PyBool b => Some (if b then 1 else 0)
  | _ => None
  end.

Definition as_seconds (v : PyVal) : option Q :=
  match v with
  | PyInt n => Some (inject_Z n)
  | PyBool b => Some (if b then 1 else 0)%Q
  | PyFloatV (FFinite q) => Some q
  | _ => None
  end.

Definition as_str (v : PyVal) : option string :=
  match v with PyStr s => Some s | _ => None end.

(** The record of the keys the engine reads, when the values are of the
    kinds it can use: a string, truth values, integers, finite numbers of
    seconds. *)
Definition engine_config (config : gmap string PyVal) : option Config :=
  dir ← config !! "output_dir" ≫= as_str;
  par ← config !! "parallel";
  wrk ← config !! "workers" ≫= as_int;
  dly ← config !! "delay" ≫= as_seconds;
  chk ← config !! "chunk_size" ≫= as_int;
  ret ← config !! "max_retries" ≫= as_int;
  rdl ← config !! "retry_delay" ≫= as_seconds;
  ver ← config !! "verify_integrity";
  frc ← config !! "force";
  Some {| output_dir := dir; parallel := truthy par; workers := wrk; delay := dly;
          chunk_size := chk; max_retries := ret; retry_delay := rdl;
          verify_integrity := truthy ver; force := truthy frc |}.

End ConfigClass.

(** ** Vocabulary of the statements *)

(** The events of a run that are transfer attempts or waits. *)
Definition attempts_and_waits (t : list Event) : list Event :=
  filter (fun e => is_transfer e || is_sleep e = true) t.

(** [j] attempts each followed by a wait of [d] seconds, then one attempt
    more with no wait after it. *)
Fixpoint retry_pattern (transfer : Event) (d : Q) (j : nat) : list Event :=
  match j with
  | O => [transfer]
  | S j' => transfer :: EvSleep d :: retry_pattern transfer d j'
  end.





(** The descriptive fields that the catalog leaves in the metadata, and the
    warnings its helpers print. *)
Definition catalog_fields (c : Catalog) : Descr :=
  match c with
  | CatalogSummary fields _ => fields
  | _ => descr_default
  end.

Definition catalog_warnings (gse_id : string) (c : Catalog) : list LogLine :=
  match c with
  | CatalogError e => [ LWarnSummary gse_id e ]
  | CatalogSummary _ (Some e) => [ LWarnParse gse_id e ]
  | _ => []
  end.

(** The network calls among the events. *)
Definition network_calls (t : list Event) : list Event :=
  filter (fun e => is_network e = true) t.

(** The status writes among the events: the values handed to [json.dump]. *)
Fixpoint saved_snapshots (t : list Event) : list StatusValue :=
  match t with
  | [] => []
  | EvSave m :: t' => m :: saved_snapshots t'
  | _ :: t' => saved_snapshots t'
  end.

(** The indices [a], [a + 1], ... of [m] attempts in a row. *)
Fixpoint attempts_from (a : Z) (m : nat) : list Z :=
  match m with
  | O => []
  | S m' => a :: attempts_from (a + 1) m'
  end.

(** [result] is what the dispatcher keeps for a worker on [file_info]: the
    value the worker returned from some world, or, when the worker raised
    [e], the failed entry that carries [e] and the [size_bytes] of
    [file_info]. *)
Definition kept_for_worker (env : Env) (cfg : Config) (gse_id : string)
    (file_info : RemoteFile) (result : option FileResult) : Prop :=
  (exists w1 w2, _download_single_file env cfg gse_id file_info w1 = (Ok result, w2)) \/
  (exists w1 w2 e,
     _download_single_file env cfg gse_id file_info w1 = (Raise e, w2) /\
     result = Some {| fr_filename := rf_filename file_info; fr_local_path := None;
                      fr_status := FileFailed; fr_error := Some e;
                      fr_size_bytes := rf_size_bytes file_info |}).

(** The status the specification derives from the per-file outcomes: all,
    some but not all, none. *)
Definition derived_status (files : list FileResult) : DatasetStatus :=
  if forallb file_completed files then DsCompleted
  else if existsb file_completed files then DsPartial
  else DsFailed.

(** A computation is [quiet] when it leaves the status mapping and the
    status file alone and records no status write. *)
Definition quiet {A} (m : M A) : Prop :=
  forall w r w',
    m w = (r, w') ->
    download_status w' = download_status w /\
    status_disk w' = status_disk w /\
    saved_snapshots (trace w') = saved_snapshots (trace w).

(** The in-memory status after the results [rs] have been entered, in
    order, into [st0]. *)
Definition status_after (st0 : gmap string DatasetResult) (rs : list DatasetResult)
  : gmap string DatasetResult :=
  foldl (fun m r => <[dr_gse_id r := r]> m) st0 rs.

(** The status a run starts from, given the disk it finds: what the
    downloader holds when there is no file, the document of a file unless
    it is a number, a truth value or [null], and the empty dictionary
    otherwise. *)
Definition loaded_status (w : World) : StatusValue :=
  match status_disk w with
  | SfAbsent => download_status w
  | SfCorrupt _ => StatusDict ∅
  | SfJson (StatusOther (JsonScalar _)) => StatusDict ∅
  | SfJson v => v
  end.

(** The positions, counted from 1, after which the run writes the status
    file while it loops over [n] datasets. *)
Definition periodic_positions (n : nat) : list nat :=
  filter (fun j => Z.of_nat j mod 5 = 0) (seq 1 n).

#[global] Instance DatasetStatus_eq_dec : EqDecision DatasetStatus.
Proof. solve_decision. Defined.

(** The results that carry a given status. *)
Definition with_status (status : DatasetStatus) (results : list DatasetResult)
  : list DatasetResult :=
  filter (fun r => dr_status r = status) results.

(** ** Vocabulary for names, paths and the resolver *)

(** The characters of a string. *)
Definition chars (s : string) : list ascii := list_ascii_of_string s.

(** One character of a name after the replacement loop of [safe_filename]. *)
Definition replaced_char (c : ascii) : ascii :=
  fold_left (fun x char => if Ascii.eqb x char then "_"%char else x) unsafe_chars c.

Definition is_digit (c : ascii) : bool :=
  let n := nat_of_ascii c in (48 <=? n)%nat && (n <=? 57)%nat.

(** What [get_file_size] yields for a URL: the parsed [Content-Length] of
    the answer to the HEAD request, when there is one. *)
Definition probed_size (env : Env) (url : string) : option Z :=
  match env_head env url with
  | Ok (Some content_length) =>
      if PyStr.truthy content_length then env_int env content_length else None
  | Ok None => None
  | Raise _ => None
  end.

(** The entry of [raw_files] for a name of the listing. *)
Definition raw_entry (env : Env) (suppl filename : string) : RemoteFile :=
  {| rf_filename := filename; rf_url := suppl +:+ filename;
     rf_size_bytes := probed_size env (suppl +:+ filename);
     rf_size_human := size_human_of (probed_size env (suppl +:+ filename)) |}.

(** The names of a listing that are kept and classified as raw. *)
Definition raw_names (file_links : list (string * string)) : list string :=
  filter (fun name => is_raw name = true) (file_names file_links).

(** A computation writes only the files whose path satisfies [P], and
    removes none. *)
Definition writes_only {A} (P : string -> Prop) (m : M A) : Prop :=
  forall w r w',
    m w = (r, w') ->
    forall p, (~ P p -> fs w' !! p = fs w !! p) /\
              (is_Some (fs w !! p) -> is_Some (fs w' !! p)).

(** The local path the engine gives to a raw file of the listing. *)
Definition raw_local_path (cfg : Config) (p : string) : Prop :=
  exists name, is_raw name = true /\ p = path_join (output_dir cfg) (safe_filename name).

(** The last result entered for [gse_id], if any. *)
Definition latest_result (gse_id : string) (rs : list DatasetResult) : option DatasetResult :=
  last (filter (fun r => dr_gse_id r = gse_id) rs).

(** Every raw file that the listing of a series shows has a size that the
    HEAD probe can tell. *)
Definition sizes_known (env : Env) (gse_id : string) : Prop :=
  forall file_links,
    env_listing env (suppl_url gse_id) = Ok file_links ->
    Forall (fun name => is_Some (probed_size env (suppl_url gse_id +:+ name)))
      (raw_names file_links).

(** The transfers made for a file write only inside [P]. *)
Definition transfers_write_only (P : string -> Prop) (env : Env) (cfg : Config)
    (fi : RemoteFile) : Prop :=
  writes_only P
    (_download_with_progress env cfg (rf_url fi) (local_path_of cfg fi) (rf_size_bytes fi)).

(** A configuration dictionary holds exactly the keys of
    [DEFAULT_CONFIG]. *)
Definition has_default_keys (config : gmap string ConfigClass.PyVal) : Prop :=
  forall key, is_Some (config !! key) <-> ConfigClass.known_key key = true.

(** Storing the items of a dictionary one after the other. *)
Definition stored (items : list (string * ConfigClass.PyVal))
    (config : gmap string ConfigClass.PyVal) : gmap string ConfigClass.PyVal :=
  foldl (fun c kv => <[fst kv := snd kv]> c) config items.

(** A finite number of seconds. *)
Definition finite_seconds (f : ConfigClass.PyFloat) : option Q :=
  match f with ConfigClass.FFinite q => Some q | _ => None end.

(** Two events are the same up to the snapshot that a status write
    carries. *)
Definition same_event (e1 e2 : Event) : Prop :=
  match e1, e2 with
  | EvSave _, EvSave _ => True
  | _, _ => e1 = e2
  end.

(** Two worlds agree on everything but the run status: the same files and
    the same events, up to the snapshots written. *)
Definition same_but_status (w1 w2 : World) : Prop :=
  fs w1 = fs w2 /\ Forall2 same_event (trace w1) (trace w2).

(** Two computations that, from worlds that agree but for the status, give
    the same result and worlds that still agree. *)
Definition status_blind2 {A} (ma mb : M A) : Prop :=
  forall w1 w2,
    same_but_status w1 w2 ->
    fst (ma w1) = fst (mb w2) /\ same_but_status (snd (ma w1)) (snd (mb w2)).

(** A computation on which the run status has no influence. *)
Definition status_blind {A} (m : M A) : Prop := status_blind2 m m.

(** A computation records only events that satisfy [P]. *)
Definition emits_only {A} (P : Event -> Prop) (m : M A) : Prop :=
  forall w r w',
    m w = (r, w') -> exists new, trace w' = trace w ++ new /\ Forall P new.

(** The events a run over [gse_ids] may record: the catalog call and the
    listing of one of its series, probes and transfers of files of these
    series whose names classify as raw, the two waits of the configuration,
    and status writes. *)
Definition run_event (cfg : Config) (gse_ids : list string) (ev : Event) : Prop :=
  match ev with
  | EvDescribe gse_id => gse_id ∈ gse_ids
  | EvList url => exists gse_id, gse_id ∈ gse_ids /\ url = suppl_url gse_id
  | EvHead url =>
      exists gse_id name,
        gse_id ∈ gse_ids /\ is_raw name = true /\ url = build_geo_url gse_id name
  | EvTransfer url local_path _ =>
      exists gse_id name,
        gse_id ∈ gse_ids /\ is_raw name = true /\ url = build_geo_url gse_id name /\
        local_path = path_join (output_dir cfg) (safe_filename name)
  | EvGet req =>
      exists gse_id name,
        gse_id ∈ gse_ids /\ is_raw name = true /\
        req_url req = build_geo_url gse_id name
  | EvSleep seconds => seconds = delay cfg \/ seconds = retry_delay cfg
  | EvSave _ => True
  end.

(** The address of a network call that carries a URL. *)
Definition event_url (ev : Event) : option string :=
  match ev with
  | EvList url | EvHead url => Some url
  | EvGet req => Some (req_url req)
  | _ => None
  end.

(** The domain of the configuration in section 6 of the specification, on
    the record of the engine: a positive worker count and chunk size, a
    retry count and two delays that are not negative. *)
Definition in_domain (cfg : Config) : bool :=
  (1 <=? workers cfg) && Qle_bool 0 (delay cfg) && (1 <=? chunk_size cfg)
  && (0 <=? max_retries cfg) && Qle_bool 0 (retry_delay cfg).

(** The status file of a run. *)
Definition status_path (cfg : Config) : string :=
  path_join (output_dir cfg) "download_status.json".

(** What status writes make of the status file: the [k]-th write of the
    run leaves the snapshot it was given, leaves the file alone when it
    cannot open it, or leaves a text that cannot be read back. *)
Fixpoint status_file_after (env : Env) (k : nat) (snapshots : list StatusValue)
    (sf : StatusFile) : StatusFile :=
  match snapshots with
  | [] => sf
  | snapshot :: rest =>
      status_file_after env (S k) rest
        match env_save env k with
        | SaveOk => SfJson snapshot
        | SaveOpenError _ => sf
        | SaveDumpError _ remains => SfCorrupt remains
        end
  end.

(** A computation changes the status file through recorded status writes
    only. *)
Definition writes_status_by_saves {A} (env : Env) (m : M A) : Prop :=
  forall w r w',
    m w = (r, w') ->
    exists snapshots,
      saved_snapshots (trace w') = saved_snapshots (trace w) ++ snapshots /\
      status_disk w'
        = status_file_after env (length (saved_snapshots (trace w))) snapshots
            (status_disk w).

(** A character with which one of the keywords of the classification can be
    told: each keyword holds one of these letters. *)
Definition keyword_mark (c : ascii) : bool :=
  PyStr.char_in (PyStr.lower_char c)
    [ "r"%char; "i"%char; "c"%char; "f"%char; "b"%char; "g"%char; "q"%char ].

(** ** Concrete environments for the examples *)

Module Scenario.

(** [int] on plain decimal digits, enough for the headers of the examples. *)
Definition dec_digit (c : ascii) : option Z :=
  let n := nat_of_ascii c in
  if (48 <=? n)%nat && (n <=? 57)%nat then Some (Z.of_nat (n - 48)) else None.

Fixpoint dec_int_go (s : string) (acc : Z) : option Z :=
  match s with
  | EmptyString => Some acc
  | String c s' =>
      match dec_digit c with
      | Some d => dec_int_go s' (10 * acc + d)
      | None => None
      end
  end.

Definition dec_int (s : string) : option Z :=
  match s with
  | EmptyString => None
  | _ => dec_int_go s 0
  end.

Definition body5 : list Byte.byte :=
  [ Byte.x01; Byte.x02; Byte.x03; Byte.x04; Byte.x05 ].

Definition response_of (body : list Byte.byte) (content_length : string) : Response :=
  {| resp_content_length := Some content_length; resp_content_range := None;
     resp_body := body; resp_read_error := None |}.

(** A run with retries: three attempts at most, two seconds between them. *)
Definition cfg : Config :=
  {| output_dir := "downloads"; parallel := false; workers := 2;
     delay := 0; chunk_size := 2; max_retries := 2; retry_delay := 2;
     verify_integrity := true; force := true |}.

(** The same with no retry and a worker pool. *)
Definition cfg_once : Config :=
  {| output_dir := "downloads"; parallel := false; workers := 2;
     delay := 0; chunk_size := 2; max_retries := 0; retry_delay := 2;
     verify_integrity := true; force := true |}.

Definition cfg_parallel : Config :=
  {| output_dir := "downloads"; parallel := true; workers := 2;
     delay := 0; chunk_size := 2; max_retries := 0; retry_delay := 2;
     verify_integrity := true; force := true |}.

(** An environment whose every remote end is down or empty; the others
    change one field of it. *)
Definition env_down : Env :=
  {| env_describe := fun _ => CatalogNoRecord;
     env_listing := fun _ => Ok [];
     env_head := fun _ => Ok None;
     env_get := fun _ _ => NetError "timed out";
     env_int := dec_int;
     env_save := fun _ => SaveOk;
     env_completed := fun n => seq 0 n;
     env_clock := fun k => inject_Z (Z.of_nat k) |}.

Definition with_get (env : Env) (get : nat -> Request -> NetOutcome) : Env :=
  {| env_describe := env_describe env; env_listing := env_listing env;
     env_head := env_head env; env_get := get; env_int := env_int env;
     env_save := env_save env; env_completed := env_completed env;
     env_clock := env_clock env |}.

Definition with_listing (env : Env)
    (listing : string -> pyresult (list (string * string)))
    (head : string -> pyresult (option string)) : Env :=
  {| env_describe := env_describe env; env_listing := listing;
     env_head := head; env_get := env_get env; env_int := env_int env;
     env_save := env_save env; env_completed := env_completed env;
     env_clock := env_clock env |}.

Definition with_describe (env : Env) (describe : string -> Catalog) : Env :=
  {| env_describe := describe; env_listing := env_listing env;
     env_head := env_head env; env_get := env_get env; env_int := env_int env;
     env_save := env_save env; env_completed := env_completed env;
     env_clock := env_clock env |}.

(** The first two GETs time out, the third delivers five bytes. *)
Definition env_third_try : Env :=
  with_get env_down
    (fun k _ => if (k <? 2)%nat then NetError "timed out"
                else NetResponse (response_of body5 "5")).

(** Every GET delivers the five bytes. *)
Definition env_up : Env :=
  with_get env_down (fun _ _ => NetResponse (response_of body5 "5")).

(** Every GET delivers an empty body. *)
Definition env_empty_body : Env :=
  with_get env_down (fun _ _ => NetResponse (response_of [] "0")).

(** A server that honours [Range]: the body starts at the offset asked for. *)
Definition env_ranges : Env :=
  with_get env_down
    (fun _ req =>
       match req_range req with
       | Some pos =>
           NetResponse {| resp_content_length := None;
                          resp_content_range := Some "bytes 2-4/5";
                          resp_body := drop (Z.to_nat pos) body5;
                          resp_read_error := None |}
       | None => NetResponse (response_of body5 "5")
       end).

Definition raw_tar_url : string :=
  "https://ftp.ncbi.nlm.nih.gov/geo/series/GSE0nnn/GSE1/suppl/GSE1_RAW.tar".

Definition raw_tar (size : option Z) : RemoteFile :=
  {| rf_filename := "GSE1_RAW.tar";
     rf_url := raw_tar_url;
     rf_size_bytes := size; rf_size_human := size_human_of size |}.

Definition signal_url : string :=
  "https://ftp.ncbi.nlm.nih.gov/geo/series/GSE0nnn/GSE1/suppl/GSE1_signal.txt".

Definition signal_txt (size : option Z) : RemoteFile :=
  {| rf_filename := "GSE1_signal.txt"; rf_url := signal_url;
     rf_size_bytes := size; rf_size_human := size_human_of size |}.

(** A negative [retry_delay], which [Config.validate] would refuse. *)
Definition cfg_negative_delay : Config :=
  {| output_dir := "downloads"; parallel := true; workers := 2;
     delay := 0; chunk_size := 2; max_retries := 1; retry_delay := -1;
     verify_integrity := true; force := true |}.

(** The series GSE1 lists two raw files of five bytes and the file list;
    the archive can be fetched, the signal file cannot. *)
Definition gse1_listing : list (string * string) :=
  [ ("/geo/series/GSE0nnn/GSE1/", "Parent Directory");
    ("GSE1_RAW.tar", "GSE1_RAW.tar");
    ("GSE1_signal.txt", "GSE1_signal.txt");
    ("GSE1_series_matrix.txt.gz", "GSE1_series_matrix.txt.gz");
    ("filelist.txt", "filelist.txt") ].

Definition env_gse1 : Env :=
  with_get
    (with_listing env_down
       (fun url => if String.eqb url (suppl_url "GSE1") then Ok gse1_listing else Ok [])
       (fun _ => Ok (Some "5")))
    (fun _ req =>
       if String.eqb (req_url req) raw_tar_url
       then NetResponse (response_of body5 "5")
       else NetError "HTTP Error 404: Not Found").

(** The same series with both files in reach. *)
Definition env_gse1_up : Env :=
  with_get env_gse1 (fun _ _ => NetResponse (response_of body5 "5")).

(** The catalog is out of reach; the file server answers as for [env_gse1]. *)
Definition env_catalog_error : Env :=
  with_describe env_gse1_up (fun _ => CatalogError "HTTP Error 500: Internal Server Error").

Definition six_ids : list string :=
  [ "GSE1"; "GSE2"; "GSE3"; "GSE4"; "GSE5"; "GSE6" ].

(** A fresh downloader over an empty output directory. *)
Definition w_empty : World := init_world ∅ SfAbsent.

(** A fresh downloader over a directory that holds [content] under the
    local name of [raw_tar]. *)
Definition w_with (content : list Byte.byte) : World :=
  init_world {[ "downloads/GSE1_RAW.tar" := content ]} SfAbsent.

End Scenario.

(** ** Further configurations for the examples *)

Module Scenario2.

(** A negative [max_retries], which [Config.validate] would refuse. *)
Definition cfg_negative_retries : Config :=
  {| output_dir := "downloads"; parallel := false; workers := 2;
     delay := 0; chunk_size := 2; max_retries := -1; retry_delay := 2;
     verify_integrity := true; force := true |}.

(** A machine with eight cores whose configuration file asks for another
    output directory and three workers. *)
Definition host : ConfigClass.Host :=
  {| ConfigClass.host_cpu_count := Some 8;
     ConfigClass.host_read_json := fun _ =>
       ConfigClass.JsonValue
         (ConfigClass.PyDict
            [ ("output_dir", ConfigClass.PyStr "from_file");
              ("workers", ConfigClass.PyInt 3) ]);
     ConfigClass.host_upper := fun s => s |}.

(** [geo-downloader GSE1 --config config.json]: every option at its
    default. *)
Definition args : ConfigClass.Args :=
  {| ConfigClass.arg_gse_ids := [ "GSE1" ];
     ConfigClass.arg_input := None;
     ConfigClass.arg_config := Some "config.json";
     ConfigClass.arg_pattern := "!Platform_series_id";
     ConfigClass.arg_output := "downloads";
     ConfigClass.arg_parallel := false;
     ConfigClass.arg_workers := None;
     ConfigClass.arg_delay := ConfigClass.float_0_4;
     ConfigClass.arg_chunk_size := 32768;
     ConfigClass.arg_max_retries := 3;
     ConfigClass.arg_retry_delay := ConfigClass.FFinite 2;
     ConfigClass.arg_force := false;
     ConfigClass.arg_no_verify := false;
     ConfigClass.arg_dry_run := false |}.

End Scenario2.

(** * Verification *)

(** ** Sanity checks of the embedding on concrete inputs *)

Example is_raw_tar : is_raw "GSE42861_RAW.tar" = true.
Proof. reflexivity. Qed.
Example is_raw_series : is_raw "GSE42861_series_matrix.txt.gz" = false.
Proof. reflexivity. Qed.
Example is_raw_idat_upper : is_raw "Sample_Grn.IDAT.gz" = true.
Proof. reflexivity. Qed.
Example strip_ex : PyStr.strip [" "%char; "."%char] " ..a.b. " = "a.b".
Proof. reflexivity. Qed.
Example safe_filename_ex : safe_filename "a:b/c?.txt. " = "a_b_c_.txt".
Proof. reflexivity. Qed.
Example safe_filename_empty : safe_filename " .. " = "unnamed_file".
Proof. reflexivity. Qed.
Example path_join_ex : path_join "downloads" "x.tar" = "downloads/x.tar".
Proof. reflexivity. Qed.
Example suppl_url_ex :
  suppl_url "GSE42861"
  = "https://ftp.ncbi.nlm.nih.gov/geo/series/GSE42nnn/GSE42861/suppl/".
Proof. reflexivity. Qed.
Example suppl_url_short :
  suppl_url "GSE1" = "https://ftp.ncbi.nlm.nih.gov/geo/series/GSE0nnn/GSE1/suppl/".
Proof. reflexivity. Qed.
Example last_segment_ex : last_segment "bytes 2-4/5" = "5".
Proof. reflexivity. Qed.
Example local_path_ex :
  local_path_of Scenario.cfg (Scenario.raw_tar (Some 5)) = "downloads/GSE1_RAW.tar".
Proof. reflexivity. Qed.

(** Scenario B of the specification: two failures, then success. *)
Example third_try_result :
  fst (_download_single_file Scenario.env_third_try Scenario.cfg "GSE1"
         (Scenario.raw_tar (Some 5)) Scenario.w_empty)
  = Ok (Some (completed_result "GSE1_RAW.tar" "downloads/GSE1_RAW.tar" (Some 5))).
Proof. vm_compute. reflexivity. Qed.

Example third_try_trace :
  attempts_and_waits
    (trace (snd (_download_single_file Scenario.env_third_try Scenario.cfg "GSE1"
                   (Scenario.raw_tar (Some 5)) Scenario.w_empty)))
  = retry_pattern
      (EvTransfer (rf_url (Scenario.raw_tar (Some 5))) "downloads/GSE1_RAW.tar" (Some 5))
      2 2.
Proof. vm_compute. reflexivity. Qed.

(** The resolver on the series GSE1: two raw files, each probed at five
    bytes; the parent link, the matrix and the file list are left out. *)
Example gse1_metadata :
  fst (get_gse_metadata Scenario.env_gse1 "GSE1" Scenario.w_empty)
  = Ok {| md_gse_id := "GSE1"; md_has_raw_data := true; md_descr := descr_default;
          md_raw_files := [ Scenario.raw_tar (Some 5); Scenario.signal_txt (Some 5) ];
          md_error := None |}.
Proof. vm_compute. reflexivity. Qed.

Example gse1_network_calls :
  network_calls (trace (snd (get_gse_metadata Scenario.env_gse1 "GSE1" Scenario.w_empty)))
  = [ EvDescribe "GSE1"; EvList (suppl_url "GSE1");
      EvHead Scenario.raw_tar_url; EvHead Scenario.signal_url ].
Proof. vm_compute. reflexivity. Qed.

(** The four dataset statuses. *)
Example dataset_completed :
  dr_status <$> (fun r => match r with Ok x => Some x | Raise _ => None end)
    (fst (download_gse_dataset Scenario.env_gse1_up Scenario.cfg "GSE1" Scenario.w_empty))
  = Some DsCompleted.
Proof. vm_compute. reflexivity. Qed.

Example dataset_completed_parallel :
  dr_status <$> (fun r => match r with Ok x => Some x | Raise _ => None end)
    (fst (download_gse_dataset Scenario.env_gse1_up Scenario.cfg_parallel "GSE1"
            Scenario.w_empty))
  = Some DsCompleted.
Proof. vm_compute. reflexivity. Qed.

Example dataset_failed_all_files :
  dr_status <$> (fun r => match r with Ok x => Some x | Raise _ => None end)
    (fst (download_gse_dataset
            (Scenario.with_get Scenario.env_gse1 (fun _ _ => NetError "timed out"))
            Scenario.cfg "GSE1" Scenario.w_empty))
  = Some DsFailed.
Proof. vm_compute. reflexivity. Qed.

Example dataset_no_raw_data :
  fst (download_gse_dataset Scenario.env_down Scenario.cfg "GSE7" Scenario.w_empty)
  = Ok {| dr_gse_id := "GSE7"; dr_status := DsNoRawData;
          dr_error := Some "No raw data files found"; dr_files := [];
          dr_metadata := None |}.
Proof. vm_compute. reflexivity. Qed.

(** A catalog out of reach costs the descriptive fields only: the warning
    is printed, the directory is listed all the same and the files are
    fetched. *)
Example dataset_catalog_error :
  let run := download_gse_dataset Scenario.env_catalog_error Scenario.cfg "GSE1"
               Scenario.w_empty in
  (dr_status <$> (fun r => match r with Ok x => Some x | Raise _ => None end) (fst run)
     = Some DsCompleted) /\
  (dr_error <$> (fun r => match r with Ok x => Some x | Raise _ => None end) (fst run)
     = Some None) /\
  LWarnSummary "GSE1" "HTTP Error 500: Internal Server Error" ∈ console (snd run) /\
  EvList (suppl_url "GSE1") ∈ trace (snd run).
Proof.
  vm_compute. repeat split; apply list_elem_of_In; cbn; tauto.
Qed.

(** Scenario A of the specification: both files of GSE1 are in place with
    the sizes expected, so the dataset completes without any transfer. *)
Example files_in_place_no_transfer :
  let w := init_world {[ "downloads/GSE1_RAW.tar" := Scenario.body5;
                         "downloads/GSE1_signal.txt" := Scenario.body5 ]} SfAbsent in
  let run := download_gse_dataset Scenario.env_gse1 Scenario.cfg "GSE1" w in
  dr_status <$> (fun r => match r with Ok x => Some x | Raise _ => None end) (fst run)
    = Some DsCompleted /\
  attempts_and_waits (trace (snd run)) = [] /\
  filter (fun e => is_get e = true) (trace (snd run)) = [].
Proof. vm_compute. repeat split. Qed.

(** An unreadable status file is dropped with a warning. *)
Example load_corrupt_status :
  let w := init_world ∅ (SfCorrupt "Expecting value: line 1 column 1 (char 0)") in
  fst (load_download_status w) = Ok tt /\
  download_status (snd (load_download_status w)) = StatusDict ∅ /\
  console (snd (load_download_status w))
    = [ LWarnLoad "Expecting value: line 1 column 1 (char 0)" ].
Proof. vm_compute. repeat split. Qed.

(** A status file that holds a JSON list is loaded without a warning; the
    first status update then raises. *)
Example load_list_status :
  let w := init_world ∅ (SfJson (StatusOther (JsonList []))) in
  fst (load_download_status w) = Ok tt /\
  download_status (snd (load_download_status w)) = StatusOther (JsonList []) /\
  console (snd (load_download_status w)) = [ LInfoLoaded 0 ].
Proof. vm_compute. repeat split. Qed.

(** A status file that holds a number is given up with the warning of
    [len]. *)
Example load_number_status :
  let w := init_world ∅ (SfJson (StatusOther (JsonScalar "int"))) in
  fst (load_download_status w) = Ok tt /\
  download_status (snd (load_download_status w)) = StatusDict ∅ /\
  console (snd (load_download_status w))
    = [ LWarnLoad "object of type 'int' has no len()" ].
Proof. vm_compute. repeat split. Qed.

(** ** Strings *)

Module PyStrFacts.
Import PyStr.

Lemma append_cons c s t : String c s +:+ t = String c (s +:+ t).
Proof. reflexivity. Qed.

Lemma append_nil_l t : EmptyString +:+ t = t.
Proof. reflexivity. Qed.

Lemma append_assoc a b c : (a +:+ b) +:+ c = a +:+ b +:+ c.
Proof.
  induction a as [|x a IH]; [reflexivity|].
  rewrite !append_cons, IH. reflexivity.
Qed.

Lemma startswith_spec p s : startswith p s = true <-> exists t, s = p +:+ t.
Proof.
  revert s. induction p as [|a p IH]; intros s; simpl.
  - split; [intros _; exists s; reflexivity | reflexivity].
  - destruct s as [|b s].
    + split; [discriminate | intros [t Ht]; discriminate].
    + destruct (Ascii.eqb_spec a b) as [->|Hne].
      * rewrite IH. split; intros [t Ht]; exists t.
        -- rewrite append_cons. congruence.
        -- rewrite append_cons in Ht. congruence.
      * split; [discriminate|]. intros [t Ht]. rewrite append_cons in Ht.
        congruence.
Qed.

Lemma contains_spec k s : contains k s = true <-> exists a b, s = a +:+ k +:+ b.
Proof.
  induction s as [|c s IH].
  - simpl. rewrite orb_false_r, startswith_spec. split.
    + intros [t Ht]. exists EmptyString, t. exact Ht.
    + intros (a & b & H). destruct a as [|x a].
      * exists b. exact H.
      * rewrite append_cons in H. discriminate.
  - cbn [contains]. rewrite orb_true_iff, startswith_spec, IH. split.
    + intros [[t Ht] | (a & b & H)].
      * exists EmptyString, t. exact Ht.
      * exists (String c a), b. rewrite append_cons. congruence.
    + intros (a & b & H). destruct a as [|x a].
      * left. exists b. exact H.
      * right. exists a, b. rewrite append_cons in H. congruence.
Qed.

Lemma endswith_spec k s : endswith k s = true <-> exists a, s = a +:+ k.
Proof.
  induction s as [|c s IH].
  - simpl. rewrite orb_false_r. split.
    + intros H%String.eqb_eq. exists EmptyString. subst. reflexivity.
    + intros [a H]. destruct a as [|x a].
      * apply String.eqb_eq. rewrite append_nil_l in H. congruence.
      * rewrite append_cons in H. discriminate.
  - cbn [endswith]. rewrite orb_true_iff, IH. split.
    + intros [H%String.eqb_eq | [a H]].
      * exists EmptyString. subst. reflexivity.
      * exists (String c a). rewrite append_cons. congruence.
    + intros [a H]. destruct a as [|x a].
      * left. apply String.eqb_eq. rewrite append_nil_l in H. congruence.
      * right. exists a. rewrite append_cons in H. congruence.
Qed.

Lemma lower_char_idem c : lower_char (lower_char c) = lower_char c.
Proof.
  destruct c as [[] [] [] [] [] [] [] []]; reflexivity.
Qed.

Lemma lower_idem s : lower (lower s) = lower s.
Proof.
  induction s as [|c s IH]; simpl; [reflexivity|].
  rewrite lower_char_idem, IH. reflexivity.
Qed.

End PyStrFacts.

(** ** Raw-file classification *)

(** [k] occurs in [s]; [s] ends in [k]. *)
Definition occurs_in (k s : string) : Prop := exists a b, s = a +:+ k +:+ b.
Definition ends_in (k s : string) : Prop := exists a, s = a +:+ k.

Section Classification.
Import PyStr PyStrFacts.

Lemma existsb_keywords (ks : list string) (s : string) :
  existsb (fun keyword => contains keyword s) ks = true <->
  exists keyword, keyword ∈ ks /\ occurs_in keyword s.
Proof.
  rewrite existsb_exists. split.
  - intros (k & Hin & Hk). exists k. split.
    + apply list_elem_of_In. exact Hin.
    + apply contains_spec. exact Hk.
  - intros (k & Hin & Hk). exists k. split.
    + apply list_elem_of_In. exact Hin.
    + apply contains_spec. exact Hk.
Qed.

Lemma is_raw_spec (filename : string) :
  is_raw filename = true <->
  (exists keyword, keyword ∈ raw_keywords /\ occurs_in keyword (lower filename))
  \/ occurs_in "_raw." (lower filename)
  \/ ends_in "_raw.tar" (lower filename).
Proof.
  unfold is_raw. cbv zeta.
  rewrite !orb_true_iff, existsb_keywords, contains_spec, endswith_spec.
  unfold occurs_in, ends_in. tauto.
Qed.

(** The two extra patterns add nothing: each already contains [raw]. *)
Lemma raw_pattern_subsumed (s : string) :
  occurs_in "_raw." s \/ ends_in "_raw.tar" s -> occurs_in "raw" s.
Proof.
  intros [(a & b & ->) | (a & ->)].
  - exists (a +:+ "_"), ("." +:+ b).
    rewrite !append_assoc. reflexivity.
  - exists (a +:+ "_"), ".tar".
    rewrite !append_assoc. reflexivity.
Qed.

Lemma file_names_spec (file_links : list (string * string)) (name : string) :
  name ∈ file_names file_links <->
  name ∈ map snd file_links /\ name <> "Parent Directory" /\ name <> "filelist.txt".
Proof.
  unfold file_names. rewrite list_elem_of_filter.
  unfold listed_candidate. cbn [existsb]. rewrite orb_false_r, negb_true_iff, orb_false_iff.
  rewrite !String.eqb_neq. tauto.
Qed.

(** The probing loop appends one entry per raw name, in order, and never
    raises. *)
Lemma probe_raw_files_names env suppl names : forall acc w,
  exists raw_files w',
    probe_raw_files env suppl names acc w = (Ok raw_files, w') /\
    map rf_filename raw_files =
      map rf_filename acc ++ filter (fun n => is_raw n = true) names.
Proof.
  induction names as [|n names IH]; intros acc w.
  - exists acc, w. split; [reflexivity|]. cbn. rewrite app_nil_r. reflexivity.
  - cbn [probe_raw_files]. rewrite filter_cons.
    destruct (is_raw n) eqn:Hraw.
    + unfold bind at 1.
      assert (Hsize : exists sz w1, get_file_size env (suppl +:+ n) w = (Ok sz, w1)).
      { unfold get_file_size, bind, try_except, emit, lift, ret, raise, py_int.
        destruct (env_head env (suppl +:+ n)) as [[cl|]|e]; cbn;
          try destruct (PyStr.truthy cl); try destruct (env_int env cl); eauto. }
      destruct Hsize as (sz & w1 & ->).
      destruct (IH (acc ++ [ {| rf_filename := n; rf_url := suppl +:+ n;
                                rf_size_bytes := sz;
                                rf_size_human := size_human_of sz |} ]) w1)
        as (rs & w' & Hrun & Hnames).
      exists rs, w'. split; [exact Hrun|].
      rewrite Hnames, map_app. cbn [map rf_filename].
      destruct (decide (true = true)); [|congruence].
      rewrite <- app_assoc. reflexivity.
    + destruct (IH acc w) as (rs & w' & Hrun & Hnames).
      exists rs, w'. split; [exact Hrun|].
      rewrite Hnames. destruct (decide (false = true)); [discriminate|reflexivity].
Qed.

Lemma check_raw_files_names env gse_id w :
  exists raw_files w',
    _check_raw_files env gse_id w
      = (Ok (raw_files, (0 <? length raw_files)%nat), w') /\
    map rf_filename raw_files =
      match env_listing env (suppl_url gse_id) with
      | Ok file_links => filter (fun n => is_raw n = true) (file_names file_links)
      | Raise _ => []
      end.
Proof.
  unfold _check_raw_files. unfold bind at 1. unfold try_except.
  unfold bind at 1. cbn [emit]. unfold bind at 1. unfold lift at 1.
  destruct (env_listing env (suppl_url gse_id)) as [links|e].
  - match goal with |- context [probe_raw_files ?e ?s ?n ?a ?w0] =>
      destruct (probe_raw_files_names e s n a w0) as (rs & w' & Hrun & Hnames)
    end.
    rewrite Hrun. exists rs, w'. split; [reflexivity|exact Hnames].
  - eexists [], _. split; reflexivity.
Qed.

End Classification.

(** C5, as the specification words it, fails: a name can contain [cel]
    without containing [.cel]. *)
Lemma raw_classification_undotted_keyword_fails :
  ("cel" ∈ spec_keywords /\
   occurs_in "cel" (PyStr.lower "Excel_summary.txt") /\
   is_raw "Excel_summary.txt" = false) /\
  ~ (forall filename keyword,
       keyword ∈ spec_keywords ->
       occurs_in keyword (PyStr.lower filename) ->
       is_raw filename = true).
Proof.
  assert (H : "cel" ∈ spec_keywords /\
              occurs_in "cel" (PyStr.lower "Excel_summary.txt") /\
              is_raw "Excel_summary.txt" = false).
  { split; [|split].
    - unfold spec_keywords. set_solver.
    - exists "ex", "_summary.txt". reflexivity.
    - reflexivity. }
  split; [exact H|].
  intros Hall. destruct H as (Hk & Hocc & Hraw).
  rewrite (Hall _ _ Hk Hocc) in Hraw. discriminate.
Qed.

(** C5 (amended).  Classification is a function of the lower-cased name
    alone.  It answers true exactly for the names whose lower-cased form
    contains one of [raw], [.idat], [.cel], [.fastq], [.fq], [.sra], [.bam],
    [.cram], [signal], [intensity], [reads], [sequencing] (the extension
    keywords carry their dot), or contains [_raw.], or ends in [_raw.tar];
    for every other name it answers false.  The links named
    [Parent Directory] and [filelist.txt] are dropped before classification,
    and the resolver's raw files are the remaining names that classify as
    raw, in listing order. *)
Theorem raw_classification :
  (forall filename : string,
     is_raw filename = true <->
     (exists keyword, keyword ∈ raw_keywords /\ occurs_in keyword (PyStr.lower filename))
     \/ occurs_in "_raw." (PyStr.lower filename)
     \/ ends_in "_raw.tar" (PyStr.lower filename))
  /\ (forall filename : string,
        is_raw filename = false <->
        (forall keyword, keyword ∈ raw_keywords -> ~ occurs_in keyword (PyStr.lower filename))
        /\ ~ occurs_in "_raw." (PyStr.lower filename)
        /\ ~ ends_in "_raw.tar" (PyStr.lower filename))
  /\ (forall filename : string, is_raw (PyStr.lower filename) = is_raw filename)
  /\ (forall (file_links : list (string * string)) (name : string),
        name ∈ file_names file_links <->
        name ∈ map snd file_links /\ name <> "Parent Directory" /\ name <> "filelist.txt")
  /\ (forall env gse_id w,
        exists raw_files w',
          _check_raw_files env gse_id w
            = (Ok (raw_files, (0 <? length raw_files)%nat), w') /\
          map rf_filename raw_files =
            match env_listing env (suppl_url gse_id) with
            | Ok file_links =>
                filter (fun n => is_raw n = true) (file_names file_links)
            | Raise _ => []
            end).
Proof.
  split; [exact is_raw_spec|].
  split.
  { intros filename. rewrite <- not_true_iff_false, is_raw_spec. split.
    - intros H. repeat split.
      + intros k Hk Hocc. apply H. left. eauto.
      + intros Hocc. apply H. right. left. exact Hocc.
      + intros Hend. apply H. right. right. exact Hend.
    - intros (H1 & H2 & H3) [(k & Hk & Hocc) | [Hocc | Hend]].
      + exact (H1 k Hk Hocc).
      + exact (H2 Hocc).
      + exact (H3 Hend). }
  split.
  { intros filename. unfold is_raw. cbv zeta.
    rewrite PyStrFacts.lower_idem. reflexivity. }
  split; [exact file_names_spec|].
  exact check_raw_files_names.
Qed.

(** ** World lemmas for the primitives *)

Section Primitives.

Lemma file_size_lookup w path content :
  fs w !! path = Some content -> file_size w path = Some (Z.of_nat (length content)).
Proof. intros H. unfold file_size. rewrite H. reflexivity. Qed.

Lemma file_size_None w path : fs w !! path = None -> file_size w path = None.
Proof. intros H. unfold file_size. rewrite H. reflexivity. Qed.

Lemma os_path_exists_true w path content :
  fs w !! path = Some content -> os_path_exists path w = (Ok true, w).
Proof.
  intros H. unfold os_path_exists. rewrite H.
  rewrite bool_decide_eq_true_2; [reflexivity | eauto].
Qed.

Lemma os_path_exists_false w path :
  fs w !! path = None -> os_path_exists path w = (Ok false, w).
Proof.
  intros H. unfold os_path_exists. rewrite H.
  rewrite bool_decide_eq_false_2; [reflexivity | intros [? ?]; discriminate].
Qed.

Lemma verify_file_integrity_run path expected w :
  verify_file_integrity path expected w =
    (Ok match file_size w path with
        | Some n => py_eq n expected
        | None => false
        end, w).
Proof.
  unfold verify_file_integrity, try_except, bind.
  destruct (fs w !! path) as [content|] eqn:Hfs.
  - rewrite (os_path_exists_true _ _ _ Hfs). cbn.
    unfold os_path_getsize. rewrite (file_size_lookup _ _ _ Hfs). reflexivity.
  - rewrite (os_path_exists_false _ _ Hfs). cbn.
    rewrite (file_size_None _ _ Hfs). reflexivity.
Qed.


Lemma already_complete_run path expected w :
  already_complete path expected w =
    (match fs w !! path with
     | None => Ok false
     | Some content =>
         match expected with
         | None => Raise "'>' not supported between instances of 'NoneType' and 'int'"
         | Some e => Ok ((0 <? e) && (Z.of_nat (length content) =? e))
         end
     end, w).
Proof.
  unfold already_complete, bind.
  destruct (fs w !! path) as [content|] eqn:Hfs.
  - rewrite (os_path_exists_true _ _ _ Hfs).
    destruct expected as [e|]; cbn; [|reflexivity].
    destruct (0 <? e); [|reflexivity].
    rewrite verify_file_integrity_run, (file_size_lookup _ _ _ Hfs). reflexivity.
  - rewrite (os_path_exists_false _ _ Hfs). reflexivity.
Qed.

End Primitives.

(** ** The chunk loop *)

Section ChunkLoop.

Lemma take_drop_length {A} (n : nat) (l : list A) :
  take n l ++ drop (length (take n l)) l = l.
Proof.
  rewrite length_take. destruct (Nat.le_ge_cases n (length l)).
  - rewrite Nat.min_l by lia. apply take_drop.
  - rewrite Nat.min_r by lia. rewrite take_ge, drop_all by lia. apply app_nil_r.
Qed.

(** With a positive chunk size and fuel for every byte, the loop writes the
    whole body and ends as the stream does. *)
Lemma read_loop_all chunk err : 0 < chunk ->
  forall fuel rest f, (length rest < fuel)%nat ->
    read_loop fuel chunk rest err f =
      (match err with Some e => Raise e | None => Ok tt end, f ++ rest).
Proof.
  intros Hchunk. induction fuel as [|fuel IH]; intros rest f Hlen; [lia|].
  cbn [read_loop]. destruct rest as [|x rest].
  - cbn. rewrite app_nil_r. destruct err; reflexivity.
  - unfold response_read.
    destruct (Z.to_nat chunk) as [|k] eqn:Hk; [lia|].
    cbn [take]. rewrite IH.
    + rewrite <- app_assoc. f_equal. f_equal.
      change (x :: take k rest) with (take (S k) (x :: rest)).
      apply take_drop_length.
    + cbn [length drop]. rewrite length_drop. cbn [length] in Hlen. lia.
Qed.

End ChunkLoop.

(** ** File Transfer Unit *)

Section TransferUnit.

Ltac run_monad :=
  unfold bind, ret, raise, lift, try_except, try_result, emit, print, set_fs,
    get_world in *; cbn [fst snd fs trace console status_disk download_status] in *.



End TransferUnit.

(** ** Retry Wrapper *)

Section RetryWrapper.

Ltac run_monad :=
  unfold bind, ret, raise, lift, try_except, try_result, emit, print, set_fs,
    get_world in *; cbn [fst snd fs trace console status_disk download_status] in *.

Variables (env : Env) (cfg : Config).
Variables (filename file_url local_path : string) (expected_size : option Z).

Let attempt := download_attempt env cfg filename file_url local_path expected_size.
Let transfer := EvTransfer file_url local_path expected_size.




(** A successful attempt reports the size of the file it leaves on disk. *)
Lemma download_attempt_ok w r w' :
  attempt w = (Ok r, w') ->
  exists size,
    r = completed_result filename local_path (Some size) /\
    file_size w' local_path = Some size.
Proof.
  subst attempt. unfold download_attempt. unfold bind at 1.
  destruct (_download_with_progress env cfg file_url local_path expected_size w)
    as [[[]|e] w1]; [|discriminate].
  unfold bind at 1. unfold lift.
  destruct expected_size as [n|]; cbn [py_gt]; [|discriminate].
  unfold bind at 1.
  assert (Hlast : forall w2,
    (print (LSuccessDownloaded filename) >>>
     (let* size := os_path_getsize local_path in
      ret (completed_result filename local_path (Some size)))) w2 = (Ok r, w') ->
    exists size, r = completed_result filename local_path (Some size) /\
                 file_size w' local_path = Some size).
  { intros w2. run_monad. unfold os_path_getsize, file_size. cbn [fs].
    destruct (fs w2 !! local_path) as [content|] eqn:Hc; cbn; [|discriminate].
    intros [= <- <-]. eexists. split; [reflexivity|]. cbn [fs]. rewrite Hc.
    reflexivity. }
  destruct ((0 <? n) && verify_integrity cfg).
  - unfold bind at 1. rewrite verify_file_integrity_run.
    destruct (match file_size w1 local_path with
              | Some n0 => py_eq n0 (Some n) | None => false end); cbn [negb].
    + unfold ret at 1. apply Hlast.
    + unfold raise at 1. discriminate.
  - unfold ret at 1. apply Hlast.
Qed.





Lemma wait_before_retry_run a e w :
  Qle_bool 0 (retry_delay cfg) = true ->
  exists w2,
    wait_before_retry cfg a e w = (Ok tt, w2) /\
    trace w2 = trace w ++ [EvSleep (retry_delay cfg)] /\
    fs w2 = fs w /\ status_disk w2 = status_disk w /\
    download_status w2 = download_status w.
Proof.
  intros Hd. unfold wait_before_retry, time_sleep. rewrite Hd. run_monad.
  eexists. split; [reflexivity|]. cbn. auto.
Qed.



End RetryWrapper.

(** ** The retry bound *)

Section RetryBound.

Lemma py_range_attempts_from (i m : nat) :
  map Z.of_nat (seq i m) = attempts_from (Z.of_nat i) m.
Proof.
  revert i. induction m as [|m IH]; intros i; [reflexivity|].
  cbn [seq map attempts_from]. rewrite IH. f_equal. f_equal. lia.
Qed.





End RetryBound.




Section KnownSize.

Variables (env : Env) (cfg : Config) (filename file_url local_path : string).
Variable expected : Z.




End KnownSize.






(** ** The existing-file short-circuit *)

(** C3, as stated, fails for an expected size of zero: the probe answered
    [Content-Length: 0], an empty file is in place, and the wrapper still
    goes to the network. *)
Lemma short_circuit_zero_size_fails :
  let file_info := Scenario.raw_tar (Some 0) in
  let w := Scenario.w_with [] in
  let run := _download_single_file Scenario.env_empty_body Scenario.cfg "GSE1" file_info w in
  rf_size_bytes file_info = Some 0 /\
  file_size w (local_path_of Scenario.cfg file_info) = Some 0 /\
  network_calls (trace (snd run))
    = [ EvGet {| req_url := Scenario.raw_tar_url; req_range := None |} ] /\
  length (filter (fun ev => is_transfer ev = true) (trace (snd run))) = 1%nat /\
  ~ (forall env cfg gse_id file_info w content expected,
       rf_size_bytes file_info = Some expected ->
       fs w !! local_path_of cfg file_info = Some content ->
       Z.of_nat (length content) = expected ->
       network_calls (trace (snd (_download_single_file env cfg gse_id file_info w)))
         = network_calls (trace w)).
Proof.
  cbv zeta. split; [reflexivity|]. split; [reflexivity|].
  split; [vm_compute; reflexivity|]. split; [vm_compute; reflexivity|].
  intros Hall.
  specialize (Hall Scenario.env_empty_body Scenario.cfg "GSE1" (Scenario.raw_tar (Some 0))
                (Scenario.w_with []) [] 0 eq_refl eq_refl eq_refl).
  vm_compute in Hall. discriminate Hall.
Qed.

(** C3 (amended).  For a RemoteFile whose expected size is known and
    positive, if a file is in place at the derived safe local path and its
    size equals the expected size, the wrapper returns [completed] with that
    size at once: no event is recorded (no network call, no transfer attempt,
    no wait) and no file changes. *)
Theorem short_circuit_existing_file
    (env : Env) (cfg : Config) (gse_id : string) (file_info : RemoteFile)
    (w : World) (content : list Byte.byte) (expected : Z) :
  rf_size_bytes file_info = Some expected ->
  0 < expected ->
  fs w !! local_path_of cfg file_info = Some content ->
  Z.of_nat (length content) = expected ->
  exists w',
    _download_single_file env cfg gse_id file_info w
      = (Ok (Some {| fr_filename := rf_filename file_info;
                     fr_local_path := Some (local_path_of cfg file_info);
                     fr_status := FileCompleted; fr_error := None;
                     fr_size_bytes := Some expected |}), w') /\
    trace w' = trace w /\
    network_calls (trace w') = network_calls (trace w) /\
    fs w' = fs w.
Proof.
  intros Hsize Hpos Hfile Hlen.
  unfold _download_single_file. unfold bind at 1.
  rewrite already_complete_run, Hfile, Hsize.
  apply Z.ltb_lt in Hpos. rewrite Hpos, Hlen, Z.eqb_refl. cbn [andb].
  unfold bind, print, ret. eexists. split; [reflexivity|]. cbn. auto.
Qed.

(** Five bytes expected, five bytes in place, every remote end down. *)
Lemma short_circuit_existing_file_witness :
  exists w',
    _download_single_file Scenario.env_down Scenario.cfg "GSE1"
      (Scenario.raw_tar (Some 5)) (Scenario.w_with Scenario.body5)
    = (Ok (Some (completed_result "GSE1_RAW.tar" "downloads/GSE1_RAW.tar" (Some 5))), w') /\
    trace w' = [].
Proof.
  destruct (short_circuit_existing_file Scenario.env_down Scenario.cfg "GSE1"
              (Scenario.raw_tar (Some 5)) (Scenario.w_with Scenario.body5)
              Scenario.body5 5 eq_refl eq_refl eq_refl eq_refl)
    as (w' & Hrun & Htrace & _).
  exists w'. split; [exact Hrun | exact Htrace].
Defined.

(** ** Resume or fresh start *)

Section Resume.

Ltac run_monad :=
  unfold bind, ret, raise, lift, try_except, try_result, emit, print, set_fs,
    get_world in *; cbn [fst snd fs trace console status_disk download_status] in *.

Lemma count_gets_transfer (t : list Event) u p e :
  filter (fun ev => is_get ev = true) (t ++ [EvTransfer u p e])
  = filter (fun ev => is_get ev = true) t.
Proof. rewrite filter_app. cbn. apply app_nil_r. Qed.

(** The call, once the resume decision is known: [resume_pos] and the mode
    fix the request and the base content; the response does the rest. *)
Lemma download_with_progress_run env cfg url path expected w
    (old : option (list Byte.byte)) (resume_pos : Z) (append : bool) :
  fs w !! path = old ->
  (forall w1, fs w1 = fs w ->
     exists w2, resume_decision path (Some expected) w1 = (Ok (resume_pos, append), w2) /\
                fs w2 = fs w1 /\ trace w2 = trace w1) ->
  let req := build_request url resume_pos in
  let k := length (filter (fun ev => is_get ev = true) (trace w)) in
  let base := if append then default [] old else [] in
  exists r w',
    _download_with_progress env cfg url path (Some expected) w = (r, w') /\
    trace w' = trace w ++ [EvTransfer url path (Some expected); EvGet req] /\
    match env_get env k req with
    | NetError msg => r = Raise msg /\ fs w' = fs w
    | NetResponse resp =>
        match total_size_of env resume_pos (Some expected) resp with
        | Raise e => r = Raise e /\ fs w' = fs w
        | Ok _ =>
            (r, <[path := snd (read_loop (S (length (resp_body resp))) (chunk_size cfg)
                                 (resp_body resp) (resp_read_error resp) base)]> (fs w))
            = (fst (read_loop (S (length (resp_body resp))) (chunk_size cfg)
                      (resp_body resp) (resp_read_error resp) base), fs w')
        end
    end.
Proof.
  intros Hold Hdec req k base.
  unfold _download_with_progress. unfold bind at 1. unfold emit at 1.
  unfold bind at 1.
  match goal with |- context [resume_decision _ _ ?w1] =>
    destruct (Hdec w1 eq_refl) as (w2 & -> & Hfs2 & Ht2)
  end.
  cbn [fs trace] in Hfs2, Ht2.
  unfold bind at 1. unfold urlopen. rewrite Ht2, count_gets_transfer.
  fold k. fold req. unfold emit. cbn [trace].
  destruct (env_get env k req) as [msg|resp].
  - eexists _, _. split; [reflexivity|]. cbn [trace fs].
    rewrite Ht2, <- app_assoc. auto.
  - unfold bind at 1. unfold lift.
    destruct (total_size_of env resume_pos (Some expected) resp) as [ts|e].
    + unfold write_stream. cbn [fs]. rewrite Hfs2, Hold. fold base.
      destruct (read_loop (S (length (resp_body resp))) (chunk_size cfg)
                  (resp_body resp) (resp_read_error resp) base) as [r content].
      unfold set_fs. cbn [fs trace]. eexists _, _. split; [reflexivity|].
      cbn [trace fs fst snd]. rewrite Ht2, <- app_assoc. auto.
    + eexists _, _. split; [reflexivity|]. cbn [trace fs].
      rewrite Ht2, <- app_assoc. auto.
Qed.

Lemma resume_decision_resume path expected w old :
  fs w !! path = Some old -> Z.of_nat (length old) < expected ->
  exists w2, resume_decision path (Some expected) w
               = (Ok (Z.of_nat (length old), true), w2) /\
             fs w2 = fs w /\ trace w2 = trace w.
Proof.
  intros Hold Hlt. unfold resume_decision. unfold bind at 1.
  rewrite (os_path_exists_true _ _ _ Hold). unfold bind at 1.
  unfold os_path_getsize. rewrite (file_size_lookup _ _ _ Hold).
  unfold bind at 1. unfold lift, py_lt.
  apply Z.ltb_lt in Hlt. rewrite Hlt. run_monad.
  eexists. split; [reflexivity|]. cbn. auto.
Qed.

Lemma resume_decision_fresh path expected w :
  (fs w !! path = None \/
   exists old, fs w !! path = Some old /\ expected <= Z.of_nat (length old)) ->
  resume_decision path (Some expected) w = (Ok (0, false), w).
Proof.
  intros [Hnone | (old & Hold & Hge)]; unfold resume_decision; unfold bind at 1.
  - rewrite (os_path_exists_false _ _ Hnone). reflexivity.
  - rewrite (os_path_exists_true _ _ _ Hold). unfold bind at 1.
    unfold os_path_getsize. rewrite (file_size_lookup _ _ _ Hold).
    unfold bind at 1. unfold lift, py_lt.
    apply Z.ltb_ge in Hge. rewrite Hge. reflexivity.
Qed.

End Resume.

(** C4, as stated, fails in two places.  An existing file of size [0 < E] is
    opened for appending but the request carries no range; and a resumed
    transfer that runs to its end leaves [E] bytes only if the server answers
    the range it was asked for: here it sends the whole file after the two
    bytes in place, and the call returns normally with seven bytes on disk. *)
Lemma resume_claim_fails :
  let path := "downloads/GSE1_RAW.tar" in
  let url := Scenario.raw_tar_url in
  let w0 := Scenario.w_with [] in
  let run0 := _download_with_progress Scenario.env_up Scenario.cfg url path (Some 5) w0 in
  let w2 := Scenario.w_with [ Byte.x01; Byte.x02 ] in
  let run2 := _download_with_progress Scenario.env_up Scenario.cfg url path (Some 5) w2 in
  (file_size w0 path = Some 0 /\
   filter (fun ev => is_get ev = true) (trace (snd run0))
     = [ EvGet {| req_url := url; req_range := None |} ]) /\
  (file_size w2 path = Some 2 /\
   filter (fun ev => is_get ev = true) (trace (snd run2))
     = [ EvGet {| req_url := url; req_range := Some 2 |} ] /\
   fst run2 = Ok tt /\
   file_size (snd run2) path = Some 7) /\
  ~ (forall env cfg url path expected w old,
       fs w !! path = Some old ->
       Z.of_nat (length old) < expected ->
       EvGet {| req_url := url; req_range := Some (Z.of_nat (length old)) |}
         ∈ trace (snd (_download_with_progress env cfg url path (Some expected) w))) /\
  ~ (forall env cfg url path expected w old w',
       fs w !! path = Some old ->
       Z.of_nat (length old) < expected ->
       _download_with_progress env cfg url path (Some expected) w = (Ok tt, w') ->
       file_size w' path = Some expected).
Proof.
  cbv zeta. split; [vm_compute; repeat split|]. split; [vm_compute; repeat split|].
  split.
  - intros Hall.
    specialize (Hall Scenario.env_up Scenario.cfg Scenario.raw_tar_url
                  "downloads/GSE1_RAW.tar" 5 (Scenario.w_with []) [] eq_refl eq_refl).
    vm_compute in Hall.
    apply list_elem_of_In in Hall. cbn in Hall.
    destruct Hall as [H|[H|[]]]; discriminate H.
  - intros Hall.
    assert (Hrun : exists w',
      _download_with_progress Scenario.env_up Scenario.cfg Scenario.raw_tar_url
        "downloads/GSE1_RAW.tar" (Some 5) (Scenario.w_with [ Byte.x01; Byte.x02 ])
      = (Ok tt, w') /\ file_size w' "downloads/GSE1_RAW.tar" = Some 7).
    { eexists. split; vm_compute; reflexivity. }
    destruct Hrun as (w' & Hrun & Hsize).
    specialize (Hall Scenario.env_up Scenario.cfg Scenario.raw_tar_url
                  "downloads/GSE1_RAW.tar" 5 (Scenario.w_with [ Byte.x01; Byte.x02 ])
                  [ Byte.x01; Byte.x02 ] w' eq_refl eq_refl Hrun).
    rewrite Hall in Hsize. discriminate Hsize.
Qed.

(** C4 (amended).  With a known expected size [E] and a valid chunk size:
    when a local file of size [S < E] is in place, the transfer opens it for
    appending (the [S] bytes stay in front of what is received) and asks for
    the range from offset [S] when [S > 0], and sends a plain request when
    [S = 0]; in every other case (no file, or [S >= E]) it sends a plain
    request and the file is truncated to what is received.  A resumed
    transfer that runs to its end leaves exactly [E] bytes when the response
    body is the remote file of [E] bytes from offset [S] on. *)
Theorem transfer_resume_or_fresh
    (env : Env) (cfg : Config) (url path : string) (expected : Z) (w : World) :
  1 <= chunk_size cfg ->
  let k := length (filter (fun ev => is_get ev = true) (trace w)) in
  (forall old : list Byte.byte,
     fs w !! path = Some old ->
     Z.of_nat (length old) < expected ->
     let S := Z.of_nat (length old) in
     let req := {| req_url := url; req_range := if 0 <? S then Some S else None |} in
     exists r w',
       _download_with_progress env cfg url path (Some expected) w = (r, w') /\
       trace w' = trace w ++ [EvTransfer url path (Some expected); EvGet req] /\
       (forall resp,
          env_get env k req = NetResponse resp ->
          is_ok (total_size_of env S (Some expected) resp) = true ->
          fs w' = <[path := old ++ resp_body resp]> (fs w) /\
          r = match resp_read_error resp with Some e => Raise e | None => Ok tt end) /\
       (forall resp remote,
          env_get env k req = NetResponse resp ->
          is_ok (total_size_of env S (Some expected) resp) = true ->
          resp_read_error resp = None ->
          resp_body resp = drop (length old) remote ->
          Z.of_nat (length remote) = expected ->
          r = Ok tt /\ file_size w' path = Some expected))
  /\
  ((fs w !! path = None \/
    exists old, fs w !! path = Some old /\ expected <= Z.of_nat (length old)) ->
   let req := {| req_url := url; req_range := None |} in
   exists r w',
     _download_with_progress env cfg url path (Some expected) w = (r, w') /\
     trace w' = trace w ++ [EvTransfer url path (Some expected); EvGet req] /\
     (forall resp,
        env_get env k req = NetResponse resp ->
        is_ok (total_size_of env 0 (Some expected) resp) = true ->
        fs w' = <[path := resp_body resp]> (fs w) /\
        r = match resp_read_error resp with Some e => Raise e | None => Ok tt end)).
Proof.
  intros Hchunk k. split.
  - intros old Hold Hlt S req.
    destruct (download_with_progress_run env cfg url path expected w (Some old) S true Hold)
      as (r & w' & Hrun & Htrace & Hres).
    { intros w1 Hfs. rewrite <- Hfs in Hold.
      destruct (resume_decision_resume path expected w1 old Hold Hlt) as (w2 & ? & ? & ?).
      exists w2. auto. }
    change (build_request url S) with req in Htrace, Hres. fold k in Hres.
    cbn [default] in Hres.
    assert (Hbody : forall resp,
      env_get env k req = NetResponse resp ->
      is_ok (total_size_of env S (Some expected) resp) = true ->
      fs w' = <[path := old ++ resp_body resp]> (fs w) /\
      r = match resp_read_error resp with Some e => Raise e | None => Ok tt end).
    { intros resp Hget Hts. rewrite Hget in Hres.
      destruct (total_size_of env S (Some expected) resp); [|discriminate].
      rewrite read_loop_all in Hres by lia. cbn [fst snd] in Hres.
      injection Hres as -> <-. auto. }
    exists r, w'. split; [exact Hrun|]. split; [exact Htrace|].
    split; [exact Hbody|].
    intros resp remote Hget Hts Herr Hb Hlen.
    destruct (Hbody resp Hget Hts) as (Hfs & Hr). rewrite Herr in Hr.
    split; [exact Hr|].
    unfold file_size. rewrite Hfs, lookup_insert_eq. cbn.
    rewrite length_app, Hb, length_drop. f_equal. lia.
  - intros Hfresh req.
    destruct (download_with_progress_run env cfg url path expected w
                (fs w !! path) 0 false eq_refl)
      as (r & w' & Hrun & Htrace & Hres).
    { intros w1 Hfs. exists w1. rewrite <- Hfs in Hfresh.
      rewrite (resume_decision_fresh path expected w1 Hfresh). auto. }
    change (build_request url 0) with req in Htrace, Hres. fold k in Hres.
    exists r, w'. split; [exact Hrun|]. split; [exact Htrace|].
    intros resp Hget Hts. rewrite Hget in Hres.
    destruct (total_size_of env 0 (Some expected) resp); [|discriminate].
    rewrite read_loop_all in Hres by lia. cbn [fst snd app] in Hres.
    injection Hres as -> <-. auto.
Qed.

(** Two bytes in place, five expected, a server that answers the range:
    the request starts at offset 2 and the file ends with five bytes. *)
Lemma transfer_resume_or_fresh_witness :
  exists w',
    _download_with_progress Scenario.env_ranges Scenario.cfg Scenario.raw_tar_url
      "downloads/GSE1_RAW.tar" (Some 5) (Scenario.w_with [ Byte.x01; Byte.x02 ])
    = (Ok tt, w') /\
    trace w' = [ EvTransfer Scenario.raw_tar_url "downloads/GSE1_RAW.tar" (Some 5);
                 EvGet {| req_url := Scenario.raw_tar_url; req_range := Some 2 |} ] /\
    file_size w' "downloads/GSE1_RAW.tar" = Some 5.
Proof.
  assert (Hchunk : 1 <= chunk_size Scenario.cfg) by (cbn; lia).
  destruct (transfer_resume_or_fresh Scenario.env_ranges Scenario.cfg
              Scenario.raw_tar_url "downloads/GSE1_RAW.tar" 5
              (Scenario.w_with [ Byte.x01; Byte.x02 ]) Hchunk) as [Hresume _].
  assert (Hlt : Z.of_nat (length [ Byte.x01; Byte.x02 ]) < 5) by (cbn; lia).
  destruct (Hresume [ Byte.x01; Byte.x02 ] eq_refl Hlt)
    as (r & w' & Hrun & Htrace & _ & Hdone).
  destruct (Hdone {| resp_content_length := None;
                     resp_content_range := Some "bytes 2-4/5";
                     resp_body := drop 2 Scenario.body5;
                     resp_read_error := None |}
              Scenario.body5 eq_refl eq_refl eq_refl eq_refl eq_refl)
    as (-> & Hsize).
  exists w'. split; [exact Hrun|]. split; [exact Htrace | exact Hsize].
Defined.

(** ** Dispatchers *)

Section Dispatch.

Variables (env : Env) (cfg : Config) (gse_id : string).

(** Sequential mode: one result per file, in order. *)
Lemma sequential_loop_length (n : Z) :
  forall files i acc w results w',
    sequential_loop env cfg gse_id n i files acc w = (Ok results, w') ->
    length results = (length acc + length files)%nat.
Proof.
  induction files as [|fi files IH]; intros i acc w results w' Hrun.
  - cbn in Hrun. injection Hrun as <- <-. cbn. lia.
  - cbn [sequential_loop] in Hrun. unfold bind at 1 in Hrun. unfold print at 1 in Hrun.
    unfold bind at 1 in Hrun.
    destruct (_download_single_file env cfg gse_id fi _) as [[res|e] w1]; [|discriminate].
    unfold bind at 1 in Hrun.
    destruct ((if (i <? n) && negb (Qle_bool (delay cfg) 0)
               then time_sleep (delay cfg) else ret tt) w1) as [[[]|e] w2];
      [|discriminate].
    apply IH in Hrun. rewrite Hrun, length_app. cbn. lia.
Qed.

Lemma download_files_sequential_length raw_files w results w' :
  _download_files_sequential env cfg gse_id raw_files w = (Ok results, w') ->
  length results = length raw_files.
Proof.
  unfold _download_files_sequential. intros H.
  apply sequential_loop_length in H. exact H.
Qed.

(** The collection loop never raises, and keeps one entry per completed
    future that belongs to a submitted task. *)
Lemma collect_completed_kept raw_files :
  forall order acc w,
  exists new w',
    collect_completed env cfg gse_id raw_files order acc w = (Ok (acc ++ new), w') /\
    Forall2 (kept_for_worker env cfg gse_id)
      (omap (fun k => raw_files !! k) order) new.
Proof.
  induction order as [|k order IH]; intros acc w.
  - exists [], w. rewrite app_nil_r. split; [reflexivity|constructor].
  - cbn [collect_completed omap list_omap].
    destruct (raw_files !! k) as [fi|] eqn:Hk.
    + unfold bind at 1. unfold try_result at 1.
      destruct (_download_single_file env cfg gse_id fi w) as [[res|e] w1] eqn:Hrun.
      * destruct (IH (acc ++ [res]) w1) as (new & w' & Hloop & Hkept).
        exists (res :: new), w'. rewrite Hloop, <- app_assoc.
        split; [reflexivity|]. constructor; [|exact Hkept].
        left. eauto.
      * destruct (IH (acc ++ [Some (worker_error_result fi e)]) w1)
          as (new & w' & Hloop & Hkept).
        exists (Some (worker_error_result fi e) :: new), w'.
        rewrite Hloop, <- app_assoc.
        split; [reflexivity|]. constructor; [|exact Hkept].
        right. exists w, w1, e. split; [exact Hrun | reflexivity].
    + apply IH.
Qed.

(** Looking up every index of a list, in order, gives the list back. *)
Lemma omap_lookup_seq {A} (l : list A) :
  omap (fun k => l !! k) (seq 0 (length l)) = l.
Proof.
  induction l as [|x l IH]; [reflexivity|].
  cbn [length seq omap list_omap]. cbn [lookup list_lookup].
  rewrite <- fmap_S_seq.
  f_equal. rewrite <- IH at 2.
  generalize (seq 0 (length l)). intros s.
  induction s as [|j s IHs]; [reflexivity|].
  cbn [fmap list_fmap omap list_omap]. cbn [lookup list_lookup].
  fold (l !! j). destruct (l !! j); cbn [omap list_omap] in *; rewrite IHs; reflexivity.
Qed.

Lemma omap_permutation {A B} (f : A -> option B) (l1 l2 : list A) :
  l1 ≡ₚ l2 -> omap f l1 ≡ₚ omap f l2.
Proof.
  induction 1 as [|x l1 l2 _ IH|x y l|l1 l2 l3 _ IH1 _ IH2]; cbn [omap list_omap].
  - reflexivity.
  - destruct (f x); [constructor|]; exact IH.
  - destruct (f x), (f y); try reflexivity. apply perm_swap.
  - etransitivity; eassumption.
Qed.

End Dispatch.

(** ** Parallel mode *)

(** C7, as stated, fails on the size: the entry made for a worker that
    raised carries the [size_bytes] of its RemoteFile, not zero.  First an
    unknown size with a file in place (the test before the loop raises), then
    a known size of five bytes with a wait that raises. *)
Lemma worker_error_keeps_expected_size :
  (fst (_download_single_file Scenario.env_up Scenario.cfg_parallel "GSE1"
          (Scenario.raw_tar None) (Scenario.w_with Scenario.body5))
     = Raise "'>' not supported between instances of 'NoneType' and 'int'" /\
   fst (_download_files_parallel Scenario.env_up Scenario.cfg_parallel "GSE1"
          [ Scenario.raw_tar None; Scenario.signal_txt (Some 5) ]
          (Scenario.w_with Scenario.body5))
     = Ok [ Some {| fr_filename := "GSE1_RAW.tar"; fr_local_path := None;
                    fr_status := FileFailed;
                    fr_error := Some "'>' not supported between instances of 'NoneType' and 'int'";
                    fr_size_bytes := None |};
            Some (completed_result "GSE1_signal.txt" "downloads/GSE1_signal.txt" (Some 5)) ]) /\
  (fst (_download_files_parallel Scenario.env_down Scenario.cfg_negative_delay "GSE1"
          [ Scenario.raw_tar (Some 5); Scenario.signal_txt (Some 5) ]
          Scenario.w_empty)
     = Ok [ Some {| fr_filename := "GSE1_RAW.tar"; fr_local_path := None;
                    fr_status := FileFailed;
                    fr_error := Some "sleep length must be non-negative";
                    fr_size_bytes := Some 5 |};
            Some {| fr_filename := "GSE1_signal.txt"; fr_local_path := None;
                    fr_status := FileFailed;
                    fr_error := Some "sleep length must be non-negative";
                    fr_size_bytes := Some 5 |} ]) /\
  ~ (forall env cfg gse_id raw_files file_info w w1 e results w',
       file_info ∈ raw_files ->
       _download_single_file env cfg gse_id file_info w1 = (Raise e, w') ->
       fst (_download_files_parallel env cfg gse_id raw_files w) = Ok results ->
       forall r, Some r ∈ results -> fr_filename r = rf_filename file_info ->
                 fr_error r = Some e -> fr_size_bytes r = Some 0).
Proof.
  split; [vm_compute; repeat split|]. split; [vm_compute; repeat split|].
  intros Hall.
  assert (Hraise : exists w',
    _download_single_file Scenario.env_up Scenario.cfg_parallel "GSE1"
      (Scenario.raw_tar None) (Scenario.w_with Scenario.body5)
    = (Raise "'>' not supported between instances of 'NoneType' and 'int'", w')).
  { eexists. vm_compute. reflexivity. }
  destruct Hraise as (w' & Hraise).
  specialize (Hall Scenario.env_up Scenario.cfg_parallel "GSE1"
                [ Scenario.raw_tar None; Scenario.signal_txt (Some 5) ]
                (Scenario.raw_tar None) (Scenario.w_with Scenario.body5)
                (Scenario.w_with Scenario.body5) _ _ w'
                ltac:(left) Hraise ltac:(vm_compute; reflexivity)
                {| fr_filename := "GSE1_RAW.tar"; fr_local_path := None;
                   fr_status := FileFailed;
                   fr_error := Some "'>' not supported between instances of 'NoneType' and 'int'";
                   fr_size_bytes := None |}
                ltac:(left) eq_refl eq_refl).
  discriminate Hall.
Qed.

(** C7 (amended).  In parallel mode, with a pool of at least one worker and
    every submitted future completing once, the dispatcher returns normally
    with exactly one entry per input file, in completion order.  The entry of
    a worker that returned is its value; the entry of a worker that raised is
    a [failed] FileResult with the exception's text as error and the
    [size_bytes] of the RemoteFile it was given (its expected size, which may
    be unknown), not zero. *)
Theorem parallel_dispatch_one_result_per_file
    (env : Env) (cfg : Config) (gse_id : string) (raw_files : list RemoteFile)
    (w : World) :
  1 <= workers cfg ->
  env_completed env (length raw_files) ≡ₚ seq 0 (length raw_files) ->
  exists results w' done,
    _download_files_parallel env cfg gse_id raw_files w = (Ok results, w') /\
    done ≡ₚ raw_files /\
    Forall2 (kept_for_worker env cfg gse_id) done results /\
    length results = length raw_files.
Proof.
  intros Hworkers Hperm.
  unfold _download_files_parallel. unfold bind at 1. unfold print at 1.
  unfold bind at 1.
  destruct (workers cfg <=? 0) eqn:Hw; [apply Z.leb_le in Hw; lia|].
  unfold ret at 1.
  match goal with |- context [collect_completed _ _ _ _ ?o ?a ?w0] =>
    destruct (collect_completed_kept env cfg gse_id raw_files o a w0)
      as (new & w' & Hrun & Hkept)
  end.
  rewrite Hrun. cbn [app].
  exists new, w', (omap (fun k => raw_files !! k) (env_completed env (length raw_files))).
  split; [reflexivity|].
  assert (Hdone : omap (fun k => raw_files !! k) (env_completed env (length raw_files))
                  ≡ₚ raw_files).
  { rewrite <- (omap_lookup_seq raw_files) at 2. apply omap_permutation. exact Hperm. }
  split; [exact Hdone|]. split; [exact Hkept|].
  apply Forall2_length in Hkept. rewrite <- Hkept.
  apply Permutation_length. exact Hdone.
Qed.

(** Two files, the first with an unknown size and a file in place: two
    entries come back. *)
Lemma parallel_dispatch_one_result_per_file_witness :
  exists results w',
    _download_files_parallel Scenario.env_up Scenario.cfg_parallel "GSE1"
      [ Scenario.raw_tar None; Scenario.signal_txt (Some 5) ]
      (Scenario.w_with Scenario.body5) = (Ok results, w') /\
    length results = 2%nat.
Proof.
  assert (Hworkers : 1 <= workers Scenario.cfg_parallel) by (cbn; lia).
  destruct (parallel_dispatch_one_result_per_file Scenario.env_up Scenario.cfg_parallel
              "GSE1" [ Scenario.raw_tar None; Scenario.signal_txt (Some 5) ]
              (Scenario.w_with Scenario.body5) Hworkers (Permutation_refl _))
    as (results & w' & done & Hrun & _ & _ & Hlen).
  exists results, w'. split; [exact Hrun | exact Hlen].
Defined.

(** ** Dataset status *)

Section DatasetStatus.

Ltac run_monad :=
  unfold bind, ret, raise, lift, try_except, try_result, emit, print, set_fs,
    get_world in *; cbn [fst snd fs trace console status_disk download_status] in *.

Lemma subscript_all_length results : forall files,
  subscript_all results = Ok files -> length files = length results.
Proof.
  induction results as [|[r|] results IH]; intros files H; cbn in H.
  - injection H as <-. reflexivity.
  - destruct (subscript_all results) as [rs|e]; [|discriminate].
    injection H as <-. cbn. f_equal. apply IH. reflexivity.
  - discriminate.
Qed.

Lemma length_filter_completed_le (files : list FileResult) :
  (length (filter (fun r => file_completed r = true) files) <= length files)%nat.
Proof. apply length_filter. Qed.

(** [successful == total] holds exactly when every file completed. *)
Lemma count_all_completed (files : list FileResult) :
  (count_completed files =? Z.of_nat (length files)) = forallb file_completed files.
Proof.
  unfold count_completed. induction files as [|f files IH]; [reflexivity|].
  rewrite filter_cons. cbn [forallb length].
  destruct (file_completed f) eqn:Hf.
  - destruct (decide (true = true)); [|congruence]. cbn [length andb].
    rewrite <- IH. rewrite !Nat2Z.inj_succ.
    destruct (Z.eqb_spec (Z.of_nat (length (filter (fun r => file_completed r = true) files)))
                (Z.of_nat (length files))) as [E|E].
    + rewrite E. apply Z.eqb_refl.
    + apply Z.eqb_neq. lia.
  - destruct (decide (false = true)); [discriminate|]. cbn [andb].
    apply Z.eqb_neq. pose proof (length_filter_completed_le files). lia.
Qed.

(** [successful > 0] holds exactly when some file completed. *)
Lemma count_some_completed (files : list FileResult) :
  (0 <? count_completed files) = existsb file_completed files.
Proof.
  unfold count_completed. induction files as [|f files IH]; [reflexivity|].
  rewrite filter_cons. cbn [existsb].
  destruct (file_completed f) eqn:Hf.
  - destruct (decide (true = true)); [|congruence]. cbn [length orb].
    apply Z.ltb_lt. lia.
  - destruct (decide (false = true)); [discriminate|]. cbn [orb]. exact IH.
Qed.

Lemma overall_status_derived (files : list FileResult) :
  overall_status (count_completed files) (Z.of_nat (length files)) = derived_status files.
Proof.
  unfold overall_status, derived_status.
  rewrite count_all_completed, count_some_completed. reflexivity.
Qed.

Lemma file_completed_true f : file_completed f = true <-> fr_status f = FileCompleted.
Proof. unfold file_completed. destruct (fr_status f); split; congruence. Qed.

Lemma file_completed_false f : file_completed f = false <-> fr_status f = FileFailed.
Proof. unfold file_completed. destruct (fr_status f); split; congruence. Qed.

(** The derived status in words, for a list that is not empty. *)
Lemma derived_status_cases (files : list FileResult) :
  files <> [] ->
  (derived_status files = DsCompleted <->
     Forall (fun f => fr_status f = FileCompleted) files) /\
  (derived_status files = DsPartial <->
     Exists (fun f => fr_status f = FileCompleted) files /\
     Exists (fun f => fr_status f = FileFailed) files) /\
  (derived_status files = DsFailed <->
     Forall (fun f => fr_status f = FileFailed) files).
Proof.
  intros Hne. unfold derived_status.
  assert (Hall : forallb file_completed files = true <->
                 Forall (fun f => fr_status f = FileCompleted) files).
  { rewrite forallb_forall, Forall_forall. split; intros H f Hf.
    - apply file_completed_true, H, list_elem_of_In, Hf.
    - apply file_completed_true, H, list_elem_of_In, Hf. }
  assert (Hsome : existsb file_completed files = true <->
                  Exists (fun f => fr_status f = FileCompleted) files).
  { rewrite existsb_exists, Exists_exists. split; intros (f & Hf & Hc); exists f.
    - split; [apply list_elem_of_In, Hf | apply file_completed_true, Hc].
    - split; [apply list_elem_of_In, Hf | apply file_completed_true, Hc]. }
  assert (Hnone : existsb file_completed files = false <->
                  Forall (fun f => fr_status f = FileFailed) files).
  { clear. induction files as [|f files IH]; cbn [existsb].
    - split; [constructor | reflexivity].
    - rewrite orb_false_iff, Forall_cons, IH, file_completed_false. tauto. }
  assert (Hnotall : forallb file_completed files = false <->
                    Exists (fun f => fr_status f = FileFailed) files).
  { clear. induction files as [|f files IH]; cbn [forallb].
    - split; [discriminate | intros H; inversion H].
    - rewrite andb_false_iff, Exists_cons, IH, file_completed_false. tauto. }
  destruct (forallb file_completed files) eqn:Ea.
  - assert (Hs : existsb file_completed files = true).
    { destruct files as [|f files]; [contradiction|].
      cbn in Ea |- *. apply andb_true_iff in Ea as [-> _]. reflexivity. }
    split; [tauto|]. split.
    + split; [discriminate|]. intros [_ H]. apply Hnotall in H. discriminate.
    + split; [discriminate|]. intros H. apply Hnone in H. congruence.
  - destruct (existsb file_completed files) eqn:Es.
    + split; [split; [discriminate | intros H; apply Hall in H; discriminate]|].
      split; [tauto|].
      split; [discriminate | intros H; apply Hnone in H; discriminate].
    + split; [split; [discriminate | intros H; apply Hall in H; discriminate]|].
      split; [|tauto].
      split; [discriminate|]. intros [H _]. apply Hsome in H. discriminate.
Qed.

(** The catalog part of the resolver never raises: one catalog event, the
    fields the catalog gives, and at most a warning on the console. *)
Lemma catalog_part_run env gse_id w :
  exists w0,
    (let* summary_xml := _fetch_gse_summary env gse_id in
     match summary_xml with
     | Some document => _parse_gse_summary gse_id document
     | None => ret descr_default
     end) w = (Ok (catalog_fields (env_describe env gse_id)), w0) /\
    trace w0 = trace w ++ [ EvDescribe gse_id ] /\
    console w0 = console w ++ catalog_warnings gse_id (env_describe env gse_id) /\
    fs w0 = fs w /\ status_disk w0 = status_disk w /\
    download_status w0 = download_status w.
Proof.
  unfold _fetch_gse_summary, _parse_gse_summary.
  destruct (env_describe env gse_id) as [e| |fields [e|]];
    run_monad; eexists; (split; [reflexivity|]); cbn;
    rewrite ?app_nil_r; repeat split.
Qed.

(** The resolver always returns metadata, and never with an [error] entry:
    each helper catches its own exceptions, so the handler of
    [get_gse_metadata] is never reached. *)
Lemma get_gse_metadata_run env gse_id w :
  exists md w',
    get_gse_metadata env gse_id w = (Ok md, w') /\
    md_gse_id md = gse_id /\
    md_has_raw_data md = negb (bool_decide (md_raw_files md = [])) /\
    md_descr md = catalog_fields (env_describe env gse_id) /\
    md_error md = None.
Proof.
  unfold get_gse_metadata. unfold bind at 1. unfold try_result at 1.
  destruct (catalog_part_run env gse_id w) as (w0 & -> & _).
  unfold bind at 1. unfold try_result at 1.
  destruct (check_raw_files_names env gse_id w0) as (rs & w' & -> & _).
  unfold ret. eexists _, _. split; [reflexivity|].
  cbn [md_gse_id md_has_raw_data md_raw_files md_error md_descr].
  split; [reflexivity|]. split; [destruct rs; reflexivity|]. split; reflexivity.
Qed.

End DatasetStatus.

(** C1.  Resolution always yields metadata [md], and never with an error:
    the helpers that make the remote calls catch every exception, so a
    catalog or a listing that cannot be reached leaves no raw file and no
    error, and the branch for a reported error is taken by no run.  If [md]
    lists no raw file, the result is [no_raw_data] with no file.  If it
    lists at least one, a returned result has one FileResult per raw file
    and its status is [completed] exactly when every FileResult is
    completed, [partial] exactly when some but not all are, and [failed]
    exactly when none is. *)
Theorem dataset_status_derivation
    (env : Env) (cfg : Config) (gse_id : string) (w : World) :
  (forall n, env_completed env n ≡ₚ seq 0 n) ->
  let run := download_gse_dataset env cfg gse_id w in
  exists md w1,
    get_gse_metadata env gse_id (snd (print (LInfoProcessing gse_id) w)) = (Ok md, w1) /\
    md_error md = None /\
    (md_raw_files md = [] ->
       run = (Ok {| dr_gse_id := gse_id; dr_status := DsNoRawData;
                    dr_error := Some "No raw data files found";
                    dr_files := []; dr_metadata := None |}, w1)) /\
    (md_raw_files md <> [] ->
       forall r w', run = (Ok r, w') ->
         dr_gse_id r = gse_id /\
         dr_error r = None /\
         dr_metadata r = Some md /\
         length (dr_files r) = length (md_raw_files md) /\
         (dr_status r = DsCompleted <->
            Forall (fun f => fr_status f = FileCompleted) (dr_files r)) /\
         (dr_status r = DsPartial <->
            Exists (fun f => fr_status f = FileCompleted) (dr_files r) /\
            Exists (fun f => fr_status f = FileFailed) (dr_files r)) /\
         (dr_status r = DsFailed <->
            Forall (fun f => fr_status f = FileFailed) (dr_files r))).
Proof.
  intros Hpool run.
  destruct (get_gse_metadata_run env gse_id (snd (print (LInfoProcessing gse_id) w)))
    as (md & w1 & Hmd & _ & Hraw & _ & Herr).
  assert (Heq : run =
    (if truthy_opt (md_error md) then
       ret {| dr_gse_id := gse_id; dr_status := DsFailed;
              dr_error := md_error md; dr_files := []; dr_metadata := None |}
     else if negb (md_has_raw_data md) then
       ret {| dr_gse_id := gse_id; dr_status := DsNoRawData;
              dr_error := Some "No raw data files found"; dr_files := [];
              dr_metadata := None |}
     else
       let* download_results :=
         (if parallel cfg && (1 <? length (md_raw_files md))%nat
          then _download_files_parallel env cfg gse_id (md_raw_files md)
          else _download_files_sequential env cfg gse_id (md_raw_files md)) in
       let* files := lift (subscript_all download_results) in
       ret {| dr_gse_id := gse_id;
              dr_status := overall_status (count_completed files)
                             (Z.of_nat (length files));
              dr_error := None; dr_files := files; dr_metadata := Some md |}) w1).
  { subst run. unfold download_gse_dataset. unfold bind at 1.
    destruct (print (LInfoProcessing gse_id) w) as [[[]|e0] w0] eqn:Hp;
      [|discriminate Hp].
    unfold bind at 1. cbn [snd] in Hmd. rewrite Hmd. reflexivity. }
  clearbody run. subst run.
  exists md, w1. split; [exact Hmd|]. split; [exact Herr|].
  rewrite Herr. cbn [truthy_opt].
  split.
  - intros Hnil. rewrite Hraw, Hnil. reflexivity.
  - intros Hfiles r w'. rewrite Hraw.
    rewrite bool_decide_eq_false_2 by exact Hfiles. cbn [negb].
    unfold bind at 1.
    set (dispatch :=
           (if parallel cfg && (1 <? length (md_raw_files md))%nat
            then _download_files_parallel env cfg gse_id (md_raw_files md)
            else _download_files_sequential env cfg gse_id (md_raw_files md)) w1).
    assert (Hlen : forall results w2, dispatch = (Ok results, w2) ->
                   length results = length (md_raw_files md)).
    { subst dispatch. intros results w2.
      destruct (parallel cfg && (1 <? length (md_raw_files md))%nat).
      - unfold _download_files_parallel. unfold bind at 1. unfold print at 1.
        unfold bind at 1.
        destruct (workers cfg <=? 0); [discriminate|]. unfold ret at 1.
        match goal with |- context [collect_completed _ _ _ _ ?o ?a ?w0] =>
          destruct (collect_completed_kept env cfg gse_id (md_raw_files md) o a w0)
            as (new & w3 & Hrun & Hkept)
        end.
        rewrite Hrun. intros [= <- <-]. cbn [app].
        apply Forall2_length in Hkept. rewrite <- Hkept.
        rewrite <- (omap_lookup_seq (md_raw_files md)) at 2.
        apply Permutation_length, omap_permutation, Hpool.
      - apply download_files_sequential_length. }
    destruct dispatch as [[results|e] w2]; [|discriminate].
    specialize (Hlen results w2 eq_refl).
    unfold bind at 1. unfold lift.
    destruct (subscript_all results) as [files|e] eqn:Hsub; [|discriminate].
    unfold ret. intros [= <- <-].
    cbn [dr_gse_id dr_error dr_metadata dr_files dr_status].
    apply subscript_all_length in Hsub.
    split; [reflexivity|].
    split; [reflexivity|]. split; [reflexivity|]. split; [congruence|].
    rewrite overall_status_derived. apply derived_status_cases.
    intros ->. cbn in Hsub. destruct (md_raw_files md); [contradiction|].
    cbn in Hlen. lia.
Qed.

(** The series GSE1 over an empty directory, one attempt per file: the
    archive arrives, the signal file does not, and the dataset is [partial]. *)
Lemma dataset_status_derivation_witness :
  exists r w',
    download_gse_dataset Scenario.env_gse1 Scenario.cfg_once "GSE1" Scenario.w_empty
      = (Ok r, w') /\
    length (dr_files r) = 2%nat /\
    dr_status r = DsPartial.
Proof.
  destruct (dataset_status_derivation Scenario.env_gse1 Scenario.cfg_once "GSE1"
              Scenario.w_empty (fun n => Permutation_refl (seq 0 n)))
    as (md & w1 & Hmd & _ & _ & Hfiles).
  vm_compute in Hmd. injection Hmd as <- _.
  destruct (download_gse_dataset Scenario.env_gse1 Scenario.cfg_once "GSE1"
              Scenario.w_empty) as [res w'] eqn:Hrun.
  assert (Hres : res = Ok {| dr_gse_id := "GSE1"; dr_status := DsPartial;
                             dr_error := None;
                             dr_files :=
                               [ completed_result "GSE1_RAW.tar" "downloads/GSE1_RAW.tar" (Some 5);
                                 failed_result "GSE1_signal.txt" "downloads/GSE1_signal.txt"
                                   "HTTP Error 404: Not Found" ];
                             dr_metadata :=
                               Some {| md_gse_id := "GSE1"; md_has_raw_data := true;
                                       md_descr := descr_default;
                                       md_raw_files :=
                                         [ Scenario.raw_tar (Some 5);
                                           Scenario.signal_txt (Some 5) ];
                                       md_error := None |} |}).
  { vm_compute in Hrun. injection Hrun as <- _. reflexivity. }
  subst res. eexists _, w'. split; [reflexivity|].
  destruct (Hfiles ltac:(discriminate) _ _ eq_refl) as (_ & _ & _ & Hlen & _).
  split; [exact Hlen | reflexivity].
Defined.

(** ** Nothing below the orchestrator touches the run status *)

Section Quiet.

Lemma saved_snapshots_app (t1 t2 : list Event) :
  saved_snapshots (t1 ++ t2) = saved_snapshots t1 ++ saved_snapshots t2.
Proof.
  induction t1 as [|e t1 IH]; [reflexivity|].
  destruct e; cbn; rewrite IH; reflexivity.
Qed.

Lemma quiet_ret {A} (a : A) : quiet (ret a).
Proof. intros w r w' [= <- <-]. auto. Qed.

Lemma quiet_raise {A} (e : string) : quiet (@raise A e).
Proof. intros w r w' [= <- <-]. auto. Qed.

Lemma quiet_lift {A} (x : pyresult A) : quiet (lift x).
Proof. intros w r w' [= <- <-]. auto. Qed.

Lemma quiet_bind {A B} (m : M A) (k : A -> M B) :
  quiet m -> (forall a, quiet (k a)) -> quiet (bind m k).
Proof.
  intros Hm Hk w r w'. unfold bind.
  destruct (m w) as [[a|e] w1] eqn:Hrun.
  - intros Hrun2. destruct (Hm _ _ _ Hrun) as (H1 & H2 & H3).
    destruct (Hk a _ _ _ Hrun2) as (H4 & H5 & H6).
    repeat split; congruence.
  - intros [= <- <-]. exact (Hm _ _ _ Hrun).
Qed.

Lemma quiet_try_except {A} (m : M A) (h : string -> M A) :
  quiet m -> (forall e, quiet (h e)) -> quiet (try_except m h).
Proof.
  intros Hm Hh w r w'. unfold try_except.
  destruct (m w) as [[a|e] w1] eqn:Hrun.
  - intros [= <- <-]. exact (Hm _ _ _ Hrun).
  - intros Hrun2. destruct (Hm _ _ _ Hrun) as (H1 & H2 & H3).
    destruct (Hh e _ _ _ Hrun2) as (H4 & H5 & H6).
    repeat split; congruence.
Qed.

Lemma quiet_try_result {A} (m : M A) : quiet m -> quiet (try_result m).
Proof.
  intros Hm w r w'. unfold try_result.
  destruct (m w) as [a w1] eqn:Hrun. intros [= <- <-]. exact (Hm _ _ _ Hrun).
Qed.

Lemma quiet_print l : quiet (print l).
Proof. intros w r w' [= <- <-]. auto. Qed.

Lemma quiet_emit e : is_save e = false -> quiet (emit e).
Proof.
  intros He w r w' [= <- <-]. cbn. repeat split.
  rewrite saved_snapshots_app. destruct e; try discriminate; cbn; apply app_nil_r.
Qed.

Lemma quiet_set_fs files : quiet (set_fs files).
Proof. intros w r w' [= <- <-]. auto. Qed.

Lemma quiet_os_path_exists p : quiet (os_path_exists p).
Proof. intros w r w' [= <- <-]. auto. Qed.

Lemma quiet_os_path_getsize p : quiet (os_path_getsize p).
Proof.
  intros w r w'. unfold os_path_getsize.
  destruct (file_size w p); intros [= <- <-]; auto.
Qed.

Lemma quiet_time_sleep d : quiet (time_sleep d).
Proof.
  unfold time_sleep. destruct (Qle_bool 0 d).
  - apply quiet_emit. reflexivity.
  - apply quiet_raise.
Qed.

Lemma quiet_urlopen env req : quiet (urlopen env req).
Proof.
  intros w r w'. unfold urlopen, emit.
  destruct (env_get env _ req); intros [= <- <-]; cbn; repeat split;
    rewrite saved_snapshots_app; cbn; apply app_nil_r.
Qed.

Lemma quiet_write_stream cfg p append resp : quiet (write_stream cfg p append resp).
Proof.
  intros w r w'. unfold write_stream, set_fs.
  destruct (read_loop _ _ _ _ _). intros [= <- <-]. auto.
Qed.

Ltac quiet_step :=
  first
    [ assumption
    | match goal with H : forall _, quiet _ |- _ => apply H end
    | match goal with H : forall _ _, quiet _ |- _ => apply H end
    | apply quiet_ret | apply quiet_raise | apply quiet_lift | apply quiet_print
    | apply quiet_set_fs | apply quiet_os_path_exists | apply quiet_os_path_getsize
    | apply quiet_time_sleep | apply quiet_urlopen | apply quiet_write_stream
    | apply quiet_emit; reflexivity
    | apply quiet_try_result
    | apply quiet_bind; [|intros ?]
    | apply quiet_try_except; [|intros ?]
    | match goal with
      | |- quiet (if ?b then _ else _) => destruct b
      | |- quiet (match ?x with _ => _ end) => destruct x
      | |- quiet (let (_, _) := ?x in _) => destruct x
      end ].

Ltac quiet_auto := repeat quiet_step.

Lemma quiet_verify_file_integrity p e : quiet (verify_file_integrity p e).
Proof. unfold verify_file_integrity. quiet_auto. Qed.

Lemma quiet_get_file_size env url : quiet (get_file_size env url).
Proof. unfold get_file_size. quiet_auto. Qed.

Lemma quiet_download_with_progress env cfg url p e :
  quiet (_download_with_progress env cfg url p e).
Proof. unfold _download_with_progress, resume_decision. quiet_auto. Qed.

Lemma quiet_download_attempt env cfg fn url p e :
  quiet (download_attempt env cfg fn url p e).
Proof.
  unfold download_attempt.
  pose proof (quiet_download_with_progress env cfg url p e).
  pose proof (quiet_verify_file_integrity p e).
  quiet_auto.
Qed.

Lemma quiet_retry_loop env cfg fn url p e attempts :
  quiet (retry_loop env cfg fn url p e attempts).
Proof.
  pose proof (quiet_download_attempt env cfg fn url p e).
  induction attempts as [|a attempts IH]; cbn [retry_loop];
    unfold wait_before_retry; quiet_auto.
Qed.

Lemma quiet_download_single_file env cfg gse_id fi :
  quiet (_download_single_file env cfg gse_id fi).
Proof.
  unfold _download_single_file, already_complete.
  pose proof (quiet_retry_loop env cfg (rf_filename fi) (rf_url fi)
                (local_path_of cfg fi) (rf_size_bytes fi)
                (py_range (max_retries cfg + 1))).
  pose proof (quiet_verify_file_integrity (local_path_of cfg fi) (rf_size_bytes fi)).
  quiet_auto.
Qed.

Lemma quiet_sequential_loop env cfg gse_id n files : forall i acc,
  quiet (sequential_loop env cfg gse_id n i files acc).
Proof.
  induction files as [|fi files IH]; intros i acc; cbn [sequential_loop].
  - quiet_auto.
  - pose proof (quiet_download_single_file env cfg gse_id fi).
    quiet_auto.
Qed.

Lemma quiet_collect_completed env cfg gse_id raw_files order : forall acc,
  quiet (collect_completed env cfg gse_id raw_files order acc).
Proof.
  induction order as [|k order IH]; intros acc; cbn [collect_completed].
  - quiet_auto.
  - destruct (raw_files !! k) as [fi|]; [|apply IH].
    pose proof (quiet_download_single_file env cfg gse_id fi).
    quiet_auto.
Qed.

Lemma quiet_probe_raw_files env suppl names : forall acc,
  quiet (probe_raw_files env suppl names acc).
Proof.
  induction names as [|nm names IH]; intros acc; cbn [probe_raw_files].
  - quiet_auto.
  - destruct (is_raw nm); [|apply IH].
    pose proof (quiet_get_file_size env (suppl +:+ nm)).
    quiet_auto.
Qed.

Lemma quiet_get_gse_metadata env gse_id : quiet (get_gse_metadata env gse_id).
Proof.
  unfold get_gse_metadata, _fetch_gse_summary, _parse_gse_summary, metadata_error,
    _check_raw_files.
  pose proof (fun names => quiet_probe_raw_files env (suppl_url gse_id) names []).
  quiet_auto.
Qed.

Lemma quiet_download_gse_dataset env cfg gse_id :
  quiet (download_gse_dataset env cfg gse_id).
Proof.
  unfold download_gse_dataset, _download_files_parallel, _download_files_sequential.
  pose proof (quiet_get_gse_metadata env gse_id).
  pose proof (fun n files => quiet_sequential_loop env cfg gse_id n files 1 []).
  pose proof (fun files order => quiet_collect_completed env cfg gse_id files order []).
  quiet_auto.
Qed.

End Quiet.

(** ** Run Orchestrator *)

Section Orchestrator.

Ltac run_monad :=
  unfold bind, ret, raise, lift, try_except, try_result, emit, print, set_fs,
    set_status_disk, set_download_status, get_world in *;
  cbn [fst snd fs trace console status_disk download_status] in *.

Variables (env : Env) (cfg : Config).

Lemma download_gse_dataset_id gse_id w r w' :
  download_gse_dataset env cfg gse_id w = (Ok r, w') -> dr_gse_id r = gse_id.
Proof.
  unfold download_gse_dataset. unfold bind at 1. unfold print at 1.
  unfold bind at 1.
  destruct (get_gse_metadata env gse_id _) as [[md|e] w1]; [|discriminate].
  destruct (truthy_opt (md_error md)); [intros [= <- <-]; reflexivity|].
  destruct (negb (md_has_raw_data md)); [intros [= <- <-]; reflexivity|].
  unfold bind at 1.
  destruct ((if parallel cfg && (1 <? length (md_raw_files md))%nat
             then _download_files_parallel env cfg gse_id (md_raw_files md)
             else _download_files_sequential env cfg gse_id (md_raw_files md)) w1)
    as [[results|e] w2]; [|discriminate].
  unfold bind at 1. unfold lift.
  destruct (subscript_all results); [|discriminate].
  intros [= <- <-]. reflexivity.
Qed.

(** Reading the status file never raises. *)
Lemma load_download_status_run w :
  exists w1,
    load_download_status w = (Ok tt, w1) /\
    download_status w1 = loaded_status w /\
    trace w1 = trace w /\ status_disk w1 = status_disk w /\ fs w1 = fs w /\
    match status_disk w with
    | SfAbsent => w1 = w
    | SfCorrupt msg => console w1 = console w ++ [LWarnLoad msg]
    | SfJson v =>
        match status_len v with
        | Ok n => console w1 = console w ++ [LInfoLoaded n]
        | Raise msg => console w1 = console w ++ [LWarnLoad msg]
        end
    end.
Proof.
  unfold load_download_status, loaded_status. unfold bind at 1. unfold get_world at 1.
  destruct (status_disk w) as [|msg|[m|[items|s|type_name]]] eqn:Hdisk.
  - exists w. rewrite Hdisk. repeat split.
  - run_monad. eexists. split; [reflexivity|]. cbn. rewrite Hdisk. repeat split.
  - run_monad. eexists. split; [reflexivity|]. cbn. rewrite Hdisk. repeat split.
  - run_monad. eexists. split; [reflexivity|]. cbn. rewrite Hdisk. repeat split.
  - run_monad. eexists. split; [reflexivity|]. cbn. rewrite Hdisk. repeat split.
  - run_monad. eexists. split; [reflexivity|]. cbn. rewrite Hdisk. repeat split.
Qed.

(** Writing the status file never raises; it hands the whole in-memory
    status to the writer. *)
Lemma save_download_status_run w :
  exists w1,
    save_download_status env w = (Ok tt, w1) /\
    trace w1 = trace w ++ [EvSave (download_status w)] /\
    download_status w1 = download_status w /\
    fs w1 = fs w /\
    match env_save env (length (filter (fun e => is_save e = true) (trace w))) with
    | SaveOk => status_disk w1 = SfJson (download_status w) /\ console w1 = console w
    | SaveOpenError msg =>
        status_disk w1 = status_disk w /\ console w1 = console w ++ [LWarnSave msg]
    | SaveDumpError msg remains =>
        status_disk w1 = SfCorrupt remains /\ console w1 = console w ++ [LWarnSave msg]
    end.
Proof.
  unfold save_download_status. run_monad.
  destruct (env_save env _); cbn; eexists; (split; [reflexivity|]); cbn; auto.
Qed.

Lemma saved_snapshots_length (t : list Event) :
  length (saved_snapshots t) = length (filter (fun e => is_save e = true) t).
Proof.
  induction t as [|e t IH]; [reflexivity|].
  rewrite filter_cons. destruct e; cbn; rewrite ?IH; reflexivity.
Qed.

Lemma status_after_snoc st0 acc r :
  status_after st0 (acc ++ [r]) = <[dr_gse_id r := r]> (status_after st0 acc).
Proof. unfold status_after. rewrite foldl_app. reflexivity. Qed.

(** One iteration of the loop over the datasets, when the status is a
    dictionary. *)
Lemma datasets_loop_step n i gse_id rest acc w r w1 m :
  download_gse_dataset env cfg gse_id (snd (print (LInfoDataset i n gse_id) w)) = (Ok r, w1) ->
  download_status w = StatusDict m ->
  exists w2,
    datasets_loop env cfg n i (gse_id :: rest) acc w
      = datasets_loop env cfg n (i + 1) rest (acc ++ [r]) w2 /\
    download_status w2 = StatusDict (<[gse_id := r]> m) /\
    saved_snapshots (trace w2)
      = saved_snapshots (trace w)
        ++ (if i mod 5 =? 0 then [ StatusDict (<[gse_id := r]> m) ] else []).
Proof.
  intros Hrun Hdict. cbn [datasets_loop]. unfold bind at 1.
  destruct (print (LInfoDataset i n gse_id) w) as [[[]|?] wp] eqn:Hp; [|discriminate Hp].
  cbn [snd] in Hrun. unfold bind at 1. rewrite Hrun.
  destruct (quiet_download_gse_dataset env cfg gse_id _ _ _ Hrun) as (Hd & _ & Hs).
  injection Hp as <-. cbn [download_status trace] in Hd, Hs.
  unfold bind at 1. unfold get_world at 1. unfold bind at 1.
  rewrite Hd, Hdict. cbn [status_setitem]. unfold lift at 1.
  unfold bind at 1. unfold set_download_status at 1. unfold bind at 1.
  destruct (i mod 5 =? 0).
  - match goal with |- context [save_download_status env ?w0] =>
      destruct (save_download_status_run w0) as (w2 & Hsave & Ht & Hds & _)
    end.
    rewrite Hsave. exists w2. split; [reflexivity|].
    cbn [download_status trace] in Ht, Hds.
    rewrite Hds, Ht, saved_snapshots_app, Hs. cbn. auto.
  - unfold ret at 1. eexists. split; [reflexivity|].
    cbn [download_status trace]. rewrite Hs, app_nil_r. auto.
Qed.

(** One iteration when the status is anything else: the dataset is
    processed, then the update raises. *)
Lemma datasets_loop_step_other n i gse_id rest acc w r w1 j :
  download_gse_dataset env cfg gse_id (snd (print (LInfoDataset i n gse_id) w)) = (Ok r, w1) ->
  download_status w = StatusOther j ->
  exists e,
    (forall g x, status_setitem (StatusOther j) g x = Raise e) /\
    datasets_loop env cfg n i (gse_id :: rest) acc w = (Raise e, w1).
Proof.
  intros Hrun Hother. cbn [datasets_loop]. unfold bind at 1.
  destruct (print (LInfoDataset i n gse_id) w) as [[[]|?] wp] eqn:Hp; [|discriminate Hp].
  cbn [snd] in Hrun. unfold bind at 1. rewrite Hrun.
  destruct (quiet_download_gse_dataset env cfg gse_id _ _ _ Hrun) as (Hd & _ & _).
  injection Hp as <-. cbn [download_status] in Hd.
  unfold bind at 1. unfold get_world at 1. unfold bind at 1.
  rewrite Hd, Hother. unfold lift at 1.
  destruct j as [items|s|type_name]; cbn [status_setitem]; eexists;
    (split; [intros g x; reflexivity | reflexivity]).
Qed.

(** The loop as a whole: the mapping gets every result in order, and a
    snapshot is written after every position that is a multiple of five. *)
Lemma datasets_loop_run n st0 : forall gse_ids i acc w results w',
  datasets_loop env cfg n i gse_ids acc w = (Ok results, w') ->
  i = Z.of_nat (S (length acc)) ->
  download_status w = StatusDict (status_after st0 acc) ->
  exists new,
    results = acc ++ new /\ map dr_gse_id new = gse_ids /\
    download_status w' = StatusDict (status_after st0 results) /\
    saved_snapshots (trace w')
      = saved_snapshots (trace w)
        ++ map (fun j => StatusDict (status_after st0 (take j results)))
             (filter (fun j => Z.of_nat j mod 5 = 0)
                (seq (S (length acc)) (length gse_ids))).
Proof.
  induction gse_ids as [|gse_id rest IH]; intros i acc w results w' Hrun Hi Hst.
  - cbn in Hrun. injection Hrun as <- <-. exists [].
    cbn [length seq]. rewrite filter_nil. cbn [map]. rewrite !app_nil_r. auto.
  - destruct (download_gse_dataset env cfg gse_id
                (snd (print (LInfoDataset i n gse_id) w))) as [[r|e] w1] eqn:Hds.
    + destruct (datasets_loop_step n i gse_id rest acc w r w1 _ Hds Hst)
        as (w2 & Hstep & Hst2 & Hsaved).
      rewrite Hstep in Hrun.
      pose proof (download_gse_dataset_id _ _ _ _ Hds) as Hid.
      apply (IH (i + 1) (acc ++ [r]) w2) in Hrun as (new & -> & Hids & Hfinal & Hsnaps).
      * exists (r :: new). rewrite <- app_assoc. cbn [app].
        split; [reflexivity|]. split; [cbn; congruence|].
        rewrite <- app_assoc in Hfinal. split; [exact Hfinal|].
        rewrite Hsnaps, Hsaved, <- app_assoc. f_equal.
        rewrite length_app in *. cbn [length] in *.
        replace (length acc + 1)%nat with (S (length acc)) by lia.
        cbn [seq]. rewrite filter_cons. subst i.
        rewrite <- !app_assoc. cbn [app].
        destruct (Z.eqb_spec (Z.of_nat (S (length acc)) mod 5) 0) as [E|E].
        -- destruct (decide (Z.of_nat (S (length acc)) mod 5 = 0)); [|contradiction].
           cbn [map app]. f_equal. f_equal.
           rewrite <- Hid, <- status_after_snoc.
           f_equal. symmetry.
           change (acc ++ r :: new) with (acc ++ [r] ++ new).
           rewrite app_assoc. apply take_app_length'.
           rewrite length_app. cbn. lia.
        -- destruct (decide (Z.of_nat (S (length acc)) mod 5 = 0)); [contradiction|].
           reflexivity.
      * rewrite length_app. cbn [length]. lia.
      * rewrite Hst2, status_after_snoc, Hid. reflexivity.
    + cbn [datasets_loop] in Hrun. unfold bind at 1 in Hrun.
      destruct (print (LInfoDataset i n gse_id) w) as [[[]|?] wp] eqn:Hp;
        [|discriminate Hp].
      cbn [snd] in Hds. unfold bind at 1 in Hrun. rewrite Hds in Hrun. discriminate.
Qed.

(** With a dictionary for a status, the loop raises only when the
    processing of a dataset raises. *)
Lemma datasets_loop_raise n : forall gse_ids i acc w m e w',
  download_status w = StatusDict m ->
  datasets_loop env cfg n i gse_ids acc w = (Raise e, w') ->
  exists gse_id w1 w2,
    gse_id ∈ gse_ids /\ download_gse_dataset env cfg gse_id w1 = (Raise e, w2).
Proof.
  induction gse_ids as [|gse_id rest IH]; intros i acc w m e w' Hdict Hrun.
  - discriminate.
  - destruct (download_gse_dataset env cfg gse_id
                (snd (print (LInfoDataset i n gse_id) w))) as [[r|e1] w1] eqn:Hds.
    + destruct (datasets_loop_step n i gse_id rest acc w r w1 m Hds Hdict)
        as (w2 & Hstep & Hdict2 & _).
      rewrite Hstep in Hrun. apply (IH _ _ _ _ _ _ Hdict2) in Hrun
        as (g & wa & wb & Hin & Hr).
      exists g, wa, wb. split; [right; exact Hin | exact Hr].
    + cbn [datasets_loop] in Hrun. unfold bind at 1 in Hrun.
      destruct (print (LInfoDataset i n gse_id) w) as [[[]|?] wp] eqn:Hp;
        [|discriminate Hp].
      cbn [snd] in Hds. unfold bind at 1 in Hrun. rewrite Hds in Hrun.
      injection Hrun as <- <-. exists gse_id, wp, w1. split; [left|exact Hds].
Qed.

(** The run up to its loop: the messages, then the load. *)
Lemma download_multiple_datasets_start g rest w :
  exists w1,
    download_multiple_datasets env cfg (g :: rest) w
    = (let* results :=
         datasets_loop env cfg (Z.of_nat (length (g :: rest))) 1 (g :: rest) [] in
       save_download_status env >>>
       let* end_time := time_time env in
       let total_time := (end_time - env_clock env (length (trace w)))%Q in
       let completed := count_status is_completed results in
       let partial := count_status is_partial results in
       let failed := count_status is_failed_or_no_raw results in
       print (LSummary (Z.of_nat (length results)) completed partial failed total_time) >>>
       ret (RunDone {| rs_total := Z.of_nat (length results);
                       rs_completed := completed; rs_partial := partial;
                       rs_failed := failed; rs_results := results;
                       rs_total_time := total_time |})) w1 /\
    download_status w1 = loaded_status w /\
    trace w1 = trace w /\ status_disk w1 = status_disk w /\ fs w1 = fs w.
Proof.
  unfold download_multiple_datasets.
  unfold bind at 1. unfold print at 1.
  unfold bind at 1.
  match goal with |- context [(if parallel cfg then ?a else ?b) ?w0] =>
    assert (Hpar : exists wq, (if parallel cfg then a else b) w0 = (Ok tt, wq) /\
                     download_status wq = download_status w /\
                     status_disk wq = status_disk w /\ trace wq = trace w /\
                     fs wq = fs w)
  end.
  { destruct (parallel cfg); eexists; (split; [reflexivity|]); cbn; auto. }
  destruct Hpar as (wq & -> & Hq1 & Hq2 & Hq3 & Hq4).
  unfold bind at 1.
  destruct (load_download_status_run wq) as (w1 & -> & Hl1 & Hl2 & Hl3 & Hl4 & _).
  unfold bind at 1. unfold time_time at 1.
  exists w1. rewrite Hl2, Hq3. split; [reflexivity|].
  split; [|split; [congruence|split; congruence]].
  rewrite Hl1. unfold loaded_status. rewrite Hq1, Hq2. reflexivity.
Qed.

(** The whole run, for a list of identifiers that is not empty and a status
    that loads as a dictionary. *)
Lemma download_multiple_datasets_run gse_ids w res w' m0 :
  gse_ids <> [] ->
  loaded_status w = StatusDict m0 ->
  download_multiple_datasets env cfg gse_ids w = (res, w') ->
  match res with
  | Raise e =>
      exists gse_id w1 w2,
        gse_id ∈ gse_ids /\ download_gse_dataset env cfg gse_id w1 = (Raise e, w2)
  | Ok (RunError _) => False
  | Ok (RunDone s) =>
      map dr_gse_id (rs_results s) = gse_ids /\
      download_status w' = StatusDict (status_after m0 (rs_results s)) /\
      saved_snapshots (trace w')
        = saved_snapshots (trace w)
          ++ map (fun j => StatusDict (status_after m0 (take j (rs_results s))))
               (periodic_positions (length gse_ids))
          ++ [ StatusDict (status_after m0 (rs_results s)) ] /\
      rs_total s = Z.of_nat (length (rs_results s)) /\
      rs_completed s = count_status is_completed (rs_results s) /\
      rs_partial s = count_status is_partial (rs_results s) /\
      rs_failed s = count_status is_failed_or_no_raw (rs_results s)
  end.
Proof.
  intros Hne Hloaded0.
  destruct gse_ids as [|g rest]; [contradiction|].
  destruct (download_multiple_datasets_start g rest w)
    as (w1 & -> & Hloaded & Ht1 & _).
  rewrite Hloaded0 in Hloaded.
  set (ids := g :: rest) in *. set (n := Z.of_nat (length ids)).
  unfold bind at 1.
  destruct (datasets_loop env cfg n 1 ids [] w1) as [[results|e] w2] eqn:Hloop.
  - apply (datasets_loop_run n m0) in Hloop
      as (new & -> & Hids & Hfinal & Hsnaps); [|reflexivity|exact Hloaded].
    cbn [app] in *.
    unfold bind at 1.
    destruct (save_download_status_run w2) as (w3 & -> & Ht3 & Hd3 & _).
    unfold bind at 1. unfold time_time at 1. unfold bind at 1. unfold print at 1.
    unfold ret. intros [= <- <-].
    cbn [rs_results rs_total rs_completed rs_partial rs_failed download_status trace].
    split; [exact Hids|]. split; [congruence|].
    split; [|repeat split].
    rewrite Ht3, saved_snapshots_app, Hsnaps, Ht1, Hfinal, <- app_assoc.
    reflexivity.
  - intros [= <- <-]. eapply datasets_loop_raise; [exact Hloaded|exact Hloop].
Qed.

(** The whole run when the status loads as anything but a dictionary: the
    first dataset is processed, then the run is over. *)
Lemma download_multiple_datasets_other g rest w j :
  loaded_status w = StatusOther j ->
  exists w1,
    trace w1 = trace w /\ fs w1 = fs w /\ status_disk w1 = status_disk w /\
    match download_gse_dataset env cfg g
            (snd (print (LInfoDataset 1 (Z.of_nat (length (g :: rest))) g) w1)) with
    | (Ok r, w2) =>
        exists e,
          (forall g' x, status_setitem (StatusOther j) g' x = Raise e) /\
          download_multiple_datasets env cfg (g :: rest) w = (Raise e, w2)
    | (Raise e, w2) => download_multiple_datasets env cfg (g :: rest) w = (Raise e, w2)
    end.
Proof.
  intros Hloaded0.
  destruct (download_multiple_datasets_start g rest w)
    as (w1 & -> & Hloaded & Ht1 & Hs1 & Hf1).
  rewrite Hloaded0 in Hloaded.
  exists w1. split; [exact Ht1|]. split; [exact Hf1|]. split; [exact Hs1|].
  destruct (download_gse_dataset env cfg g _) as [[r|e] w2] eqn:Hds.
  - destruct (datasets_loop_step_other _ 1 g rest [] w1 r w2 j Hds Hloaded)
      as (e & He & Hloop).
    exists e. split; [exact He|]. unfold bind at 1. rewrite Hloop. reflexivity.
  - unfold bind at 1. cbn [datasets_loop]. unfold bind at 1.
    destruct (print (LInfoDataset 1 _ g) w1) as [[[]|?] wp] eqn:Hp; [|discriminate Hp].
    cbn [snd] in Hds. unfold bind at 1. rewrite Hds. reflexivity.
Qed.

End Orchestrator.

(** C8.  A status file that holds a JSON list or a JSON string is read
    without complaint: [json.load] returns it, [len] accepts it, and it
    becomes the run status.  The first dataset is then processed in full,
    and the update of the status that follows raises, since only a
    dictionary takes an identifier for a key.  The run ends there with that
    exception (unless the processing of the first dataset raised already):
    no summary, no status written, exit status 1. *)
Theorem non_mapping_status_aborts_run
    (env : Env) (cfg : Config) (gse_id : string) (rest : list string) (w : World)
    (j : JsonOther) :
  status_disk w = SfJson (StatusOther j) ->
  (exists items, j = JsonList items) \/ (exists s, j = JsonStr s) ->
  let gse_ids := gse_id :: rest in
  let run := download_multiple_datasets env cfg gse_ids w in
  (exists e, fst run = Raise e) /\
  saved_snapshots (trace (snd run)) = saved_snapshots (trace w) /\
  status_disk (snd run) = status_disk w /\
  fst (main_download env cfg gse_ids w) = Ok 1 /\
  exists w1,
    trace w1 = trace w /\ fs w1 = fs w /\
    forall r w2,
      download_gse_dataset env cfg gse_id
        (snd (print (LInfoDataset 1 (Z.of_nat (length gse_ids)) gse_id) w1)) = (Ok r, w2) ->
      run = (Raise match j with
                   | JsonList _ => "list indices must be integers or slices, not str"
                   | _ => "'str' object does not support item assignment"
                   end, w2).
Proof.
  intros Hdisk Hkind gse_ids run.
  assert (Hloaded : loaded_status w = StatusOther j).
  { unfold loaded_status. rewrite Hdisk.
    destruct Hkind as [[items ->]|[s ->]]; reflexivity. }
  destruct (download_multiple_datasets_other env cfg gse_id rest w j Hloaded)
    as (w1 & Ht1 & Hf1 & Hs1 & Hcase).
  assert (Hraise : exists e w2,
    run = (Raise e, w2) /\
    saved_snapshots (trace w2) = saved_snapshots (trace w) /\
    status_disk w2 = status_disk w /\
    forall r w3,
      download_gse_dataset env cfg gse_id
        (snd (print (LInfoDataset 1 (Z.of_nat (length gse_ids)) gse_id) w1)) = (Ok r, w3) ->
      w3 = w2 /\ forall g x, status_setitem (StatusOther j) g x = Raise e).
  { subst run gse_ids.
    destruct (download_gse_dataset env cfg gse_id _) as [[r|e] w2] eqn:Hds.
    - destruct Hcase as (e & He & Hrun). exists e, w2. split; [exact Hrun|].
      destruct (quiet_download_gse_dataset env cfg gse_id _ _ _ Hds) as (_ & Hsd & Hsn).
      cbn [print snd trace status_disk] in Hsd, Hsn.
      split; [congruence|]. split; [congruence|].
      intros r' w3 [= <- <-]. split; [reflexivity|exact He].
    - exists e, w2. split; [exact Hcase|].
      destruct (quiet_download_gse_dataset env cfg gse_id _ _ _ Hds) as (_ & Hsd & Hsn).
      cbn [print snd trace status_disk] in Hsd, Hsn.
      split; [congruence|]. split; [congruence|]. intros r' w3 H. discriminate H. }
  destruct Hraise as (e & w2 & Hrun & Hsn & Hsd & Hupd).
  split; [exists e; rewrite Hrun; reflexivity|].
  split; [rewrite Hrun; exact Hsn|]. split; [rewrite Hrun; exact Hsd|].
  split.
  { unfold main_download, try_except. unfold bind at 1.
    fold gse_ids. fold run. rewrite Hrun. reflexivity. }
  exists w1. split; [exact Ht1|]. split; [exact Hf1|].
  intros r w3 Hds. destruct (Hupd r w3 Hds) as (-> & He).
  rewrite Hrun. f_equal.
  specialize (He gse_id r).
  destruct Hkind as [[items ->]|[s ->]]; cbn in He; injection He as <-; reflexivity.
Qed.

(** The series GSE1 over an empty directory that holds a status file with
    the empty JSON list: the archive is fetched, then the run raises; the
    process exits with status 1 and the status file is as it was. *)
Lemma non_mapping_status_aborts_run_witness :
  let w := init_world ∅ (SfJson (StatusOther (JsonList []))) in
  let run := download_multiple_datasets Scenario.env_gse1 Scenario.cfg_once [ "GSE1" ] w in
  fst run = Raise "list indices must be integers or slices, not str" /\
  file_size (snd run) "downloads/GSE1_RAW.tar" = Some 5 /\
  console (snd (load_download_status w)) = [ LInfoLoaded 0 ] /\
  status_disk (snd run) = SfJson (StatusOther (JsonList [])) /\
  fst (main_download Scenario.env_gse1 Scenario.cfg_once [ "GSE1" ] w) = Ok 1.
Proof.
  intros w run.
  destruct (non_mapping_status_aborts_run Scenario.env_gse1 Scenario.cfg_once "GSE1" []
              w (JsonList []) eq_refl (or_introl (ex_intro _ [] eq_refl)))
    as (_ & _ & Hdisk & Hexit & _).
  split; [vm_compute; reflexivity|]. split; [vm_compute; reflexivity|].
  split; [vm_compute; reflexivity|]. split; [exact Hdisk | exact Hexit].
Defined.

(** A run that returns its summary started from a status that is a
    dictionary. *)
Lemma download_multiple_datasets_done env cfg gse_ids w s w' :
  download_multiple_datasets env cfg gse_ids w = (Ok (RunDone s), w') ->
  exists m0,
    loaded_status w = StatusDict m0 /\
    map dr_gse_id (rs_results s) = gse_ids /\
    download_status w' = StatusDict (status_after m0 (rs_results s)) /\
    saved_snapshots (trace w')
      = saved_snapshots (trace w)
        ++ map (fun j => StatusDict (status_after m0 (take j (rs_results s))))
             (periodic_positions (length gse_ids))
        ++ [ StatusDict (status_after m0 (rs_results s)) ] /\
    rs_total s = Z.of_nat (length (rs_results s)) /\
    rs_completed s = count_status is_completed (rs_results s) /\
    rs_partial s = count_status is_partial (rs_results s) /\
    rs_failed s = count_status is_failed_or_no_raw (rs_results s).
Proof.
  intros Hrun. destruct gse_ids as [|g rest]; [discriminate Hrun|].
  destruct (loaded_status w) as [m0|j] eqn:Hloaded.
  - exists m0. split; [reflexivity|].
    eapply (download_multiple_datasets_run env cfg (g :: rest) w _ _ m0) in Hrun;
      [exact Hrun|discriminate|exact Hloaded].
  - exfalso.
    destruct (download_multiple_datasets_other env cfg g rest w j Hloaded)
      as (w1 & _ & _ & _ & Hcase).
    destruct (download_gse_dataset env cfg g _) as [[r|e] w2].
    + destruct Hcase as (e & _ & Hraise). rewrite Hraise in Hrun. discriminate.
    + rewrite Hcase in Hrun. discriminate.
Qed.

(** ** The run summary *)

Section Summary.

Lemma count_status_cons p r rs :
  count_status p (r :: rs) = (if p (dr_status r) then 1 else 0) + count_status p rs.
Proof.
  unfold count_status. rewrite filter_cons.
  destruct (p (dr_status r)).
  - destruct (decide (true = true)); [|congruence]. cbn [length]. lia.
  - destruct (decide (false = true)); [discriminate|]. lia.
Qed.

Lemma count_status_nonneg p rs : 0 <= count_status p rs.
Proof. unfold count_status. lia. Qed.

Ltac decide_status :=
  repeat match goal with
         | |- context [decide (?a = ?b)] => destruct (decide (a = b)); try congruence
         end.

Lemma with_status_cons status r rs :
  length (with_status status (r :: rs))
  = ((if decide (dr_status r = status) then 1 else 0) + length (with_status status rs))%nat.
Proof.
  unfold with_status. rewrite filter_cons.
  destruct (decide (dr_status r = status)); reflexivity.
Qed.

(** The three counters of the summary against the statuses of the
    results. *)
Lemma count_completed_results rs :
  count_status is_completed rs = Z.of_nat (length (with_status DsCompleted rs)).
Proof.
  induction rs as [|r rs IH]; [reflexivity|].
  rewrite count_status_cons, with_status_cons, IH.
  destruct (dr_status r); cbn; decide_status; lia.
Qed.

Lemma count_partial_results rs :
  count_status is_partial rs = Z.of_nat (length (with_status DsPartial rs)).
Proof.
  induction rs as [|r rs IH]; [reflexivity|].
  rewrite count_status_cons, with_status_cons, IH.
  destruct (dr_status r); cbn; decide_status; lia.
Qed.

Lemma count_failed_results rs :
  count_status is_failed_or_no_raw rs
  = Z.of_nat (length (with_status DsFailed rs))
    + Z.of_nat (length (with_status DsNoRawData rs)).
Proof.
  induction rs as [|r rs IH]; [reflexivity|].
  rewrite count_status_cons, !with_status_cons, IH.
  destruct (dr_status r); cbn; decide_status; lia.
Qed.

Lemma with_status_partition rs :
  (length (with_status DsCompleted rs) + length (with_status DsPartial rs)
   + length (with_status DsFailed rs) + length (with_status DsNoRawData rs)
   = length rs)%nat.
Proof.
  induction rs as [|r rs IH]; [reflexivity|].
  rewrite !with_status_cons. cbn [length]. destruct (dr_status r); cbn; decide_status; lia.
Qed.

Lemma with_status_elem status r rs :
  r ∈ rs -> dr_status r = status -> (1 <= length (with_status status rs))%nat.
Proof.
  intros Hin Hst.
  assert (Hr : r ∈ with_status status rs).
  { unfold with_status. apply list_elem_of_filter. split; assumption. }
  destruct (with_status status rs); [inversion Hr | cbn; lia].
Qed.

End Summary.

(** C10.  In the summary a run returns, [total] is the number of
    identifiers, [completed] and [partial] are the numbers of results with
    these statuses, and [failed] is the number of results whose status is
    [failed] plus the number of those whose status is [no_raw_data]: so
    [completed + partial + failed = total], and a dataset without raw files
    adds one to [failed]. *)
Theorem summary_failed_counts_no_raw_data
    (env : Env) (cfg : Config) (gse_ids : list string) (w : World)
    (s : RunSummary) (w' : World) :
  download_multiple_datasets env cfg gse_ids w = (Ok (RunDone s), w') ->
  let results := rs_results s in
  map dr_gse_id results = gse_ids /\
  rs_total s = Z.of_nat (length gse_ids) /\
  rs_completed s = Z.of_nat (length (with_status DsCompleted results)) /\
  rs_partial s = Z.of_nat (length (with_status DsPartial results)) /\
  rs_failed s
    = Z.of_nat (length (with_status DsFailed results))
      + Z.of_nat (length (with_status DsNoRawData results)) /\
  rs_completed s + rs_partial s + rs_failed s = rs_total s /\
  (forall r, r ∈ results -> dr_status r = DsNoRawData -> 1 <= rs_failed s).
Proof.
  intros Hrun results.
  apply download_multiple_datasets_done in Hrun
    as (m0 & _ & Hids & _ & _ & Htotal & Hc & Hp & Hf).
  fold results in Hids, Htotal, Hc, Hp, Hf.
  rewrite count_completed_results in Hc. rewrite count_partial_results in Hp.
  rewrite count_failed_results in Hf.
  pose proof (with_status_partition results) as Hpart.
  split; [exact Hids|].
  split; [rewrite Htotal, <- Hids, length_map; reflexivity|].
  split; [exact Hc|]. split; [exact Hp|]. split; [exact Hf|].
  split; [rewrite Hc, Hp, Hf, Htotal; lia|].
  intros r Hin Hst. rewrite Hf.
  pose proof (with_status_elem DsNoRawData r results Hin Hst). lia.
Qed.

(** One dataset whose directory lists nothing: [no_raw_data], counted as
    failed. *)
Lemma summary_failed_counts_no_raw_data_witness :
  exists s w',
    download_multiple_datasets Scenario.env_down Scenario.cfg [ "GSE1" ] Scenario.w_empty
      = (Ok (RunDone s), w') /\
    map dr_status (rs_results s) = [ DsNoRawData ] /\
    rs_failed s = 1 /\
    rs_completed s + rs_partial s + rs_failed s = rs_total s.
Proof.
  destruct (download_multiple_datasets Scenario.env_down Scenario.cfg [ "GSE1" ]
              Scenario.w_empty) as [res w'] eqn:Heq.
  assert (Hres : exists s, res = Ok (RunDone s) /\
                           map dr_status (rs_results s) = [ DsNoRawData ]).
  { vm_compute in Heq. injection Heq as <- _. eexists. repeat split. }
  destruct Hres as (s & -> & Hst).
  destruct (summary_failed_counts_no_raw_data _ _ _ _ _ _ Heq)
    as (_ & _ & _ & _ & Hfailed & Hsum & _).
  exists s, w'. split; [reflexivity|]. split; [exact Hst|].
  split; [|exact Hsum].
  rewrite Hfailed.
  destruct (rs_results s) as [|r [|r2 rs]]; try discriminate Hst.
  injection Hst as Hst. unfold with_status. rewrite !filter_cons, !filter_nil, Hst.
  reflexivity.
Defined.

(** ** The exit status *)

(** C9 (code bug).  The series GSE1 ends [partial]: one of its two files
    could not be fetched.  The summary counts no failed dataset, so [main]
    prints its success line and exits with status 0, as it would after a
    run in which every dataset completed. *)
Lemma exit_zero_with_partial_dataset :
  (exists s w',
     download_multiple_datasets Scenario.env_gse1 Scenario.cfg_once [ "GSE1" ]
       Scenario.w_empty = (Ok (RunDone s), w') /\
     map dr_status (rs_results s) = [ DsPartial ] /\
     rs_completed s = 0 /\ rs_partial s = 1 /\ rs_failed s = 0) /\
  fst (main_download Scenario.env_gse1 Scenario.cfg_once [ "GSE1" ] Scenario.w_empty)
    = Ok 0 /\
  last (console (snd (main_download Scenario.env_gse1 Scenario.cfg_once [ "GSE1" ]
                        Scenario.w_empty)))
    = Some LExitSuccess.
Proof.
  split; [|split; vm_compute; reflexivity].
  destruct (download_multiple_datasets Scenario.env_gse1 Scenario.cfg_once [ "GSE1" ]
              Scenario.w_empty) as [res w'] eqn:Heq.
  vm_compute in Heq. injection Heq as <- <-.
  eexists _, _. split; [reflexivity|]. repeat split.
Qed.

(** The exit status is 0 exactly when the summary counts no failed and no
    raw-less dataset; partial datasets do not enter the test. *)
Lemma main_download_exit_status env cfg gse_ids w s w1 :
  download_multiple_datasets env cfg gse_ids w = (Ok (RunDone s), w1) ->
  fst (main_download env cfg gse_ids w)
    = Ok (if count_status is_failed_or_no_raw (rs_results s) =? 0 then 0 else 1).
Proof.
  intros Hrun. unfold main_download, try_except. unfold bind at 1. rewrite Hrun.
  apply download_multiple_datasets_done in Hrun as (_ & _ & _ & _ & _ & _ & _ & _ & Hf).
  unfold bind at 1. unfold lift, summary_of. rewrite Hf.
  destruct (count_status is_failed_or_no_raw (rs_results s) =? 0); [reflexivity|].
  destruct (0 <? rs_completed s); reflexivity.
Qed.

(** ** An unknown expected size *)

Section UnknownSize.

Variables (env : Env) (cfg : Config).

(** With [None] for the expected size, the comparison that follows the
    transfer raises: no attempt succeeds. *)
Lemma download_attempt_unknown_size fn url p w :
  exists e w', download_attempt env cfg fn url p None w = (Raise e, w').
Proof.
  unfold download_attempt. unfold bind at 1.
  destruct (_download_with_progress env cfg url p None w) as [[[]|e] w1].
  - unfold bind at 1. unfold lift. cbn [py_gt]. eauto.
  - eauto.
Qed.

Lemma retry_loop_unknown_size fn url p : forall attempts w r w',
  retry_loop env cfg fn url p None attempts w = (Ok (Some r), w') ->
  fr_status r = FileFailed.
Proof.
  induction attempts as [|a attempts IH]; intros w r w' Hrun.
  - discriminate.
  - cbn [retry_loop] in Hrun. unfold bind at 1 in Hrun. unfold try_result in Hrun.
    destruct (download_attempt_unknown_size fn url p w) as (e & w1 & Hatt).
    rewrite Hatt in Hrun.
    destruct (a <? max_retries cfg).
    + unfold bind at 1 in Hrun.
      destruct (wait_before_retry cfg a e w1) as [[[]|?] w2]; [|discriminate].
      eapply IH. exact Hrun.
    + unfold bind, print, ret in Hrun. injection Hrun as <- _. reflexivity.
Qed.

End UnknownSize.

(** C6 (code bug).  For a RemoteFile whose size probe failed, the wrapper
    never returns a [completed] FileResult: whenever it returns one, its
    status is [failed]. *)
Theorem unknown_size_never_completes
    (env : Env) (cfg : Config) (gse_id : string) (file_info : RemoteFile)
    (w : World) (r : FileResult) (w' : World) :
  rf_size_bytes file_info = None ->
  _download_single_file env cfg gse_id file_info w = (Ok (Some r), w') ->
  fr_status r = FileFailed.
Proof.
  intros Hnone. unfold _download_single_file. unfold bind at 1.
  rewrite already_complete_run, Hnone.
  destruct (fs w !! local_path_of cfg file_info); [discriminate|].
  cbn iota. apply retry_loop_unknown_size.
Qed.

(** The size is unknown, the directory is empty and the server delivers the
    five bytes on every request.  The first transfer returns normally and
    the file is on disk, yet the result after three attempts is [failed]; and
    with a file already in place the wrapper raises before any attempt. *)
Lemma unknown_size_never_completes_witness :
  fst (_download_with_progress Scenario.env_up Scenario.cfg Scenario.raw_tar_url
         "downloads/GSE1_RAW.tar" None Scenario.w_empty) = Ok tt /\
  (exists r w',
     _download_single_file Scenario.env_up Scenario.cfg "GSE1" (Scenario.raw_tar None)
       Scenario.w_empty = (Ok (Some r), w') /\
     fr_status r = FileFailed /\
     fr_error r = Some "'<' not supported between instances of 'int' and 'NoneType'" /\
     file_size w' "downloads/GSE1_RAW.tar" = Some 5) /\
  fst (_download_single_file Scenario.env_up Scenario.cfg "GSE1" (Scenario.raw_tar None)
         (Scenario.w_with Scenario.body5))
    = Raise "'>' not supported between instances of 'NoneType' and 'int'".
Proof.
  split; [vm_compute; reflexivity|]. split; [|vm_compute; reflexivity].
  destruct (_download_single_file Scenario.env_up Scenario.cfg "GSE1"
              (Scenario.raw_tar None) Scenario.w_empty) as [res w'] eqn:Heq.
  assert (Hres : exists r, res = Ok (Some r) /\
            fr_error r = Some "'<' not supported between instances of 'int' and 'NoneType'" /\
            file_size w' "downloads/GSE1_RAW.tar" = Some 5).
  { vm_compute in Heq. injection Heq as <- <-. eexists. repeat split. }
  destruct Hres as (r & -> & Herr & Hsize).
  exists r, w'. split; [reflexivity|].
  split; [|split; assumption].
  exact (unknown_size_never_completes Scenario.env_up Scenario.cfg "GSE1"
           (Scenario.raw_tar None) Scenario.w_empty r w' eq_refl Heq).
Defined.

(** ** Safe names and local paths *)

Section SafeNames.
Import PyStr PyStrFacts.

Lemma fold_replace_cons cs : forall c s,
  fold_left (fun s char => replace_char char "_"%char s) cs (String c s)
  = String (fold_left (fun x char => if Ascii.eqb x char then "_"%char else x) cs c)
           (fold_left (fun s char => replace_char char "_"%char s) cs s).
Proof.
  induction cs as [|ch cs IH]; intros c s; [reflexivity|].
  cbn [fold_left replace_char]. apply IH.
Qed.

Lemma fold_replace_nil cs :
  fold_left (fun s char => replace_char char "_"%char s) cs EmptyString = EmptyString.
Proof. induction cs as [|ch cs IH]; [reflexivity | exact IH]. Qed.

(** The replacement loop works character by character. *)
Lemma replaced_chars (s : string) :
  chars (fold_left (fun s char => replace_char char "_"%char s) unsafe_chars s)
  = map replaced_char (chars s).
Proof.
  induction s as [|c s IH].
  - rewrite fold_replace_nil. reflexivity.
  - rewrite fold_replace_cons. cbn [chars list_ascii_of_string map].
    f_equal. exact IH.
Qed.

Lemma replaced_char_safe c : char_in (replaced_char c) unsafe_chars = false.
Proof. destruct c as [[] [] [] [] [] [] [] []]; vm_compute; reflexivity. Qed.

Lemma replaced_char_fixed c : char_in c unsafe_chars = false -> replaced_char c = c.
Proof.
  destruct c as [[] [] [] [] [] [] [] []]; intros H; vm_compute in H |- *;
    first [reflexivity | discriminate H].
Qed.

Lemma replace_loop_fixed (s : string) :
  Forall (fun c => char_in c unsafe_chars = false) (chars s) ->
  fold_left (fun s char => replace_char char "_"%char s) unsafe_chars s = s.
Proof.
  induction s as [|c s IH]; intros H.
  - apply fold_replace_nil.
  - rewrite fold_replace_cons. cbn [chars list_ascii_of_string] in H.
    apply Forall_cons in H as [Hc Hs].
    fold (replaced_char c). rewrite (replaced_char_fixed c Hc), (IH Hs). reflexivity.
Qed.

Lemma char_in_spec c cs : char_in c cs = true <-> c ∈ cs.
Proof.
  unfold char_in. rewrite existsb_exists. split.
  - intros (x & Hin & Hx). apply Ascii.eqb_eq in Hx. subst x.
    apply list_elem_of_In. exact Hin.
  - intros Hin. exists c. split; [apply list_elem_of_In, Hin | apply Ascii.eqb_refl].
Qed.

(** Stripping keeps a property of all characters. *)
Lemma lstrip_chars (P : ascii -> Prop) cs s :
  Forall P (chars s) -> Forall P (chars (lstrip cs s)).
Proof.
  induction s as [|c s IH]; intros H; [exact H|].
  cbn [lstrip]. destruct (char_in c cs); [|exact H].
  apply IH. cbn [chars list_ascii_of_string] in H. apply Forall_cons in H. tauto.
Qed.

Lemma rstrip_chars (P : ascii -> Prop) cs s :
  Forall P (chars s) -> Forall P (chars (rstrip cs s)).
Proof.
  induction s as [|c s IH]; intros H; [exact H|].
  cbn [chars list_ascii_of_string] in H. apply Forall_cons in H as [Hc Hs].
  specialize (IH Hs). cbn [rstrip].
  destruct (rstrip cs s) as [|y r].
  - destruct (char_in c cs); [constructor|].
    cbn [chars list_ascii_of_string]. constructor; [exact Hc | constructor].
  - cbn [chars list_ascii_of_string]. constructor; [exact Hc | exact IH].
Qed.

Lemma lstrip_head cs s c r : lstrip cs s = String c r -> char_in c cs = false.
Proof.
  induction s as [|x s IH]; cbn [lstrip]; [discriminate|].
  destruct (char_in x cs) eqn:Hx; [exact IH|].
  intros [= <- _]. exact Hx.
Qed.

Lemma rstrip_head cs s c r : rstrip cs s = String c r -> exists r', s = String c r'.
Proof.
  destruct s as [|x s]; cbn [rstrip]; [discriminate|].
  destruct (rstrip cs s); [destruct (char_in x cs); [discriminate|]|];
    intros [= <- _]; eauto.
Qed.

Lemma rstrip_last cs : forall s front c,
  rstrip cs s = front +:+ String c EmptyString -> char_in c cs = false.
Proof.
  induction s as [|x s IH]; intros front c; cbn [rstrip].
  - destruct front; discriminate.
  - destruct (rstrip cs s) as [|y r] eqn:Hr.
    + destruct (char_in x cs) eqn:Hx; [destruct front; discriminate|].
      destruct front as [|f front].
      * rewrite append_nil_l. intros [= <-]. exact Hx.
      * rewrite append_cons. intros [= _ H]. destruct front; discriminate.
    + destruct front as [|f front].
      * rewrite append_nil_l. intros H. discriminate H.
      * rewrite append_cons. intros [= _ H]. eapply IH. exact H.
Qed.

(** A stripped string neither starts nor ends with a stripped character. *)
Lemma strip_ends cs s c :
  char_in c cs = true ->
  startswith (String c EmptyString) (strip cs s) = false /\
  endswith (String c EmptyString) (strip cs s) = false.
Proof.
  intros Hc. unfold strip. split.
  - destruct (startswith _ _) eqn:Hs; [|reflexivity].
    apply startswith_spec in Hs as [t Ht]. rewrite append_cons, append_nil_l in Ht.
    destruct (rstrip_head _ _ _ _ Ht) as [r' Hl].
    apply lstrip_head in Hl. congruence.
  - destruct (endswith _ _) eqn:He; [|reflexivity].
    apply endswith_spec in He as [a Ha].
    apply rstrip_last in Ha. congruence.
Qed.

Lemma rstrip_idem cs s : rstrip cs (rstrip cs s) = rstrip cs s.
Proof.
  induction s as [|x s IH]; [reflexivity|].
  cbn [rstrip]. destruct (rstrip cs s) as [|y r] eqn:Hr.
  - destruct (char_in x cs) eqn:Hx; [reflexivity|].
    cbn [rstrip]. rewrite Hx. reflexivity.
  - cbn [rstrip]. cbn [rstrip] in IH. rewrite IH. reflexivity.
Qed.

Lemma strip_idem cs s : strip cs (strip cs s) = strip cs s.
Proof.
  unfold strip.
  assert (H : lstrip cs (rstrip cs (lstrip cs s)) = rstrip cs (lstrip cs s)).
  { destruct (rstrip cs (lstrip cs s)) as [|c r] eqn:Hr; [reflexivity|].
    destruct (rstrip_head _ _ _ _ Hr) as [r' Hl].
    apply lstrip_head in Hl. cbn [lstrip]. rewrite Hl. reflexivity. }
  rewrite H. apply rstrip_idem.
Qed.

(** The name before the emptiness test. *)
Lemma stripped_name_safe (filename : string) :
  Forall (fun c => char_in c unsafe_chars = false)
    (chars (strip [ "."%char; " "%char ]
              (fold_left (fun s char => replace_char char "_"%char s)
                 unsafe_chars filename))).
Proof.
  unfold strip. apply rstrip_chars, lstrip_chars.
  rewrite replaced_chars. apply Forall_map, Forall_forall.
  intros c _. apply replaced_char_safe.
Qed.

Lemma safe_filename_chars (filename : string) :
  Forall (fun c => char_in c unsafe_chars = false) (chars (safe_filename filename)).
Proof.
  unfold safe_filename. cbv zeta.
  destruct (truthy _); [apply stripped_name_safe|].
  vm_compute. repeat constructor.
Qed.

Lemma safe_filename_ends (filename : string) (c : ascii) :
  c ∈ [ "."%char; " "%char ] ->
  startswith (String c EmptyString) (safe_filename filename) = false /\
  endswith (String c EmptyString) (safe_filename filename) = false.
Proof.
  intros Hc. unfold safe_filename. cbv zeta.
  destruct (truthy _).
  - apply strip_ends, char_in_spec, Hc.
  - apply list_elem_of_In in Hc. cbn in Hc.
    destruct Hc as [<-|[<-|[]]]; split; reflexivity.
Qed.

Lemma safe_filename_nonempty (filename : string) : safe_filename filename <> EmptyString.
Proof.
  unfold safe_filename. cbv zeta.
  destruct (strip _ _) eqn:Hs; cbn [truthy]; discriminate.
Qed.

End SafeNames.

(** X1.  Whatever the remote name, the local name that [safe_filename]
    yields is not empty, holds none of the nine characters of
    [unsafe_chars] (angle brackets, colon, double quote, slash, backslash,
    bar, question mark, star), and neither starts nor ends with a dot or a
    space. *)
Theorem safe_filename_is_safe (filename : string) :
  let name := safe_filename filename in
  name <> EmptyString /\
  Forall (fun c => c ∉ unsafe_chars) (chars name) /\
  (forall c, c ∈ [ "."%char; " "%char ] ->
     PyStr.startswith (String c EmptyString) name = false /\
     PyStr.endswith (String c EmptyString) name = false).
Proof.
  cbv zeta. split; [apply safe_filename_nonempty|]. split.
  - eapply Forall_impl; [apply safe_filename_chars|].
    intros c Hc Hin. apply char_in_spec in Hin. cbv beta in Hc. congruence.
  - apply safe_filename_ends.
Qed.

(** X2.  [safe_filename] is idempotent: a name it produced is left as it
    is, so a file is found again under the same local name. *)
Theorem safe_filename_idempotent (filename : string) :
  safe_filename (safe_filename filename) = safe_filename filename.
Proof.
  unfold safe_filename at 2 3. cbv zeta.
  destruct (PyStr.truthy _) eqn:Ht; [|reflexivity].
  pose proof (stripped_name_safe filename) as Hsafe.
  set (name := PyStr.strip _ _) in *.
  unfold safe_filename. cbv zeta.
  rewrite (replace_loop_fixed name Hsafe).
  subst name. rewrite strip_idem, Ht. reflexivity.
Qed.

(** X3.  The local path of a raw file is the output directory followed by
    the safe name, with one slash between them unless the directory is
    empty or ends with one: the safe name holds no slash and is neither
    [.] nor [..], so [os.path.join] never drops the output directory and
    the path never leaves it. *)
Theorem local_path_inside_output_dir (cfg : Config) (file_info : RemoteFile) :
  let name := safe_filename (rf_filename file_info) in
  let dir := output_dir cfg in
  local_path_of cfg file_info
    = (if negb (PyStr.truthy dir) || PyStr.endswith "/" dir
       then dir +:+ name else dir +:+ "/" +:+ name) /\
  ("/"%char ∉ chars name) /\ name <> "." /\ name <> "..".
Proof.
  cbv zeta.
  pose proof (safe_filename_chars (rf_filename file_info)) as Hsafe.
  pose proof (safe_filename_ends (rf_filename file_info) "."%char) as Hdot.
  set (name := safe_filename (rf_filename file_info)) in *.
  assert (Hslash : "/"%char ∉ chars name).
  { intros Hin. rewrite Forall_forall in Hsafe. specialize (Hsafe _ Hin).
    vm_compute in Hsafe. discriminate Hsafe. }
  split; [|split; [exact Hslash|]].
  - unfold local_path_of, path_join. fold name.
    destruct (PyStr.startswith "/" name) eqn:Hs; [|reflexivity].
    exfalso. apply Hslash.
    apply PyStrFacts.startswith_spec in Hs as [t ->].
    cbn. left.
  - destruct Hdot as [Hstart _]; [left|].
    split; intros Heq; rewrite Heq in Hstart; discriminate Hstart.
Qed.

(** ** Remote Metadata Resolver: what it returns and what it asks for *)

Section Resolver.

Variable env : Env.

(** The size probe never raises: one HEAD request, and the size or [None]. *)
Lemma get_file_size_run url w :
  get_file_size env url w = (Ok (probed_size env url), snd (emit (EvHead url) w)).
Proof.
  unfold get_file_size, probed_size, bind, try_except, lift, py_int, ret.
  cbn [emit snd].
  destruct (env_head env url) as [[cl|]|e]; cbn [truthy_opt]; try reflexivity.
  destruct (PyStr.truthy cl); [|reflexivity].
  destruct (env_int env cl); reflexivity.
Qed.

(** The probing loop in closed form. *)
Lemma probe_raw_files_run suppl names : forall acc w,
  exists w',
    probe_raw_files env suppl names acc w
      = (Ok (acc ++ map (raw_entry env suppl) (filter (fun n => is_raw n = true) names)), w') /\
    trace w' = trace w
      ++ map (fun n => EvHead (suppl +:+ n)) (filter (fun n => is_raw n = true) names) /\
    fs w' = fs w /\ console w' = console w.
Proof.
  induction names as [|n names IH]; intros acc w.
  - exists w. cbn. rewrite !app_nil_r. auto.
  - cbn [probe_raw_files]. rewrite filter_cons.
    destruct (is_raw n) eqn:Hraw.
    + destruct (decide (true = true)); [|congruence].
      unfold bind at 1. rewrite get_file_size_run.
      match goal with |- context [probe_raw_files env suppl names ?a ?w0] =>
        destruct (IH a w0) as (w' & Hrun & Ht & Hfs & Hc)
      end.
      exists w'. rewrite Hrun. cbn [map]. rewrite <- app_assoc.
      split; [reflexivity|]. cbn [emit snd trace fs console] in Ht, Hfs, Hc.
      rewrite Ht, <- app_assoc. auto.
    + destruct (decide (false = true)); [discriminate|]. apply IH.
Qed.

End Resolver.

(** The resolver in closed form. *)
Lemma get_gse_metadata_closed (env : Env) (gse_id : string) (w : World) :
  exists md w',
    get_gse_metadata env gse_id w = (Ok md, w') /\
    md_gse_id md = gse_id /\
    md_has_raw_data md = negb (bool_decide (md_raw_files md = [])) /\
    md_error md = None /\
    md_descr md = catalog_fields (env_describe env gse_id) /\
    fs w' = fs w /\
    match env_listing env (suppl_url gse_id) with
    | Raise e =>
        md_raw_files md = [] /\
        trace w' = trace w ++ [ EvDescribe gse_id; EvList (suppl_url gse_id) ] /\
        console w' = console w
          ++ catalog_warnings gse_id (env_describe env gse_id)
          ++ [ LWarnRawFiles gse_id e ]
    | Ok file_links =>
        md_raw_files md
          = map (raw_entry env (suppl_url gse_id)) (raw_names file_links) /\
        trace w' = trace w
          ++ EvDescribe gse_id :: EvList (suppl_url gse_id)
             :: map (fun name => EvHead (suppl_url gse_id +:+ name))
                  (raw_names file_links) /\
        console w' = console w ++ catalog_warnings gse_id (env_describe env gse_id)
    end.
Proof.
  unfold get_gse_metadata. unfold bind at 1. unfold try_result at 1.
  destruct (catalog_part_run env gse_id w) as (w0 & -> & Ht0 & Hc0 & Hfs0 & _).
  unfold bind at 1. unfold try_result at 1.
  unfold _check_raw_files. unfold bind at 1.
  unfold try_except. unfold bind at 1. unfold emit at 1.
  unfold bind at 1. unfold lift at 1.
  destruct (env_listing env (suppl_url gse_id)) as [links|e].
  - match goal with |- context [probe_raw_files env ?s ?n ?a ?w1] =>
      destruct (probe_raw_files_run env s n a w1) as (w' & Hrun & Ht & Hfs & Hc)
    end.
    rewrite Hrun. cbn [app]. unfold ret.
    eexists _, _. split; [reflexivity|].
    cbn [md_gse_id md_has_raw_data md_raw_files md_error md_descr].
    cbn [trace fs console] in Ht, Hfs, Hc.
    split; [reflexivity|]. split.
    { fold (raw_names links). destruct (map _ (raw_names links)); reflexivity. }
    split; [reflexivity|]. split; [reflexivity|].
    split; [congruence|]. split; [reflexivity|]. split; [|congruence].
    rewrite Ht, Ht0, <- !app_assoc. reflexivity.
  - unfold bind, print, ret. eexists _, _. split; [reflexivity|].
    cbn [md_gse_id md_has_raw_data md_raw_files md_error md_descr trace fs console].
    rewrite Ht0, Hc0, <- !app_assoc. repeat split. exact Hfs0.
Qed.

(** X4.  Resolution never raises, never reports an error and touches no
    file.  A catalog that cannot be reached costs the descriptive fields
    and a warning, nothing else: the directory is listed in every case.
    When the listing cannot be fetched, the failure is only printed: the
    metadata carries no raw file.  Otherwise there is one entry per listed
    name that is kept and classified as raw, in listing order, with the size
    its HEAD probe gave ([None] when the probe failed); the calls made are
    the catalog calls, the listing, and exactly one HEAD per raw file:
    files that are not raw are never probed. *)
Theorem resolver_closed_form (env : Env) (gse_id : string) (w : World) :
  exists md w',
    get_gse_metadata env gse_id w = (Ok md, w') /\
    md_gse_id md = gse_id /\
    md_has_raw_data md = negb (bool_decide (md_raw_files md = [])) /\
    md_error md = None /\
    md_descr md
      = match env_describe env gse_id with
        | CatalogSummary fields _ => fields
        | _ => descr_default
        end /\
    fs w' = fs w /\
    match env_listing env (suppl_url gse_id) with
    | Raise e =>
        md_raw_files md = [] /\
        trace w' = trace w ++ [ EvDescribe gse_id; EvList (suppl_url gse_id) ] /\
        console w' = console w
          ++ catalog_warnings gse_id (env_describe env gse_id)
          ++ [ LWarnRawFiles gse_id e ]
    | Ok file_links =>
        md_raw_files md
          = map (raw_entry env (suppl_url gse_id)) (raw_names file_links) /\
        trace w' = trace w
          ++ EvDescribe gse_id :: EvList (suppl_url gse_id)
             :: map (fun name => EvHead (suppl_url gse_id +:+ name))
                  (raw_names file_links) /\
        console w' = console w ++ catalog_warnings gse_id (env_describe env gse_id)
    end.
Proof. apply get_gse_metadata_closed. Qed.

Section SeriesUrl.
Import PyStrFacts.

Lemma build_geo_url_suppl (gse_id file_name : string) :
  build_geo_url gse_id file_name = suppl_url gse_id +:+ file_name.
Proof.
  unfold build_geo_url, suppl_url. cbv zeta.
  rewrite !append_assoc. reflexivity.
Qed.

Lemma remove_gse_digits (digits : string) :
  Forall (fun c => is_digit c = true) (chars digits) -> remove_gse digits = digits.
Proof.
  induction digits as [|c d IH]; intros H; [reflexivity|].
  cbn [chars list_ascii_of_string] in H. apply Forall_cons in H as [Hc Hd].
  specialize (IH Hd).
  destruct c as [[] [] [] [] [] [] [] []]; try discriminate Hc;
    cbn [remove_gse]; rewrite IH; reflexivity.
Qed.

Lemma suppl_url_digits (digits : string) :
  Forall (fun c => is_digit c = true) (chars digits) ->
  suppl_url ("GSE" +:+ digits)
  = "https://ftp.ncbi.nlm.nih.gov/geo/series/GSE"
      +:+ (if (3 <=? String.length digits)%nat
           then string_take (String.length digits - 3) digits else "0")
      +:+ "nnn/GSE" +:+ digits +:+ "/suppl/".
Proof.
  intros H. unfold suppl_url. cbv zeta.
  change (remove_gse ("GSE" +:+ digits)) with (remove_gse digits).
  rewrite (remove_gse_digits digits H). reflexivity.
Qed.

End SeriesUrl.

(** X5.  The URL the resolver gives to each raw file is the one
    [utils.build_geo_url] builds for the series and the file name.  For a
    series identifier [GSE] followed by digits it is the series root, the
    bucket [GSE<d>nnn] where [<d>] is the digits without the last three
    ([0] when there are fewer than three), the identifier, [suppl] and the
    file name. *)
Theorem raw_file_urls (env : Env) (gse_id : string) (w : World) :
  match fst (get_gse_metadata env gse_id w) with
  | Raise _ => False
  | Ok md =>
      Forall (fun f => rf_url f = build_geo_url gse_id (rf_filename f)) (md_raw_files md) /\
      (forall digits,
         gse_id = "GSE" +:+ digits ->
         Forall (fun c => is_digit c = true) (chars digits) ->
         Forall (fun f =>
                   rf_url f
                   = "https://ftp.ncbi.nlm.nih.gov/geo/series/GSE"
                       +:+ (if (3 <=? String.length digits)%nat
                            then string_take (String.length digits - 3) digits
                            else "0")
                       +:+ "nnn/GSE" +:+ digits +:+ "/suppl/" +:+ rf_filename f)
           (md_raw_files md))
  end.
Proof.
  destruct (get_gse_metadata_closed env gse_id w)
    as (md & w' & Hrun & _ & _ & _ & _ & _ & Hcase).
  rewrite Hrun. cbn [fst].
  assert (Hurl : Forall (fun f => rf_url f = suppl_url gse_id +:+ rf_filename f)
                   (md_raw_files md)).
  { destruct (env_listing env (suppl_url gse_id)) as [links|e].
    - destruct Hcase as (-> & _). apply Forall_map, Forall_forall.
      intros name _. reflexivity.
    - destruct Hcase as (-> & _). constructor. }
  split.
  - eapply Forall_impl; [exact Hurl|]. intros f Hf. cbv beta in Hf.
    rewrite build_geo_url_suppl. exact Hf.
  - intros digits -> Hdigits. eapply Forall_impl; [exact Hurl|].
    intros f Hf. cbv beta in Hf. rewrite Hf, (suppl_url_digits digits Hdigits).
    rewrite !PyStrFacts.append_assoc. reflexivity.
Qed.

(** ** Retry Wrapper: what its results say *)

Section WrapperResults.

Ltac run_monad :=
  unfold bind, ret, raise, lift, try_except, try_result, emit, print, set_fs,
    get_world in *; cbn [fst snd fs trace console status_disk download_status] in *.

Variables (env : Env) (cfg : Config).
Variables (filename file_url local_path : string).

(** With verification on and a positive expected size, an attempt that
    succeeds leaves a file of exactly that size. *)
Lemma download_attempt_verified (e : Z) w r w' :
  verify_integrity cfg = true -> 0 < e ->
  download_attempt env cfg filename file_url local_path (Some e) w = (Ok r, w') ->
  r = completed_result filename local_path (Some e) /\
  file_size w' local_path = Some e.
Proof.
  intros Hv He. unfold download_attempt. unfold bind at 1.
  destruct (_download_with_progress env cfg file_url local_path (Some e) w)
    as [[[]|e0] w1]; [|discriminate].
  unfold bind at 1. unfold lift. cbn [py_gt].
  apply Z.ltb_lt in He. rewrite He, Hv. cbn [andb].
  unfold bind at 1. unfold bind at 1. rewrite verify_file_integrity_run.
  destruct (file_size w1 local_path) as [n|] eqn:Hsize; cbn [py_eq negb].
  - destruct (Z.eqb_spec n e) as [->|Hne]; cbn [negb]; [|discriminate].
    unfold ret at 1. unfold bind at 1. unfold print at 1.
    unfold bind at 1. unfold os_path_getsize.
    unfold file_size in *. cbn [fs]. 
    destruct (fs w1 !! local_path) as [content|] eqn:Hc; [|discriminate].
    cbn [fmap option_fmap option_map] in *. unfold ret.
    intros [= <- <-]. cbn [fs]. rewrite Hc. cbn. injection Hsize as <-. auto.
  - discriminate.
Qed.

(** A result of the loop is the failure report of the last attempt or the
    value of an attempt that succeeded, the loop ending where it did. *)
Lemma retry_loop_result (expected_size : option Z) : forall attempts w r w',
  retry_loop env cfg filename file_url local_path expected_size attempts w
    = (Ok (Some r), w') ->
  (exists e, r = failed_result filename local_path e) \/
  (exists w0, download_attempt env cfg filename file_url local_path expected_size w0
                = (Ok r, w')).
Proof.
  induction attempts as [|a attempts IH]; intros w r w' Hrun; [discriminate|].
  cbn [retry_loop] in Hrun. unfold bind at 1 in Hrun. unfold try_result in Hrun.
  destruct (download_attempt env cfg filename file_url local_path expected_size w)
    as [[res|e] w1] eqn:Hatt.
  - injection Hrun as <- <-. right. exists w. exact Hatt.
  - destruct (a <? max_retries cfg).
    + unfold bind at 1 in Hrun.
      destruct (wait_before_retry cfg a e w1) as [[[]|?] w2]; [|discriminate].
      eapply IH. exact Hrun.
    + run_monad. injection Hrun as <- _. left. eauto.
Qed.

(** With a non-negative wait and at least one attempt to make, the loop
    returns a result. *)
Lemma retry_loop_returns (expected_size : option Z) :
  Qle_bool 0 (retry_delay cfg) = true ->
  forall m a w,
    a + Z.of_nat m = max_retries cfg + 1 -> (0 < m)%nat ->
    exists r w',
      retry_loop env cfg filename file_url local_path expected_size
        (attempts_from a m) w = (Ok (Some r), w').
Proof.
  intros Hdelay. induction m as [|m IH]; intros a w Hidx Hm; [lia|].
  cbn [attempts_from retry_loop]. unfold bind at 1. unfold try_result.
  destruct (download_attempt env cfg filename file_url local_path expected_size w)
    as [[res|e] w1] eqn:Hatt.
  - eexists _, _. reflexivity.
  - destruct (a <? max_retries cfg) eqn:Hlast.
    + apply Z.ltb_lt in Hlast.
      destruct (wait_before_retry_run cfg a e w1 Hdelay) as (w2 & Hwait & _).
      unfold bind at 1. rewrite Hwait. apply IH; lia.
    + run_monad. eexists _, _. reflexivity.
Qed.

(** With at least one attempt to make, the loop never falls out without a
    result: what it returns, if it returns, is a result. *)
Lemma retry_loop_some (expected_size : option Z) :
  forall m a w res w',
    a + Z.of_nat m = max_retries cfg + 1 -> (0 < m)%nat ->
    retry_loop env cfg filename file_url local_path expected_size
      (attempts_from a m) w = (Ok res, w') ->
    exists r, res = Some r.
Proof.
  induction m as [|m IH]; intros a w res w' Hidx Hm; [lia|].
  cbn [attempts_from retry_loop]. unfold bind at 1. unfold try_result.
  destruct (download_attempt env cfg filename file_url local_path expected_size w)
    as [[r|e] w1].
  - intros [= <- _]. eauto.
  - destruct (a <? max_retries cfg) eqn:Hlast.
    + apply Z.ltb_lt in Hlast. unfold bind at 1.
      destruct (wait_before_retry cfg a e w1) as [[[]|e1] w2]; [|discriminate].
      apply IH; lia.
    + run_monad. intros [= <- _]. eauto.
Qed.

End WrapperResults.

Section Wrapper.

Variables (env : Env) (cfg : Config) (gse_id : string) (file_info : RemoteFile).

(** The result of the wrapper names the file and its local path; a
    completed one reports the size of the file on disk, a failed one an
    error text and size 0. *)
Lemma download_single_file_result w r w' :
  _download_single_file env cfg gse_id file_info w = (Ok (Some r), w') ->
  fr_filename r = rf_filename file_info /\
  fr_local_path r = Some (local_path_of cfg file_info) /\
  match fr_status r with
  | FileCompleted =>
      fr_error r = None /\ fr_size_bytes r = file_size w' (local_path_of cfg file_info)
  | FileFailed => (exists msg, fr_error r = Some msg) /\ fr_size_bytes r = Some 0
  end.
Proof.
  unfold _download_single_file. unfold bind at 1.
  rewrite already_complete_run.
  destruct (fs w !! local_path_of cfg file_info) as [content|] eqn:Hfile.
  - destruct (rf_size_bytes file_info) as [e|] eqn:Hsize; [|discriminate].
    destruct ((0 <? e) && (Z.of_nat (length content) =? e)) eqn:Hc.
    + unfold bind, print, ret. intros [= <- <-]. cbn.
      apply andb_true_iff in Hc as [_ Hlen]. apply Z.eqb_eq in Hlen.
      unfold file_size. cbn [fs]. rewrite Hfile. cbn. rewrite Hlen. auto.
    + intros Hrun. apply retry_loop_result in Hrun as [[msg ->] | [w0 Hatt]].
      * cbn. eauto.
      * apply download_attempt_ok in Hatt as (size & -> & Hs). cbn. auto.
  - intros Hrun. apply retry_loop_result in Hrun as [[msg ->] | [w0 Hatt]].
    + cbn. eauto.
    + apply download_attempt_ok in Hatt as (size & -> & Hs). cbn. auto.
Qed.

(** A completed result under verification: the file has the expected size. *)
Lemma download_single_file_verified w r w' (e : Z) :
  verify_integrity cfg = true ->
  rf_size_bytes file_info = Some e -> 0 < e ->
  _download_single_file env cfg gse_id file_info w = (Ok (Some r), w') ->
  fr_status r = FileCompleted ->
  file_size w' (local_path_of cfg file_info) = Some e /\ fr_size_bytes r = Some e.
Proof.
  intros Hv Hsize He. unfold _download_single_file. unfold bind at 1.
  rewrite already_complete_run, Hsize.
  assert (Hloop : forall w0,
    retry_loop env cfg (rf_filename file_info) (rf_url file_info)
      (local_path_of cfg file_info) (Some e) (py_range (max_retries cfg + 1)) w0
      = (Ok (Some r), w') ->
    fr_status r = FileCompleted ->
    file_size w' (local_path_of cfg file_info) = Some e /\ fr_size_bytes r = Some e).
  { intros w0 Hrun Hst. apply retry_loop_result in Hrun as [[msg ->] | [w1 Hatt]].
    - discriminate Hst.
    - apply download_attempt_verified in Hatt as [-> Hs]; auto. }
  destruct (fs w !! local_path_of cfg file_info) as [content|] eqn:Hfile;
    [|apply Hloop].
  destruct ((0 <? e) && (Z.of_nat (length content) =? e)) eqn:Hc; [|apply Hloop].
  unfold bind, print, ret. intros [= <- <-] _. cbn.
  apply andb_true_iff in Hc as [_ Hlen]. apply Z.eqb_eq in Hlen.
  unfold file_size. cbn [fs]. rewrite Hfile. cbn. rewrite Hlen. auto.
Qed.

(** With a retry count that is not negative and a wait that [time.sleep]
    accepts, the wrapper answers with a result, except for an unknown size
    with a file in place. *)
Lemma download_single_file_answers w :
  0 <= max_retries cfg ->
  Qle_bool 0 (retry_delay cfg) = true ->
  match rf_size_bytes file_info, fs w !! local_path_of cfg file_info with
  | None, Some _ =>
      _download_single_file env cfg gse_id file_info w
        = (Raise "'>' not supported between instances of 'NoneType' and 'int'", w)
  | _, _ =>
      exists r w', _download_single_file env cfg gse_id file_info w = (Ok (Some r), w')
  end.
Proof.
  intros Hretries Hwait.
  assert (Hloop : forall w0,
    exists r w',
      retry_loop env cfg (rf_filename file_info) (rf_url file_info)
        (local_path_of cfg file_info) (rf_size_bytes file_info)
        (py_range (max_retries cfg + 1)) w0 = (Ok (Some r), w')).
  { intros w0. unfold py_range.
    replace (Z.to_nat (max_retries cfg + 1)) with (S (Z.to_nat (max_retries cfg))) by lia.
    rewrite py_range_attempts_from. apply retry_loop_returns; [assumption|lia|lia]. }
  destruct (rf_size_bytes file_info) as [e|] eqn:Hsize;
    destruct (fs w !! local_path_of cfg file_info) as [content|] eqn:Hfile;
    unfold _download_single_file; unfold bind at 1;
    rewrite already_complete_run, Hsize, Hfile;
    try reflexivity; try apply Hloop.
  destruct ((0 <? e) && (Z.of_nat (length content) =? e)); [|apply Hloop].
  unfold bind, print, ret. eexists _, _. reflexivity.
Qed.

End Wrapper.

(** X6.  When [max_retries] is not negative and [retry_delay] is a length
    that [time.sleep] accepts (a number of seconds that is not negative),
    the wrapper always answers with a FileResult for the file it was given
    (its name, its local path; a completed one without error and with the
    size of the file on disk, a failed one with an error text and size 0).
    The one exception is a file whose size is unknown while a file is
    already in place: the comparison [expected_size > 0] then raises before
    any attempt. *)
Theorem wrapper_always_answers
    (env : Env) (cfg : Config) (gse_id : string) (file_info : RemoteFile) (w : World) :
  0 <= max_retries cfg ->
  Qle_bool 0 (retry_delay cfg) = true ->
  match rf_size_bytes file_info, fs w !! local_path_of cfg file_info with
  | None, Some _ =>
      _download_single_file env cfg gse_id file_info w
        = (Raise "'>' not supported between instances of 'NoneType' and 'int'", w)
  | _, _ =>
      exists r w',
        _download_single_file env cfg gse_id file_info w = (Ok (Some r), w') /\
        fr_filename r = rf_filename file_info /\
        fr_local_path r = Some (local_path_of cfg file_info) /\
        match fr_status r with
        | FileCompleted =>
            fr_error r = None /\
            fr_size_bytes r = file_size w' (local_path_of cfg file_info)
        | FileFailed => (exists msg, fr_error r = Some msg) /\ fr_size_bytes r = Some 0
        end
  end.
Proof.
  intros Hretries Hwait.
  pose proof (download_single_file_answers env cfg gse_id file_info w Hretries Hwait)
    as H.
  destruct (rf_size_bytes file_info) as [e|];
    destruct (fs w !! local_path_of cfg file_info) as [content|];
    try exact H;
    destruct H as (r & w' & Hrun); exists r, w'; (split; [exact Hrun|]);
    eapply download_single_file_result; exact Hrun.
Qed.

(** Every remote end is down and nothing is in place: after three attempts
    the wrapper answers with a failed result. *)
Lemma wrapper_always_answers_witness :
  exists r w',
    _download_single_file Scenario.env_down Scenario.cfg "GSE1"
      (Scenario.raw_tar (Some 5)) Scenario.w_empty = (Ok (Some r), w') /\
    fr_filename r = "GSE1_RAW.tar" /\
    fr_local_path r = Some "downloads/GSE1_RAW.tar" /\
    match fr_status r with
    | FileCompleted =>
        fr_error r = None /\ fr_size_bytes r = file_size w' "downloads/GSE1_RAW.tar"
    | FileFailed => (exists msg, fr_error r = Some msg) /\ fr_size_bytes r = Some 0
    end.
Proof.
  exact (wrapper_always_answers Scenario.env_down Scenario.cfg "GSE1"
           (Scenario.raw_tar (Some 5)) Scenario.w_empty ltac:(vm_compute; discriminate)
           eq_refl).
Defined.

(** X7.  With integrity verification on and a known, positive expected
    size, a result with status [completed] means that the file at the local
    path has exactly the expected size, and that size is the one reported,
    whether the file was found in place or transferred. *)
Theorem completed_file_has_expected_size
    (env : Env) (cfg : Config) (gse_id : string) (file_info : RemoteFile)
    (w : World) (r : FileResult) (w' : World) (expected : Z) :
  verify_integrity cfg = true ->
  rf_size_bytes file_info = Some expected ->
  0 < expected ->
  _download_single_file env cfg gse_id file_info w = (Ok (Some r), w') ->
  fr_status r = FileCompleted ->
  file_size w' (local_path_of cfg file_info) = Some expected /\
  fr_size_bytes r = Some expected.
Proof. apply download_single_file_verified. Qed.

(** The third attempt delivers the five bytes: five bytes are on disk. *)
Lemma completed_file_has_expected_size_witness :
  exists r w',
    _download_single_file Scenario.env_third_try Scenario.cfg "GSE1"
      (Scenario.raw_tar (Some 5)) Scenario.w_empty = (Ok (Some r), w') /\
    fr_status r = FileCompleted /\
    file_size w' "downloads/GSE1_RAW.tar" = Some 5 /\
    fr_size_bytes r = Some 5.
Proof.
  destruct (_download_single_file Scenario.env_third_try Scenario.cfg "GSE1"
              (Scenario.raw_tar (Some 5)) Scenario.w_empty) as [res w'] eqn:Heq.
  assert (Hres : exists r, res = Ok (Some r) /\ fr_status r = FileCompleted).
  { vm_compute in Heq. injection Heq as <- <-. eexists. split; reflexivity. }
  destruct Hres as (r & -> & Hst).
  exists r, w'. split; [reflexivity|]. split; [exact Hst|].
  exact (completed_file_has_expected_size Scenario.env_third_try Scenario.cfg "GSE1"
           (Scenario.raw_tar (Some 5)) Scenario.w_empty r w' 5
           eq_refl eq_refl eq_refl Heq Hst).
Defined.

(** X8.  Under the same conditions a completed file is not fetched again:
    called once more on the world the first call left, with any remote ends,
    the wrapper answers [completed] with the expected size at once, records
    no event and changes no file. *)
Theorem completed_file_is_not_fetched_again
    (env : Env) (cfg : Config) (gse_id : string) (file_info : RemoteFile)
    (w : World) (r : FileResult) (w' : World) (expected : Z) :
  verify_integrity cfg = true ->
  rf_size_bytes file_info = Some expected ->
  0 < expected ->
  _download_single_file env cfg gse_id file_info w = (Ok (Some r), w') ->
  fr_status r = FileCompleted ->
  forall (env2 : Env) (gse_id2 : string),
  exists w2,
    _download_single_file env2 cfg gse_id2 file_info w'
      = (Ok (Some (completed_result (rf_filename file_info)
                     (local_path_of cfg file_info) (Some expected))), w2) /\
    trace w2 = trace w' /\ fs w2 = fs w'.
Proof.
  intros Hv Hsize He Hrun Hst env2 gse_id2.
  destruct (download_single_file_verified env cfg gse_id file_info w r w' expected
              Hv Hsize He Hrun Hst) as [Hfile _].
  unfold file_size in Hfile.
  destruct (fs w' !! local_path_of cfg file_info) as [content|] eqn:Hc;
    [|discriminate Hfile].
  cbn in Hfile. injection Hfile as Hlen.
  unfold _download_single_file. unfold bind at 1.
  rewrite already_complete_run, Hc, Hsize.
  apply Z.ltb_lt in He. rewrite He, Hlen, Z.eqb_refl. cbn [andb].
  unfold bind, print, ret. eexists. split; [reflexivity|]. cbn. auto.
Qed.

(** After the transfer that succeeded at the third attempt, a second call
    with every remote end down answers [completed] without any event. *)
Lemma completed_file_is_not_fetched_again_witness :
  exists r w' w2,
    _download_single_file Scenario.env_third_try Scenario.cfg "GSE1"
      (Scenario.raw_tar (Some 5)) Scenario.w_empty = (Ok (Some r), w') /\
    _download_single_file Scenario.env_down Scenario.cfg "GSE1"
      (Scenario.raw_tar (Some 5)) w'
      = (Ok (Some (completed_result "GSE1_RAW.tar" "downloads/GSE1_RAW.tar" (Some 5))), w2) /\
    trace w2 = trace w'.
Proof.
  destruct (_download_single_file Scenario.env_third_try Scenario.cfg "GSE1"
              (Scenario.raw_tar (Some 5)) Scenario.w_empty) as [res w'] eqn:Heq.
  assert (Hres : exists r, res = Ok (Some r) /\ fr_status r = FileCompleted).
  { vm_compute in Heq. injection Heq as <- <-. eexists. split; reflexivity. }
  destruct Hres as (r & -> & Hst).
  destruct (completed_file_is_not_fetched_again Scenario.env_third_try Scenario.cfg
              "GSE1" (Scenario.raw_tar (Some 5)) Scenario.w_empty r w' 5
              eq_refl eq_refl eq_refl Heq Hst Scenario.env_down "GSE1")
    as (w2 & Hrun2 & Htrace & _).
  exists r, w', w2. split; [reflexivity|]. split; [exact Hrun2 | exact Htrace].
Defined.

(** ** Which files a run writes *)

Section Frame.

Lemma writes_only_kept {A} (P : string -> Prop) (m : M A) :
  (forall w, fs (snd (m w)) = fs w) -> writes_only P m.
Proof.
  intros H w r w' Hrun p. specialize (H w). rewrite Hrun in H. cbn [snd] in H.
  rewrite H. auto.
Qed.

Lemma writes_only_weaken {A} (P Q : string -> Prop) (m : M A) :
  (forall p, P p -> Q p) -> writes_only P m -> writes_only Q m.
Proof.
  intros HPQ Hm w r w' Hrun p. destruct (Hm w r w' Hrun p) as [H1 H2].
  split; [|exact H2]. intros Hp. apply H1. intros HP. apply Hp, HPQ, HP.
Qed.

Lemma writes_only_bind {A B} P (m : M A) (k : A -> M B) :
  writes_only P m -> (forall a, writes_only P (k a)) -> writes_only P (bind m k).
Proof.
  intros Hm Hk w r w'. unfold bind.
  destruct (m w) as [[a|e] w1] eqn:Hrun.
  - intros Hrun2 p. destruct (Hm _ _ _ Hrun p) as [H1 H2].
    destruct (Hk a _ _ _ Hrun2 p) as [H3 H4].
    split; [intros Hp; rewrite H3, H1 by exact Hp; reflexivity | auto].
  - intros [= <- <-]. exact (Hm _ _ _ Hrun).
Qed.

Lemma writes_only_try_except {A} P (m : M A) (h : string -> M A) :
  writes_only P m -> (forall e, writes_only P (h e)) -> writes_only P (try_except m h).
Proof.
  intros Hm Hh w r w'. unfold try_except.
  destruct (m w) as [[a|e] w1] eqn:Hrun.
  - intros [= <- <-]. exact (Hm _ _ _ Hrun).
  - intros Hrun2 p. destruct (Hm _ _ _ Hrun p) as [H1 H2].
    destruct (Hh e _ _ _ Hrun2 p) as [H3 H4].
    split; [intros Hp; rewrite H3, H1 by exact Hp; reflexivity | auto].
Qed.

Lemma writes_only_try_result {A} P (m : M A) :
  writes_only P m -> writes_only P (try_result m).
Proof.
  intros Hm w r w'. unfold try_result.
  destruct (m w) as [a w1] eqn:Hrun. intros [= <- <-]. exact (Hm _ _ _ Hrun).
Qed.

Lemma writes_only_ret {A} P (a : A) : writes_only P (ret a).
Proof. apply writes_only_kept. reflexivity. Qed.

Lemma writes_only_raise {A} P (e : string) : writes_only P (@raise A e).
Proof. apply writes_only_kept. reflexivity. Qed.

Lemma writes_only_lift {A} P (x : pyresult A) : writes_only P (lift x).
Proof. apply writes_only_kept. reflexivity. Qed.

Lemma writes_only_print P l : writes_only P (print l).
Proof. apply writes_only_kept. reflexivity. Qed.

Lemma writes_only_emit P e : writes_only P (emit e).
Proof. apply writes_only_kept. reflexivity. Qed.

Lemma writes_only_get_world P : writes_only P get_world.
Proof. apply writes_only_kept. reflexivity. Qed.

Lemma writes_only_set_status_disk P sf : writes_only P (set_status_disk sf).
Proof. apply writes_only_kept. reflexivity. Qed.

Lemma writes_only_set_download_status P m : writes_only P (set_download_status m).
Proof. apply writes_only_kept. reflexivity. Qed.

Lemma writes_only_os_path_exists P p : writes_only P (os_path_exists p).
Proof. apply writes_only_kept. reflexivity. Qed.

Lemma writes_only_os_path_getsize P p : writes_only P (os_path_getsize p).
Proof.
  apply writes_only_kept. intros w. unfold os_path_getsize.
  destruct (file_size w p); reflexivity.
Qed.

Lemma writes_only_time_sleep P d : writes_only P (time_sleep d).
Proof.
  apply writes_only_kept. intros w. unfold time_sleep.
  destruct (Qle_bool 0 d); reflexivity.
Qed.

Lemma writes_only_time_time P env : writes_only P (time_time env).
Proof. apply writes_only_kept. reflexivity. Qed.

Lemma writes_only_urlopen P env req : writes_only P (urlopen env req).
Proof.
  apply writes_only_kept. intros w. unfold urlopen, emit.
  destruct (env_get env _ req); reflexivity.
Qed.

(** The stream goes to the local path and nowhere else. *)
Lemma writes_only_write_stream (P : string -> Prop) cfg path append resp :
  P path -> writes_only P (write_stream cfg path append resp).
Proof.
  intros HP w r w'. unfold write_stream, set_fs.
  destruct (read_loop _ _ _ _ _) as [r0 content]. intros [= <- <-] p. cbn [fs].
  split.
  - intros Hp. apply lookup_insert_ne. intros ->. contradiction.
  - intros Hsome. destruct (decide (path = p)) as [->|Hne].
    + rewrite lookup_insert_eq. eauto.
    + rewrite lookup_insert_ne by exact Hne. exact Hsome.
Qed.

Ltac frame_step :=
  first
    [ assumption
    | match goal with H : forall _, writes_only _ _ |- _ => apply H end
    | match goal with H : forall _ _, writes_only _ _ |- _ => apply H end
    | apply writes_only_ret | apply writes_only_raise | apply writes_only_lift
    | apply writes_only_print | apply writes_only_emit | apply writes_only_get_world
    | apply writes_only_set_status_disk | apply writes_only_set_download_status
    | apply writes_only_os_path_exists | apply writes_only_os_path_getsize
    | apply writes_only_time_sleep | apply writes_only_time_time
    | apply writes_only_urlopen
    | apply writes_only_try_result
    | apply writes_only_bind; [|intros ?]
    | apply writes_only_try_except; [|intros ?]
    | match goal with
      | |- writes_only _ (if ?b then _ else _) => destruct b
      | |- writes_only _ (match ?x with _ => _ end) => destruct x
      | |- writes_only _ (let (_, _) := ?x in _) => destruct x
      end ].

Ltac frame_auto := repeat frame_step.

Variable P : string -> Prop.

Lemma writes_only_verify_file_integrity p e : writes_only P (verify_file_integrity p e).
Proof. unfold verify_file_integrity. frame_auto. Qed.

Lemma writes_only_get_file_size env url : writes_only P (get_file_size env url).
Proof. unfold get_file_size. frame_auto. Qed.

Lemma writes_only_download_with_progress env cfg url path e :
  P path -> writes_only P (_download_with_progress env cfg url path e).
Proof.
  intros HP. pose proof (writes_only_write_stream P cfg path) as Hw.
  unfold _download_with_progress, resume_decision.
  frame_auto; apply Hw; exact HP.
Qed.

(** When no GET is answered, the transfer unit raises before it opens the
    local file. *)
Lemma writes_only_download_with_progress_unreachable env cfg url path e :
  (forall k req, exists msg, env_get env k req = NetError msg) ->
  writes_only P (_download_with_progress env cfg url path e).
Proof.
  intros Hdown. unfold _download_with_progress, resume_decision.
  apply writes_only_bind; [apply writes_only_emit|intros _].
  apply writes_only_bind; [frame_auto|intros [resume_pos append]].
  apply writes_only_kept. intros w. unfold bind, urlopen, emit.
  destruct (Hdown (length (filter (fun ev => is_get ev = true) (trace w)))
              (build_request url resume_pos)) as [msg ->].
  reflexivity.
Qed.

(** The layers above the transfer unit write what it writes. *)
Section Above.

Variables (env : Env) (cfg : Config).

Let transfer_inside := transfers_write_only P env cfg.

Lemma writes_only_download_attempt fn url path e :
  writes_only P (_download_with_progress env cfg url path e) ->
  writes_only P (download_attempt env cfg fn url path e).
Proof.
  intros Hdwp. unfold download_attempt.
  pose proof (writes_only_verify_file_integrity path e).
  frame_auto.
Qed.

Lemma writes_only_retry_loop fn url path e attempts :
  writes_only P (_download_with_progress env cfg url path e) ->
  writes_only P (retry_loop env cfg fn url path e attempts).
Proof.
  intros Hdwp. pose proof (writes_only_download_attempt fn url path e Hdwp).
  induction attempts as [|a attempts IH]; cbn [retry_loop];
    unfold wait_before_retry; frame_auto.
Qed.

Lemma writes_only_download_single_file gse_id fi :
  transfer_inside fi -> writes_only P (_download_single_file env cfg gse_id fi).
Proof.
  intros Hdwp. unfold _download_single_file, already_complete.
  pose proof (writes_only_retry_loop (rf_filename fi) (rf_url fi)
                (local_path_of cfg fi) (rf_size_bytes fi)
                (py_range (max_retries cfg + 1)) Hdwp).
  pose proof (writes_only_verify_file_integrity (local_path_of cfg fi) (rf_size_bytes fi)).
  frame_auto.
Qed.

Lemma writes_only_sequential_loop gse_id n files :
  Forall transfer_inside files ->
  forall i acc, writes_only P (sequential_loop env cfg gse_id n i files acc).
Proof.
  induction 1 as [|fi files Hfi _ IH]; intros i acc; cbn [sequential_loop].
  - frame_auto.
  - pose proof (writes_only_download_single_file gse_id fi Hfi).
    frame_auto.
Qed.

Lemma writes_only_collect_completed gse_id raw_files :
  Forall transfer_inside raw_files ->
  forall order acc, writes_only P (collect_completed env cfg gse_id raw_files order acc).
Proof.
  intros Hall. induction order as [|k order IH]; intros acc; cbn [collect_completed].
  - frame_auto.
  - destruct (raw_files !! k) as [fi|] eqn:Hk; [|apply IH].
    assert (Hfi : transfer_inside fi).
    { rewrite Forall_forall in Hall. apply Hall. eapply list_elem_of_lookup_2. exact Hk. }
    pose proof (writes_only_download_single_file gse_id fi Hfi).
    frame_auto.
Qed.

Lemma writes_only_probe_raw_files suppl names : forall acc,
  writes_only P (probe_raw_files env suppl names acc).
Proof.
  induction names as [|nm names IH]; intros acc; cbn [probe_raw_files].
  - frame_auto.
  - destruct (is_raw nm); [|apply IH].
    pose proof (writes_only_get_file_size env (suppl +:+ nm)).
    frame_auto.
Qed.

Lemma writes_only_get_gse_metadata gse_id : writes_only P (get_gse_metadata env gse_id).
Proof.
  unfold get_gse_metadata, _fetch_gse_summary, _parse_gse_summary, metadata_error,
    _check_raw_files.
  pose proof (fun names => writes_only_probe_raw_files (suppl_url gse_id) names []).
  frame_auto.
Qed.

Lemma writes_only_save_download_status : writes_only P (save_download_status env).
Proof. unfold save_download_status. frame_auto. Qed.

Lemma writes_only_load_download_status : writes_only P load_download_status.
Proof. unfold load_download_status. frame_auto. Qed.

(** The run, when the transfers for every file the resolver lists write
    inside [P]. *)
Hypothesis listed_inside : forall gse_id w md w',
  get_gse_metadata env gse_id w = (Ok md, w') ->
  Forall transfer_inside (md_raw_files md).

Lemma writes_only_download_gse_dataset gse_id :
  writes_only P (download_gse_dataset env cfg gse_id).
Proof.
  intros w r w'. unfold download_gse_dataset. unfold bind at 1. unfold print at 1.
  unfold bind at 1.
  destruct (get_gse_metadata env gse_id _) as [[md|e] w1] eqn:Hmd.
  - pose proof (listed_inside _ _ _ _ Hmd) as Hraw.
    pose proof (writes_only_get_gse_metadata gse_id _ _ _ Hmd) as Hframe1.
    cbn [fs] in Hframe1.
    assert (Hrest : writes_only P
      (if truthy_opt (md_error md) then
         ret {| dr_gse_id := gse_id; dr_status := DsFailed;
                dr_error := md_error md; dr_files := []; dr_metadata := None |}
       else if negb (md_has_raw_data md) then
         ret {| dr_gse_id := gse_id; dr_status := DsNoRawData;
                dr_error := Some "No raw data files found"; dr_files := [];
                dr_metadata := None |}
       else
         let* download_results :=
           (if parallel cfg && (1 <? length (md_raw_files md))%nat
            then _download_files_parallel env cfg gse_id (md_raw_files md)
            else _download_files_sequential env cfg gse_id (md_raw_files md)) in
         let* files := lift (subscript_all download_results) in
         ret {| dr_gse_id := gse_id;
                dr_status := overall_status (count_completed files)
                               (Z.of_nat (length files));
                dr_error := None; dr_files := files; dr_metadata := Some md |})).
    { destruct (truthy_opt (md_error md)); [apply writes_only_ret|].
      destruct (negb (md_has_raw_data md)); [apply writes_only_ret|].
      apply writes_only_bind.
      - destruct (parallel cfg && (1 <? length (md_raw_files md))%nat).
        + unfold _download_files_parallel.
          apply writes_only_bind; [apply writes_only_print|intros _].
          apply writes_only_bind.
          * destruct (workers cfg <=? 0); [apply writes_only_raise|apply writes_only_ret].
          * intros _. apply writes_only_collect_completed. exact Hraw.
        + apply writes_only_sequential_loop. exact Hraw.
      - intros results. apply writes_only_bind; [apply writes_only_lift|].
        intros files. apply writes_only_ret. }
    intros Hrun p. destruct (Hrest _ _ _ Hrun p) as [H1 H2].
    destruct (Hframe1 p) as [H3 H4].
    split; [intros Hp; rewrite H1, H3 by exact Hp; reflexivity | auto].
  - intros [= <- <-].
    exact (writes_only_get_gse_metadata gse_id _ _ _ Hmd).
Qed.

Lemma writes_only_datasets_loop n : forall gse_ids i acc,
  writes_only P (datasets_loop env cfg n i gse_ids acc).
Proof.
  induction gse_ids as [|gse_id rest IH]; intros i acc; cbn [datasets_loop].
  - apply writes_only_ret.
  - apply writes_only_bind; [apply writes_only_print|intros _].
    apply writes_only_bind; [apply writes_only_download_gse_dataset|intros result].
    apply writes_only_bind; [apply writes_only_get_world|intros w0].
    apply writes_only_bind; [apply writes_only_lift|intros status].
    apply writes_only_bind; [apply writes_only_set_download_status|intros _].
    apply writes_only_bind; [|intros _; apply IH].
    destruct (i mod 5 =? 0);
      [apply writes_only_save_download_status | apply writes_only_ret].
Qed.

Lemma writes_only_download_multiple_datasets gse_ids :
  writes_only P (download_multiple_datasets env cfg gse_ids).
Proof.
  unfold download_multiple_datasets.
  destruct gse_ids as [|g rest]; [apply writes_only_ret|].
  apply writes_only_bind; [apply writes_only_print|intros _].
  apply writes_only_bind;
    [destruct (parallel cfg); [apply writes_only_print|apply writes_only_ret]|intros _].
  apply writes_only_bind; [apply writes_only_load_download_status|intros _].
  apply writes_only_bind; [apply writes_only_time_time|intros t0].
  apply writes_only_bind; [apply writes_only_datasets_loop|intros results].
  apply writes_only_bind; [apply writes_only_save_download_status|intros _].
  apply writes_only_bind; [apply writes_only_time_time|intros t1].
  apply writes_only_bind; [apply writes_only_print|intros _].
  apply writes_only_ret.
Qed.

End Above.

End Frame.

Section RunFrame.

Variables (env : Env) (cfg : Config).

(** Every entry the resolver lists has a name that classifies as raw. *)
Lemma get_gse_metadata_raw_paths gse_id w md w' :
  get_gse_metadata env gse_id w = (Ok md, w') ->
  Forall (fun fi => raw_local_path cfg (local_path_of cfg fi)) (md_raw_files md).
Proof.
  intros Hrun.
  destruct (get_gse_metadata_closed env gse_id w)
    as (md0 & w0 & Hrun0 & _ & _ & _ & _ & _ & Hcase).
  rewrite Hrun in Hrun0. injection Hrun0 as <- <-.
  destruct (env_listing env (suppl_url gse_id)) as [links|e].
  - destruct Hcase as (-> & _). apply Forall_map, Forall_forall.
    intros name Hname. exists name. split; [|reflexivity].
    unfold raw_names in Hname. apply list_elem_of_filter in Hname. tauto.
  - destruct Hcase as (-> & _). constructor.
Qed.

Lemma run_writes_raw_local_paths gse_ids :
  writes_only (raw_local_path cfg) (download_multiple_datasets env cfg gse_ids).
Proof.
  apply writes_only_download_multiple_datasets.
  intros gse_id w md w' Hmd.
  eapply Forall_impl; [exact (get_gse_metadata_raw_paths gse_id w md w' Hmd)|].
  intros fi Hfi. apply writes_only_download_with_progress. exact Hfi.
Qed.

Lemma run_unreachable_writes_nothing gse_ids :
  (forall k req, exists msg, env_get env k req = NetError msg) ->
  writes_only (fun _ => False) (download_multiple_datasets env cfg gse_ids).
Proof.
  intros Hdown. apply writes_only_download_multiple_datasets.
  intros gse_id w md w' _. apply Forall_forall. intros fi _.
  apply writes_only_download_with_progress_unreachable. exact Hdown.
Qed.

End RunFrame.

(** *** The status file among the files of the output directory *)

Section StatusPath.
Import PyStr PyStrFacts.

Lemma chars_app (a b : string) : chars (a +:+ b) = chars a ++ chars b.
Proof.
  induction a as [|c a IH]; [reflexivity|].
  rewrite append_cons. unfold chars in *. cbn [list_ascii_of_string app].
  f_equal. exact IH.
Qed.

Lemma chars_lower (s : string) : chars (lower s) = map lower_char (chars s).
Proof.
  induction s as [|c s IH]; [reflexivity|].
  unfold chars in *. cbn [list_ascii_of_string lower map]. f_equal. exact IH.
Qed.

Lemma occurs_in_chars (k s : string) (c : ascii) :
  occurs_in k s -> c ∈ chars k -> c ∈ chars s.
Proof.
  intros (a & b & ->) Hc. rewrite !chars_app, !elem_of_app. auto.
Qed.

(** Every keyword holds one of the marking letters. *)
Lemma keyword_has_mark (keyword : string) :
  keyword ∈ raw_keywords ->
  exists c, c ∈ chars keyword /\ keyword_mark c = true.
Proof.
  intros H. apply list_elem_of_In in H. cbn in H.
  repeat (destruct H as [<-|H]); try contradiction;
    first [ exists "r"%char; split; [apply list_elem_of_In; cbn; tauto | reflexivity]
          | exists "i"%char; split; [apply list_elem_of_In; cbn; tauto | reflexivity]
          | exists "c"%char; split; [apply list_elem_of_In; cbn; tauto | reflexivity]
          | exists "f"%char; split; [apply list_elem_of_In; cbn; tauto | reflexivity]
          | exists "b"%char; split; [apply list_elem_of_In; cbn; tauto | reflexivity]
          | exists "g"%char; split; [apply list_elem_of_In; cbn; tauto | reflexivity] ].
Qed.

Lemma keyword_mark_lower c : keyword_mark (lower_char c) = keyword_mark c.
Proof. unfold keyword_mark. rewrite lower_char_idem. reflexivity. Qed.

(** A name that classifies as raw holds a marking letter. *)
Lemma raw_name_has_mark (name : string) :
  is_raw name = true -> Exists (fun c => keyword_mark c = true) (chars name).
Proof.
  intros Hraw. apply is_raw_spec in Hraw.
  assert (Hkey : exists keyword,
    keyword ∈ raw_keywords /\ occurs_in keyword (lower name)).
  { destruct Hraw as [H|H]; [exact H|].
    exists "raw". split; [apply list_elem_of_In; cbn; tauto|].
    apply raw_pattern_subsumed. exact H. }
  destruct Hkey as (keyword & Hin & Hocc).
  destruct (keyword_has_mark keyword Hin) as (c & Hc & Hmark).
  pose proof (occurs_in_chars _ _ _ Hocc Hc) as Hname.
  rewrite chars_lower in Hname. apply list_elem_of_In, in_map_iff in Hname.
  destruct Hname as (x & <- & Hx). apply Exists_exists.
  exists x. split; [apply list_elem_of_In; exact Hx|].
  rewrite <- keyword_mark_lower. exact Hmark.
Qed.

(** What the two strips remove are characters of their set. *)
Lemma lstrip_back cs s :
  Forall (fun c => char_in c cs = true \/ c ∈ chars (lstrip cs s)) (chars s).
Proof.
  induction s as [|x s IH]; [constructor|].
  cbn [lstrip]. destruct (char_in x cs) eqn:Hx.
  - cbn [chars list_ascii_of_string]. constructor; [left; exact Hx | exact IH].
  - apply Forall_forall. intros c Hc. right. exact Hc.
Qed.

Lemma rstrip_back cs s :
  Forall (fun c => char_in c cs = true \/ c ∈ chars (rstrip cs s)) (chars s).
Proof.
  induction s as [|x s IH]; [constructor|].
  cbn [rstrip chars list_ascii_of_string].
  destruct (rstrip cs s) as [|y r] eqn:Hr.
  - assert (Hall : Forall (fun c => char_in c cs = true) (chars s)).
    { eapply Forall_impl; [exact IH|]. intros c [H|H]; [exact H | inversion H]. }
    destruct (char_in x cs) eqn:Hx.
    + constructor; [left; exact Hx|].
      eapply Forall_impl; [exact Hall|]. intros c H. left. exact H.
    + constructor; [right; left|].
      eapply Forall_impl; [exact Hall|]. intros c H. left. exact H.
  - constructor; [right; left|].
    eapply Forall_impl; [exact IH|]. intros c [H|H]; [left; exact H|].
    right. right. exact H.
Qed.

Lemma strip_back cs s :
  Forall (fun c => char_in c cs = true \/ c ∈ chars (strip cs s)) (chars s).
Proof.
  unfold strip. apply Forall_forall. intros c Hc.
  pose proof (lstrip_back cs s) as Hl. rewrite Forall_forall in Hl.
  destruct (Hl c Hc) as [H|H]; [left; exact H|].
  pose proof (rstrip_back cs (lstrip cs s)) as Hr. rewrite Forall_forall in Hr.
  exact (Hr c H).
Qed.

(** A marking letter is not replaced, is not stripped, and does not occur
    in the name of the status file. *)
Lemma keyword_mark_kept c :
  keyword_mark c = true ->
  replaced_char c = c /\ char_in c [ "."%char; " "%char ] = false /\
  char_in c (chars "download_status.json") = false.
Proof.
  destruct c as [[] [] [] [] [] [] [] []]; intros H; vm_compute in H |- *;
    first [discriminate H | repeat split].
Qed.

(** No name that classifies as raw has the name of the status file for a
    safe name. *)
Lemma safe_filename_is_not_status (name : string) :
  is_raw name = true -> safe_filename name <> "download_status.json".
Proof.
  intros Hraw Hsafe. apply raw_name_has_mark in Hraw.
  apply Exists_exists in Hraw as (c & Hc & Hmark).
  destruct (keyword_mark_kept c Hmark) as (Hrep & Hstrip & Hstatus).
  unfold safe_filename in Hsafe. cbv zeta in Hsafe.
  set (replaced := fold_left (fun s char => replace_char char "_"%char s)
                     unsafe_chars name) in Hsafe.
  destruct (truthy (strip [ "."%char; " "%char ] replaced)); [|discriminate Hsafe].
  assert (Hin : c ∈ chars replaced).
  { subst replaced. rewrite replaced_chars. rewrite <- Hrep.
    apply list_elem_of_In, in_map, list_elem_of_In. exact Hc. }
  pose proof (strip_back [ "."%char; " "%char ] replaced) as Hback.
  rewrite Forall_forall in Hback. destruct (Hback c Hin) as [H|H].
  - congruence.
  - rewrite Hsafe in H. apply char_in_spec in H. congruence.
Qed.

Lemma path_join_inj dir a b :
  startswith "/" a = false -> startswith "/" b = false ->
  path_join dir a = path_join dir b -> a = b.
Proof.
  intros Ha Hb. unfold path_join. rewrite Ha, Hb.
  assert (Hcancel : forall p x y, p +:+ x = p +:+ y -> x = y).
  { induction p as [|c p IH]; intros x y H; [exact H|].
    rewrite !append_cons in H. injection H as H. apply IH. exact H. }
  destruct (negb (truthy dir) || endswith "/" dir); intros H.
  - eapply Hcancel. exact H.
  - apply Hcancel in H. eapply (Hcancel "/"). exact H.
Qed.

Lemma status_path_is_no_raw_local_path (cfg : Config) :
  ~ raw_local_path cfg (status_path cfg).
Proof.
  intros (name & Hraw & Hpath). unfold status_path in Hpath.
  apply path_join_inj in Hpath; [|reflexivity|].
  - eapply safe_filename_is_not_status; [exact Hraw|]. symmetry. exact Hpath.
  - pose proof (safe_filename_chars name) as Hsafe.
    destruct (safe_filename name) as [|c r]; [reflexivity|].
    cbn [chars list_ascii_of_string] in Hsafe. apply Forall_cons in Hsafe as [Hc _].
    cbn [startswith]. destruct (Ascii.eqb_spec "/"%char c) as [<-|]; [|reflexivity].
    vm_compute in Hc. discriminate Hc.
Qed.

End StatusPath.

(** *** The status file is written by the status writes only *)

Section StatusWrites.

Variable env : Env.

Lemma status_file_after_app k a b sf :
  status_file_after env k (a ++ b) sf
  = status_file_after env (k + length a) b (status_file_after env k a sf).
Proof.
  revert k sf. induction a as [|x a IH]; intros k sf.
  - cbn. rewrite Nat.add_0_r. reflexivity.
  - cbn [app status_file_after length]. rewrite IH. f_equal. lia.
Qed.

Lemma by_saves_kept {A} (m : M A) :
  (forall w, status_disk (snd (m w)) = status_disk w /\
             saved_snapshots (trace (snd (m w))) = saved_snapshots (trace w)) ->
  writes_status_by_saves env m.
Proof.
  intros H w r w' Hrun. destruct (H w) as [H1 H2]. rewrite Hrun in H1, H2.
  cbn [snd] in H1, H2. exists []. rewrite app_nil_r. auto.
Qed.

Lemma by_saves_quiet {A} (m : M A) : quiet m -> writes_status_by_saves env m.
Proof.
  intros Hq w r w' Hrun. destruct (Hq w r w' Hrun) as (_ & H1 & H2).
  exists []. rewrite app_nil_r. auto.
Qed.

Lemma by_saves_bind {A B} (m : M A) (k : A -> M B) :
  writes_status_by_saves env m -> (forall a, writes_status_by_saves env (k a)) ->
  writes_status_by_saves env (bind m k).
Proof.
  intros Hm Hk w r w'. unfold bind.
  destruct (m w) as [[a|e] w1] eqn:Hrun.
  - intros Hrun2. destruct (Hm _ _ _ Hrun) as (s1 & Ht1 & Hd1).
    destruct (Hk a _ _ _ Hrun2) as (s2 & Ht2 & Hd2).
    exists (s1 ++ s2). rewrite Ht2, Ht1, <- app_assoc. split; [reflexivity|].
    rewrite Hd2, Hd1, Ht1, length_app, status_file_after_app. reflexivity.
  - intros [= <- <-]. exact (Hm _ _ _ Hrun).
Qed.

Lemma by_saves_save_download_status :
  writes_status_by_saves env (save_download_status env).
Proof.
  intros w r w' Hrun.
  destruct (save_download_status_run env w) as (w1 & Hrun1 & Ht & _ & _ & Hcase).
  rewrite Hrun in Hrun1. injection Hrun1 as _ <-.
  exists [ download_status w ]. rewrite Ht, saved_snapshots_app.
  split; [reflexivity|]. cbn [status_file_after].
  rewrite saved_snapshots_length.
  destruct (env_save env _); tauto.
Qed.

Lemma by_saves_load_download_status : writes_status_by_saves env load_download_status.
Proof.
  apply by_saves_kept. intros w.
  destruct (load_download_status_run w) as (w1 & -> & _ & Ht & Hd & _).
  cbn [snd]. rewrite Ht, Hd. auto.
Qed.

Lemma by_saves_datasets_loop cfg n : forall gse_ids i acc,
  writes_status_by_saves env (datasets_loop env cfg n i gse_ids acc).
Proof.
  induction gse_ids as [|gse_id rest IH]; intros i acc; cbn [datasets_loop].
  - apply by_saves_quiet, quiet_ret.
  - apply by_saves_bind; [apply by_saves_quiet, quiet_print|intros _].
    apply by_saves_bind;
      [apply by_saves_quiet, quiet_download_gse_dataset|intros result].
    apply by_saves_bind; [apply by_saves_kept; intros w; auto|intros w0].
    apply by_saves_bind; [apply by_saves_quiet, quiet_lift|intros status].
    apply by_saves_bind; [apply by_saves_kept; intros w; auto|intros _].
    apply by_saves_bind; [|intros _; apply IH].
    destruct (i mod 5 =? 0);
      [apply by_saves_save_download_status | apply by_saves_quiet, quiet_ret].
Qed.

Lemma by_saves_download_multiple_datasets cfg gse_ids :
  writes_status_by_saves env (download_multiple_datasets env cfg gse_ids).
Proof.
  unfold download_multiple_datasets.
  destruct gse_ids as [|g rest]; [apply by_saves_quiet, quiet_ret|].
  apply by_saves_bind; [apply by_saves_quiet, quiet_print|intros _].
  apply by_saves_bind;
    [destruct (parallel cfg); apply by_saves_quiet;
       [apply quiet_print|apply quiet_ret]|intros _].
  apply by_saves_bind; [apply by_saves_load_download_status|intros _].
  apply by_saves_bind; [apply by_saves_kept; intros w; auto|intros t0].
  apply by_saves_bind; [apply by_saves_datasets_loop|intros results].
  apply by_saves_bind; [apply by_saves_save_download_status|intros _].
  apply by_saves_bind; [apply by_saves_kept; intros w; auto|intros t1].
  apply by_saves_bind; [apply by_saves_quiet, quiet_print|intros _].
  apply by_saves_quiet, quiet_ret.
Qed.

End StatusWrites.

(** A status file that is there stays there, whatever the writes do. *)
Lemma status_file_after_present env snapshots : forall k sf,
  sf <> SfAbsent -> status_file_after env k snapshots sf <> SfAbsent.
Proof.
  induction snapshots as [|snapshot rest IH]; intros k sf Hsf; cbn [status_file_after].
  - exact Hsf.
  - apply IH. destruct (env_save env k); [discriminate | exact Hsf | discriminate].
Qed.

(** X9.  A whole run, whatever its outcome, removes no file and writes
    nothing but local paths of raw files and the status file.  Of the
    paths other than the status file [download_status.json] of the output
    directory, every one that held a file still holds one, and every one
    that is not the output directory joined with the safe name of some name
    classified as raw holds after the run what it held before.  The status
    file, which is no such path, holds what the status writes recorded
    during the run have made of it, one after the other; if it was there
    before the run, it is there after it. *)
Theorem run_writes_only_raw_files
    (env : Env) (cfg : Config) (gse_ids : list string) (w : World) :
  let w' := snd (download_multiple_datasets env cfg gse_ids w) in
  (forall p, p <> status_path cfg -> is_Some (fs w !! p) -> is_Some (fs w' !! p)) /\
  (forall p,
     p <> status_path cfg ->
     ~ (exists name, is_raw name = true /\
                     p = path_join (output_dir cfg) (safe_filename name)) ->
     fs w' !! p = fs w !! p) /\
  status_path cfg = path_join (output_dir cfg) "download_status.json" /\
  ~ (exists name, is_raw name = true /\
                  status_path cfg = path_join (output_dir cfg) (safe_filename name)) /\
  (exists snapshots,
     saved_snapshots (trace w') = saved_snapshots (trace w) ++ snapshots /\
     status_disk w'
       = status_file_after env (length (saved_snapshots (trace w))) snapshots
           (status_disk w)) /\
  (status_disk w <> SfAbsent -> status_disk w' <> SfAbsent).
Proof.
  cbv zeta.
  destruct (download_multiple_datasets env cfg gse_ids w) as [r w'] eqn:Hrun.
  cbn [snd].
  pose proof (run_writes_raw_local_paths env cfg gse_ids w r w' Hrun) as H.
  pose proof (by_saves_download_multiple_datasets env cfg gse_ids w r w' Hrun)
    as (snapshots & Hsnaps & Hdisk).
  split; [intros p _; destruct (H p) as [_ H2]; exact H2|].
  split; [intros p _; destruct (H p) as [H1 _]; exact H1|].
  split; [reflexivity|].
  split; [exact (status_path_is_no_raw_local_path cfg)|].
  split; [exists snapshots; split; [exact Hsnaps | exact Hdisk]|].
  intros Hthere. rewrite Hdisk. apply status_file_after_present. exact Hthere.
Qed.

(** X10.  Processing one dataset (resolution, dispatch, every attempt and
    wait) leaves the run status alone, whatever its outcome: the in-memory
    status mapping and the status file are as before and no status write is
    recorded.  Only the orchestrator's loop changes them. *)
Theorem dataset_processing_leaves_status_alone
    (env : Env) (cfg : Config) (gse_id : string) (w : World) :
  let w' := snd (download_gse_dataset env cfg gse_id w) in
  download_status w' = download_status w /\
  status_disk w' = status_disk w /\
  saved_snapshots (trace w') = saved_snapshots (trace w).
Proof.
  cbv zeta.
  destruct (download_gse_dataset env cfg gse_id w) as [r w'] eqn:Hrun.
  exact (quiet_download_gse_dataset env cfg gse_id w r w' Hrun).
Qed.

(** X11.  When no GET is answered (every [urlopen] for a transfer raises),
    a whole run leaves every file but the status file exactly as it was: no
    download is created, truncated or extended, so what an earlier run left
    in place, complete or partial, is still there for the next one.  The
    status file is written as in any run: it holds what the status writes
    recorded during the run have made of it. *)
Theorem unreachable_server_leaves_files_untouched
    (env : Env) (cfg : Config) (gse_ids : list string) (w : World) :
  (forall k req, exists msg, env_get env k req = NetError msg) ->
  let w' := snd (download_multiple_datasets env cfg gse_ids w) in
  (forall p, p <> status_path cfg -> fs w' !! p = fs w !! p) /\
  exists snapshots,
    saved_snapshots (trace w') = saved_snapshots (trace w) ++ snapshots /\
    status_disk w'
      = status_file_after env (length (saved_snapshots (trace w))) snapshots
          (status_disk w).
Proof.
  intros Hdown. cbv zeta.
  destruct (download_multiple_datasets env cfg gse_ids w) as [r w'] eqn:Hrun.
  cbn [snd]. split.
  - intros p _.
    destruct (run_unreachable_writes_nothing env cfg gse_ids Hdown w r w' Hrun p)
      as [H _].
    apply H. tauto.
  - exact (by_saves_download_multiple_datasets env cfg gse_ids w r w' Hrun).
Qed.

(** The series GSE1 with two bytes of its archive in place and every GET
    timing out: the two bytes stay, and the status file, absent before,
    holds the entry of the failed dataset. *)
Lemma unreachable_server_leaves_files_untouched_witness :
  let env := Scenario.with_get Scenario.env_gse1 (fun _ _ => NetError "timed out") in
  let w := Scenario.w_with [ Byte.x01; Byte.x02 ] in
  let w' := snd (download_multiple_datasets env Scenario.cfg_once [ "GSE1" ] w) in
  fs w' !! "downloads/GSE1_RAW.tar" = Some [ Byte.x01; Byte.x02 ] /\
  status_disk w = SfAbsent /\
  exists m r,
    status_disk w' = SfJson (StatusDict m) /\
    m !! "GSE1" = Some r /\ dr_status r = DsFailed.
Proof.
  intros env w w'.
  destruct (unreachable_server_leaves_files_untouched env Scenario.cfg_once [ "GSE1" ] w)
    as (Hfs & _).
  { intros k req. exists "timed out". reflexivity. }
  split; [rewrite Hfs; [reflexivity | discriminate]|]. split; [reflexivity|].
  assert (H : match status_disk w' with
              | SfJson (StatusDict m) =>
                  match m !! "GSE1" with
                  | Some r => dr_status r
                  | None => DsCompleted
                  end
              | _ => DsCompleted
              end = DsFailed)
    by (vm_compute; reflexivity).
  destruct (status_disk w') as [| |[m|]]; try discriminate H.
  destruct (m !! "GSE1") as [r|] eqn:Hr; [|discriminate H].
  exists m, r. auto.
Defined.

(** ** Dispatch: order of the results, and when a dataset returns *)

Section DispatchResults.

Variables (env : Env) (cfg : Config) (gse_id : string).

(** A positive delay is a wait that [time.sleep] accepts. *)
Lemma positive_delay_accepted (d : Q) : Qle_bool d 0 = false -> Qle_bool 0 d = true.
Proof.
  intros H. apply Qle_bool_iff, Qlt_le_weak, Qnot_le_lt.
  intros Hle. apply Qle_bool_iff in Hle. congruence.
Qed.

(** The pause between two files never raises and touches no file. *)
Lemma pause_between_files_run (i n : Z) w :
  exists w1,
    (if (i <? n) && negb (Qle_bool (delay cfg) 0) then time_sleep (delay cfg)
     else ret tt) w = (Ok tt, w1) /\
    fs w1 = fs w /\
    filter (fun ev => is_transfer ev = true) (trace w1)
      = filter (fun ev => is_transfer ev = true) (trace w).
Proof.
  destruct ((i <? n) && negb (Qle_bool (delay cfg) 0)) eqn:Hc.
  - apply andb_true_iff in Hc as [_ Hd]. apply negb_true_iff in Hd.
    unfold time_sleep. rewrite (positive_delay_accepted _ Hd).
    eexists. split; [reflexivity|]. cbn. rewrite filter_app. cbn.
    rewrite app_nil_r. auto.
  - eexists. split; [reflexivity|]. auto.
Qed.

(** Sequential mode keeps, position by position, what the wrapper returned
    for the file at that position. *)
Lemma sequential_loop_kept (n : Z) : forall files i acc w results w',
  sequential_loop env cfg gse_id n i files acc w = (Ok results, w') ->
  exists new,
    results = acc ++ new /\
    Forall2 (kept_for_worker env cfg gse_id) files new.
Proof.
  induction files as [|fi files IH]; intros i acc w results w' Hrun.
  - cbn in Hrun. injection Hrun as <- <-. exists []. rewrite app_nil_r.
    split; [reflexivity|constructor].
  - cbn [sequential_loop] in Hrun. unfold bind at 1 in Hrun. unfold print at 1 in Hrun.
    unfold bind at 1 in Hrun.
    destruct (_download_single_file env cfg gse_id fi _) as [[res|e] w1] eqn:Hfile;
      [|discriminate].
    unfold bind at 1 in Hrun.
    destruct (pause_between_files_run i n w1) as (w2 & Hpause & _).
    rewrite Hpause in Hrun.
    apply IH in Hrun as (new & -> & Hkept).
    exists (res :: new). rewrite <- app_assoc. split; [reflexivity|].
    constructor; [|exact Hkept]. left. eauto.
Qed.

Lemma subscript_all_some results files :
  subscript_all results = Ok files -> results = map Some files.
Proof.
  revert files. induction results as [|[r|] results IH]; intros files H; cbn in H.
  - injection H as <-. reflexivity.
  - destruct (subscript_all results) as [rs|e]; [|discriminate].
    injection H as <-. cbn. f_equal. apply IH. reflexivity.
  - discriminate.
Qed.

Lemma subscript_all_map_some files : subscript_all (map Some files) = Ok files.
Proof.
  induction files as [|f files IH]; [reflexivity|].
  cbn. rewrite IH. reflexivity.
Qed.

(** What the dispatcher keeps for a worker carries the name of its file. *)
Lemma kept_for_worker_name fi r :
  kept_for_worker env cfg gse_id fi (Some r) -> fr_filename r = rf_filename fi.
Proof.
  intros [(w1 & w2 & Hrun) | (w1 & w2 & e & _ & Heq)].
  - apply download_single_file_result in Hrun. tauto.
  - injection Heq as ->. reflexivity.
Qed.

Lemma kept_names : forall done files,
  Forall2 (kept_for_worker env cfg gse_id) done (map Some files) ->
  map fr_filename files = map rf_filename done.
Proof.
  induction done as [|fi done IH]; intros files H.
  - destruct files; [reflexivity|]. inversion H.
  - destruct files as [|f files]; [inversion H|].
    cbn [map] in H. apply Forall2_cons in H as [Hf Hrest].
    cbn [map]. f_equal; [apply kept_for_worker_name, Hf | apply IH, Hrest].
Qed.

(** With a negative [max_retries] and nothing in place, the wrapper makes
    no attempt and falls out of its loop. *)
Lemma download_single_file_no_attempt fi w :
  max_retries cfg < 0 ->
  fs w !! local_path_of cfg fi = None ->
  _download_single_file env cfg gse_id fi w = (Ok None, w).
Proof.
  intros Hneg Hnone. unfold _download_single_file. unfold bind at 1.
  rewrite already_complete_run, Hnone. cbn iota.
  unfold py_range. replace (Z.to_nat (max_retries cfg + 1)) with 0%nat by lia.
  reflexivity.
Qed.

Lemma sequential_loop_no_attempt (n : Z) :
  max_retries cfg < 0 ->
  forall files i acc w,
    Forall (fun fi => fs w !! local_path_of cfg fi = None) files ->
    exists w',
      sequential_loop env cfg gse_id n i files acc w
        = (Ok (acc ++ map (fun _ => None) files), w') /\
      filter (fun ev => is_transfer ev = true) (trace w')
        = filter (fun ev => is_transfer ev = true) (trace w).
Proof.
  intros Hneg. induction files as [|fi files IH]; intros i acc w Hall.
  - exists w. cbn. rewrite app_nil_r. auto.
  - apply Forall_cons in Hall as [Hfi Hrest].
    cbn [sequential_loop]. unfold bind at 1. unfold print at 1. unfold bind at 1.
    rewrite download_single_file_no_attempt by (cbn [fs]; assumption).
    unfold bind at 1.
    match goal with |- context [(if _ then _ else _) ?w0] =>
      destruct (pause_between_files_run i n w0) as (w2 & Hpause & Hfs & Ht)
    end.
    rewrite Hpause. cbn [fs trace] in Hfs, Ht.
    destruct (IH (i + 1) (acc ++ [None]) w2) as (w' & Hrun & Ht').
    { rewrite Hfs. exact Hrest. }
    exists w'. rewrite Hrun, <- app_assoc. split; [reflexivity|].
    rewrite Ht', Ht. reflexivity.
Qed.

(** When [max_retries] is not negative, a worker that returns, returns a
    result. *)
Lemma download_single_file_some fi w res w' :
  0 <= max_retries cfg ->
  _download_single_file env cfg gse_id fi w = (Ok res, w') ->
  exists r, res = Some r.
Proof.
  intros Hretries. unfold _download_single_file. unfold bind at 1.
  destruct (already_complete (local_path_of cfg fi) (rf_size_bytes fi) w)
    as [[[]|e] w0]; [| |discriminate].
  - unfold bind, print, ret. intros [= <- _]. eauto.
  - unfold py_range.
    replace (Z.to_nat (max_retries cfg + 1)) with (S (Z.to_nat (max_retries cfg))) by lia.
    rewrite py_range_attempts_from. apply retry_loop_some; lia.
Qed.

Lemma kept_for_worker_some fi res :
  0 <= max_retries cfg -> kept_for_worker env cfg gse_id fi res -> exists r, res = Some r.
Proof.
  intros Hretries [(w1 & w2 & Hrun) | (w1 & w2 & e & _ & ->)]; [|eauto].
  eapply download_single_file_some; eassumption.
Qed.

Lemma kept_all_some : forall done results,
  0 <= max_retries cfg ->
  Forall2 (kept_for_worker env cfg gse_id) done results ->
  exists files, results = map Some files.
Proof.
  intros done results Hretries H. induction H as [|fi res done results Hk _ IH].
  - exists []. reflexivity.
  - destruct IH as (files & ->).
    destruct (kept_for_worker_some fi res Hretries Hk) as (r & ->).
    exists (r :: files). reflexivity.
Qed.

(** Sequential mode returns when every size is known. *)
Lemma sequential_loop_returns (n : Z) :
  0 <= max_retries cfg ->
  Qle_bool 0 (retry_delay cfg) = true ->
  forall files i acc w,
    Forall (fun fi => is_Some (rf_size_bytes fi)) files ->
    exists results w', sequential_loop env cfg gse_id n i files acc w = (Ok results, w').
Proof.
  intros Hretries Hwait. induction files as [|fi files IH]; intros i acc w Hall.
  - eexists _, _. reflexivity.
  - apply Forall_cons in Hall as [[e He] Hrest].
    cbn [sequential_loop]. unfold bind at 1. unfold print at 1. unfold bind at 1.
    match goal with |- context [_download_single_file env cfg gse_id fi ?w0] =>
      pose proof (download_single_file_answers env cfg gse_id fi w0 Hretries Hwait) as Hans
    end.
    rewrite He in Hans. destruct Hans as (r & w1 & Hrun). rewrite Hrun.
    unfold bind at 1.
    destruct (pause_between_files_run i n w1) as (w2 & Hpause & _).
    rewrite Hpause. apply IH. exact Hrest.
Qed.

End DispatchResults.

Section DatasetFiles.

Variables (env : Env) (cfg : Config) (gse_id : string).

(** Parallel mode keeps one entry per file, in completion order. *)
Lemma download_files_parallel_kept raw_files w results w' :
  _download_files_parallel env cfg gse_id raw_files w = (Ok results, w') ->
  Forall2 (kept_for_worker env cfg gse_id)
    (omap (fun k => raw_files !! k) (env_completed env (length raw_files))) results.
Proof.
  unfold _download_files_parallel. unfold bind at 1. unfold print at 1.
  unfold bind at 1.
  destruct (workers cfg <=? 0); [discriminate|]. unfold ret at 1.
  match goal with |- context [collect_completed _ _ _ _ ?o ?a ?w0] =>
    destruct (collect_completed_kept env cfg gse_id raw_files o a w0)
      as (new & w3 & Hrun & Hkept)
  end.
  rewrite Hrun. intros [= <- <-]. exact Hkept.
Qed.

(** With a pool of at least one worker, parallel mode never raises. *)
Lemma download_files_parallel_returns raw_files w :
  1 <= workers cfg ->
  exists results w', _download_files_parallel env cfg gse_id raw_files w = (Ok results, w').
Proof.
  intros Hw. unfold _download_files_parallel. unfold bind at 1. unfold print at 1.
  unfold bind at 1.
  destruct (workers cfg <=? 0) eqn:Hle; [apply Z.leb_le in Hle; lia|]. unfold ret at 1.
  match goal with |- context [collect_completed _ _ _ _ ?o ?a ?w0] =>
    destruct (collect_completed_kept env cfg gse_id raw_files o a w0)
      as (new & w3 & Hrun & _)
  end.
  rewrite Hrun. eauto.
Qed.

(** The three ways [download_gse_dataset] ends, with the dispatch made
    explicit. *)
Lemma download_gse_dataset_cases w r w' :
  download_gse_dataset env cfg gse_id w = (Ok r, w') ->
  exists md w1,
    get_gse_metadata env gse_id (snd (print (LInfoProcessing gse_id) w)) = (Ok md, w1) /\
    ((dr_metadata r = None /\ dr_files r = []) \/
     (dr_metadata r = Some md /\
      exists results w2,
        (if parallel cfg && (1 <? length (md_raw_files md))%nat
         then _download_files_parallel env cfg gse_id (md_raw_files md)
         else _download_files_sequential env cfg gse_id (md_raw_files md)) w1
          = (Ok results, w2) /\
        subscript_all results = Ok (dr_files r))).
Proof.
  unfold download_gse_dataset. unfold bind at 1. unfold print at 1.
  unfold bind at 1. cbn [print snd].
  destruct (get_gse_metadata env gse_id _) as [[md|e] w1]; [|discriminate].
  intros Hrun. exists md, w1. split; [reflexivity|].
  destruct (truthy_opt (md_error md)); [injection Hrun as <- _; left; auto|].
  destruct (negb (md_has_raw_data md)); [injection Hrun as <- _; left; auto|].
  unfold bind at 1 in Hrun.
  destruct ((if parallel cfg && (1 <? length (md_raw_files md))%nat
             then _download_files_parallel env cfg gse_id (md_raw_files md)
             else _download_files_sequential env cfg gse_id (md_raw_files md)) w1)
    as [[results|e] w2]; [|discriminate].
  unfold bind at 1 in Hrun. unfold lift in Hrun.
  destruct (subscript_all results) as [files|e] eqn:Hsub; [|discriminate].
  injection Hrun as <- _. right. cbn. split; [reflexivity|]. eauto.
Qed.

End DatasetFiles.

(** X12.  The FileResults of a dataset are those of its raw files: with
    every submitted task of the pool completing once, the names in the
    [files] entry are the names of the resolver's raw files, each once, and
    in sequential dispatch (parallel mode off, or a single raw file) they
    come in listing order. *)
Theorem dataset_files_follow_raw_files
    (env : Env) (cfg : Config) (gse_id : string) (w : World)
    (r : DatasetResult) (w' : World) (md : Metadata) :
  (forall n, env_completed env n ≡ₚ seq 0 n) ->
  download_gse_dataset env cfg gse_id w = (Ok r, w') ->
  dr_metadata r = Some md ->
  map fr_filename (dr_files r) ≡ₚ map rf_filename (md_raw_files md) /\
  (parallel cfg && (1 <? length (md_raw_files md))%nat = false ->
   map fr_filename (dr_files r) = map rf_filename (md_raw_files md)).
Proof.
  intros Hpool Hrun Hmd.
  apply download_gse_dataset_cases in Hrun as (md0 & w1 & _ & Hcase).
  destruct Hcase as [[Hnone _] | (Hsome & results & w2 & Hdispatch & Hsub)];
    [congruence|].
  rewrite Hsome in Hmd. injection Hmd as ->.
  apply subscript_all_some in Hsub. subst results.
  destruct (parallel cfg && (1 <? length (md_raw_files md))%nat).
  - split; [|discriminate].
    apply download_files_parallel_kept in Hdispatch.
    apply kept_names in Hdispatch. rewrite Hdispatch.
    apply Permutation_map.
    rewrite <- (omap_lookup_seq (md_raw_files md)) at 2.
    apply omap_permutation, Hpool.
  - unfold _download_files_sequential in Hdispatch.
    apply sequential_loop_kept in Hdispatch as (new & Hnew & Hkept).
    cbn [app] in Hnew. subst new. apply kept_names in Hkept.
    rewrite Hkept. split; [reflexivity|]. intros _. reflexivity.
Qed.

(** The series GSE1, one attempt per file: the archive, then the signal
    file. *)
Lemma dataset_files_follow_raw_files_witness :
  exists r w' md,
    download_gse_dataset Scenario.env_gse1 Scenario.cfg_once "GSE1" Scenario.w_empty
      = (Ok r, w') /\
    dr_metadata r = Some md /\
    map rf_filename (md_raw_files md) = [ "GSE1_RAW.tar"; "GSE1_signal.txt" ] /\
    map fr_filename (dr_files r) = map rf_filename (md_raw_files md).
Proof.
  destruct (download_gse_dataset Scenario.env_gse1 Scenario.cfg_once "GSE1"
              Scenario.w_empty) as [res w'] eqn:Heq.
  assert (Hres : exists r md, res = Ok r /\ dr_metadata r = Some md /\
            map rf_filename (md_raw_files md) = [ "GSE1_RAW.tar"; "GSE1_signal.txt" ]).
  { vm_compute in Heq. injection Heq as <- <-. eexists _, _.
    split; [reflexivity|]. split; reflexivity. }
  destruct Hres as (r & md & -> & Hmd & Hnames).
  exists r, w', md. split; [reflexivity|]. split; [exact Hmd|]. split; [exact Hnames|].
  destruct (dataset_files_follow_raw_files Scenario.env_gse1 Scenario.cfg_once "GSE1"
              Scenario.w_empty r w' md (fun n => Permutation_refl (seq 0 n)) Heq Hmd)
    as [_ Hseq].
  apply Hseq. reflexivity.
Defined.

(** X13.  The engine does not check its configuration.  With a negative
    [max_retries], in sequential mode, for a series whose raw files are not
    yet in place, the wrapper makes no attempt and falls out of its loop
    without a result, and the processing of the dataset raises
    ['NoneType' object is not subscriptable] instead of reporting a failed
    dataset. *)
Theorem negative_max_retries_crashes_dataset
    (env : Env) (cfg : Config) (gse_id : string) (w : World)
    (file_links : list (string * string)) :
  max_retries cfg < 0 ->
  parallel cfg = false ->
  env_listing env (suppl_url gse_id) = Ok file_links ->
  raw_names file_links <> [] ->
  Forall (fun name => fs w !! path_join (output_dir cfg) (safe_filename name) = None)
    (raw_names file_links) ->
  let run := download_gse_dataset env cfg gse_id w in
  fst run = Raise "'NoneType' object is not subscriptable" /\
  filter (fun ev => is_transfer ev = true) (trace (snd run))
    = filter (fun ev => is_transfer ev = true) (trace w).
Proof.
  intros Hneg Hseq Hlist Hne Hnone. cbv zeta.
  cut (exists w2,
         download_gse_dataset env cfg gse_id w
           = (Raise "'NoneType' object is not subscriptable", w2) /\
         filter (fun ev => is_transfer ev = true) (trace w2)
           = filter (fun ev => is_transfer ev = true) (trace w)).
  { intros (w2 & -> & Ht). split; [reflexivity | exact Ht]. }
  unfold download_gse_dataset. unfold bind at 1. unfold print at 1.
  unfold bind at 1.
  match goal with |- context [get_gse_metadata env gse_id ?w0] =>
    destruct (get_gse_metadata_closed env gse_id w0)
      as (md & w1 & Hmd & _ & Hhas & Herr & _ & Hfs & Hcase)
  end.
  rewrite Hmd. rewrite Hlist in Hcase.
  destruct Hcase as (Hfiles & Htrace & _).
  cbn [fs trace] in Hfs, Htrace.
  rewrite Herr. cbn [truthy_opt]. rewrite Hhas, Hfiles.
  destruct (raw_names file_links) as [|name names] eqn:Hnames; [contradiction|].
  rewrite bool_decide_eq_false_2 by discriminate. cbn [negb].
  rewrite Hseq. cbn [andb]. unfold bind at 1. unfold _download_files_sequential.
  match goal with |- context [sequential_loop env cfg gse_id ?n ?i ?files ?acc w1] =>
    destruct (sequential_loop_no_attempt env cfg gse_id n Hneg files i acc w1)
      as (w2 & Hloop & Ht)
  end.
  { apply Forall_map. rewrite Hfs. exact Hnone. }
  rewrite Hloop. cbn [app map bind lift subscript_all fst snd].
  eexists. split; [reflexivity|].
  rewrite Ht, Htrace, filter_app.
  assert (Hnot : forall names0 : list string,
    filter (fun ev => is_transfer ev = true)
      (map (fun nm => EvHead (suppl_url gse_id +:+ nm)) names0) = []).
  { induction names0 as [|nm names0 IH]; [reflexivity|]. cbn [map].
    rewrite filter_cons. cbn. exact IH. }
  rewrite !filter_cons. cbn [is_transfer].
  destruct (decide (false = true)); [discriminate|].
  rewrite Hnot, app_nil_r. reflexivity.
Qed.

(** The series GSE1 with [max_retries = -1] over an empty directory. *)
Lemma negative_max_retries_crashes_dataset_witness :
  fst (download_gse_dataset Scenario.env_gse1 Scenario2.cfg_negative_retries "GSE1"
         Scenario.w_empty)
    = Raise "'NoneType' object is not subscriptable" /\
  filter (fun ev => is_transfer ev = true)
    (trace (snd (download_gse_dataset Scenario.env_gse1 Scenario2.cfg_negative_retries
                   "GSE1" Scenario.w_empty)))
    = [].
Proof.
  apply (negative_max_retries_crashes_dataset Scenario.env_gse1
           Scenario2.cfg_negative_retries "GSE1" Scenario.w_empty
           Scenario.gse1_listing);
    [ reflexivity | reflexivity | reflexivity | discriminate
    | vm_compute; repeat constructor ].
Defined.

(** ** The run as a whole *)

Section RunOutcome.

Variables (env : Env) (cfg : Config).

(** With a pool of at least one worker, a retry count that is not negative
    and a wait that [time.sleep] accepts, the processing of a series whose
    raw files all have a known size returns a result. *)
Lemma download_gse_dataset_returns gse_id w :
  1 <= workers cfg -> 0 <= max_retries cfg -> Qle_bool 0 (retry_delay cfg) = true ->
  sizes_known env gse_id ->
  exists r w', download_gse_dataset env cfg gse_id w = (Ok r, w').
Proof.
  intros Hworkers Hretries Hwait Hknown.
  unfold download_gse_dataset. unfold bind at 1. unfold print at 1.
  unfold bind at 1.
  match goal with |- context [get_gse_metadata env gse_id ?w0] =>
    destruct (get_gse_metadata_closed env gse_id w0)
      as (md & w1 & Hmd & _ & _ & _ & _ & _ & Hcase)
  end.
  rewrite Hmd.
  destruct (truthy_opt (md_error md)); [eexists _, _; reflexivity|].
  destruct (negb (md_has_raw_data md)); [eexists _, _; reflexivity|].
  assert (Hsizes : Forall (fun fi => is_Some (rf_size_bytes fi)) (md_raw_files md)).
  { destruct (env_listing env (suppl_url gse_id)) as [links|e] eqn:Hl.
    - destruct Hcase as (-> & _). apply Forall_map.
      exact (Hknown links Hl).
    - destruct Hcase as (-> & _). constructor. }
  unfold bind at 1.
  assert (Hdispatch : exists files w2,
    (if parallel cfg && (1 <? length (md_raw_files md))%nat
     then _download_files_parallel env cfg gse_id (md_raw_files md)
     else _download_files_sequential env cfg gse_id (md_raw_files md)) w1
    = (Ok (map Some files), w2)).
  { destruct (parallel cfg && (1 <? length (md_raw_files md))%nat).
    - destruct (download_files_parallel_returns env cfg gse_id (md_raw_files md) w1
                  Hworkers) as (results & w2 & Hrun).
      pose proof (download_files_parallel_kept _ _ _ _ _ _ _ Hrun) as Hkept.
      destruct (kept_all_some _ _ _ _ _ Hretries Hkept) as (files & ->). eauto.
    - unfold _download_files_sequential.
      destruct (sequential_loop_returns env cfg gse_id
                  (Z.of_nat (length (md_raw_files md))) Hretries Hwait
                  (md_raw_files md) 1 [] w1
                  Hsizes) as (results & w2 & Hrun).
      destruct (sequential_loop_kept _ _ _ _ _ _ _ _ _ _ Hrun) as (new & Hnew & Hkept).
      cbn [app] in Hnew. subst new.
      destruct (kept_all_some _ _ _ _ _ Hretries Hkept) as (files & ->). eauto. }
  destruct Hdispatch as (files & w2 & ->).
  unfold bind, lift. rewrite subscript_all_map_some. eexists _, _. reflexivity.
Qed.

(** The loop returns when the processing of each of its series does. *)
Lemma datasets_loop_returns n : forall gse_ids i acc w m,
  download_status w = StatusDict m ->
  (forall gse_id, gse_id ∈ gse_ids ->
     forall w0, exists r w1, download_gse_dataset env cfg gse_id w0 = (Ok r, w1)) ->
  exists results w', datasets_loop env cfg n i gse_ids acc w = (Ok results, w').
Proof.
  induction gse_ids as [|gse_id rest IH]; intros i acc w m Hdict Hall.
  - eexists _, _. reflexivity.
  - destruct (Hall gse_id ltac:(left) (snd (print (LInfoDataset i n gse_id) w)))
      as (r & w1 & Hds).
    destruct (datasets_loop_step env cfg n i gse_id rest acc w r w1 m Hds Hdict)
      as (w2 & -> & Hdict2 & _).
    apply (IH _ _ _ _ Hdict2). intros g Hg. apply Hall. right. exact Hg.
Qed.

(** No result is [failed] or [no_raw_data] exactly when the count is 0. *)
Lemma count_failed_zero rs :
  count_status is_failed_or_no_raw rs = 0 <->
  Forall (fun r => dr_status r = DsCompleted \/ dr_status r = DsPartial) rs.
Proof.
  induction rs as [|r rs IH].
  - split; [constructor | reflexivity].
  - rewrite count_status_cons, Forall_cons, <- IH.
    pose proof (count_status_nonneg is_failed_or_no_raw rs).
    destruct (dr_status r); cbn [is_failed_or_no_raw]; split;
      try (intros [[?|?] ?]; try discriminate); try lia; auto.
Qed.

(** The status mapping after the results have been entered: the latest
    result of an identifier, or the entry it had before. *)
Lemma status_after_lookup st0 rs gse_id :
  status_after st0 rs !! gse_id
  = match latest_result gse_id rs with
    | Some r => Some r
    | None => st0 !! gse_id
    end.
Proof.
  induction rs as [|r rs IH] using rev_ind; [reflexivity|].
  rewrite status_after_snoc. unfold latest_result in *. rewrite filter_app.
  rewrite filter_cons, filter_nil.
  destruct (decide (dr_gse_id r = gse_id)) as [Heq|Hne].
  - rewrite last_snoc, Heq. apply lookup_insert_eq.
  - rewrite app_nil_r, lookup_insert_ne by exact Hne. exact IH.
Qed.

Lemma latest_result_spec gse_id rs r :
  latest_result gse_id rs = Some r -> r ∈ rs /\ dr_gse_id r = gse_id.
Proof.
  unfold latest_result. intros H. apply last_Some in H as [l' H].
  assert (Hin : r ∈ filter (fun r0 => dr_gse_id r0 = gse_id) rs).
  { rewrite H. apply elem_of_app. right. left. }
  apply list_elem_of_filter in Hin. tauto.
Qed.

Lemma latest_result_none gse_id rs :
  latest_result gse_id rs = None <-> gse_id ∉ map dr_gse_id rs.
Proof.
  unfold latest_result. rewrite last_None. split.
  - intros Hnil Hin. apply list_elem_of_In, in_map_iff in Hin as (r & Hid & Hr).
    assert (Hf : r ∈ filter (fun r0 => dr_gse_id r0 = gse_id) rs).
    { apply list_elem_of_filter. split; [exact Hid | apply list_elem_of_In, Hr]. }
    rewrite Hnil in Hf. inversion Hf.
  - intros Hnot. destruct (filter _ rs) as [|r l] eqn:Hf; [reflexivity|].
    exfalso. apply Hnot.
    assert (Hin : r ∈ filter (fun r0 => dr_gse_id r0 = gse_id) rs).
    { rewrite Hf. left. }
    apply list_elem_of_filter in Hin as [Hid Hr].
    apply list_elem_of_In, in_map_iff. exists r.
    split; [exact Hid | apply list_elem_of_In, Hr].
Qed.

End RunOutcome.

Section AbortedRun.

Variables (env : Env) (cfg : Config).

(** The loop when the processing of a series raises: the results obtained
    so far are in the status mapping, and the snapshots written are those of
    the multiples of five among them. *)
Lemma datasets_loop_aborted n st0 : forall gse_ids i acc w e w',
  datasets_loop env cfg n i gse_ids acc w = (Raise e, w') ->
  i = Z.of_nat (S (length acc)) ->
  download_status w = StatusDict (status_after st0 acc) ->
  exists done gse_id w1,
    (length done < length gse_ids)%nat /\
    map dr_gse_id done = take (length done) gse_ids /\
    gse_ids !! length done = Some gse_id /\
    download_gse_dataset env cfg gse_id w1 = (Raise e, w') /\
    download_status w' = StatusDict (status_after st0 (acc ++ done)) /\
    saved_snapshots (trace w')
      = saved_snapshots (trace w)
        ++ map (fun j => StatusDict (status_after st0 (take j (acc ++ done))))
             (filter (fun j => Z.of_nat j mod 5 = 0)
                (seq (S (length acc)) (length done))).
Proof.
  induction gse_ids as [|gse_id rest IH]; intros i acc w e w' Hrun Hi Hst;
    [discriminate|].
  destruct (download_gse_dataset env cfg gse_id
              (snd (print (LInfoDataset i n gse_id) w))) as [[r|e1] w1] eqn:Hds.
  - destruct (datasets_loop_step env cfg n i gse_id rest acc w r w1 _ Hds Hst)
      as (w2 & Hstep & Hst2 & Hsaved).
    rewrite Hstep in Hrun.
    pose proof (download_gse_dataset_id _ _ _ _ _ _ Hds) as Hid.
    apply (IH (i + 1) (acc ++ [r]) w2) in Hrun
      as (done & g & wg & Hlen & Hids & Hlook & Hraise & Hfinal & Hsnaps).
    + exists (r :: done), g, wg. cbn [length].
      split; [lia|]. split; [cbn; congruence|]. split; [exact Hlook|].
      split; [exact Hraise|].
      rewrite <- app_assoc in Hfinal, Hsnaps. cbn [app] in Hfinal, Hsnaps.
      split; [exact Hfinal|].
      rewrite Hsnaps, Hsaved, <- app_assoc. f_equal.
      rewrite length_app. cbn [length].
      replace (length acc + 1)%nat with (S (length acc)) by lia.
      cbn [seq]. rewrite filter_cons. subst i.
      destruct (Z.eqb_spec (Z.of_nat (S (length acc)) mod 5) 0) as [E|E].
      * destruct (decide (Z.of_nat (S (length acc)) mod 5 = 0)); [|contradiction].
        cbn [map app]. f_equal. f_equal.
        rewrite <- Hid, <- status_after_snoc.
        f_equal. symmetry.
        change (acc ++ r :: done) with (acc ++ [r] ++ done).
        rewrite app_assoc. apply take_app_length'.
        rewrite length_app. cbn. lia.
      * destruct (decide (Z.of_nat (S (length acc)) mod 5 = 0)); [contradiction|].
        reflexivity.
    + rewrite length_app. cbn [length]. lia.
    + rewrite Hst2, status_after_snoc, Hid. reflexivity.
  - cbn [datasets_loop] in Hrun. unfold bind at 1 in Hrun.
    cbn [print snd] in Hds. unfold print at 1 in Hrun.
    unfold bind at 1 in Hrun. rewrite Hds in Hrun. injection Hrun as <- <-.
    destruct (quiet_download_gse_dataset env cfg gse_id _ _ _ Hds) as (Hd & _ & Hs).
    cbn [download_status trace] in Hd, Hs.
    eexists [], gse_id, _. cbn [length seq take map]. rewrite filter_nil, !app_nil_r.
    split; [lia|]. split; [reflexivity|]. split; [reflexivity|].
    split; [exact Hds|]. split; [congruence | exact Hs].
Qed.

(** The positions at which the status is written, up to [n]: the last one
    is the greatest multiple of five that [n] reaches. *)
Lemma periodic_positions_last (n : nat) :
  exists k,
    (k <= n < k + 5)%nat /\ Z.of_nat k mod 5 = 0 /\
    last (periodic_positions n) = (if decide (k = 0%nat) then None else Some k).
Proof.
  unfold periodic_positions. induction n as [|n (k & Hk & Hmod & Hlast)].
  - exists 0%nat. split; [lia|]. split; reflexivity.
  - rewrite seq_S, filter_app, filter_cons, filter_nil. cbn [Nat.add].
    destruct (decide (Z.of_nat (S n) mod 5 = 0)) as [E|E].
    + exists (S n). split; [lia|]. split; [exact E|].
      rewrite last_snoc. reflexivity.
    + exists k. rewrite app_nil_r. split; [|split; assumption].
      assert (k + 5 <> S n)%nat; [|lia].
      intros Heq. apply E. rewrite <- Heq, Nat2Z.inj_add.
      rewrite Z.add_mod, Hmod by lia. reflexivity.
Qed.

End AbortedRun.

(** X14.  With a pool of at least one worker, a retry count that is not
    negative and a wait between attempts that is a finite number of seconds,
    not negative and within the range that [time.sleep] takes, a run whose
    status loads as a mapping (the status file is absent, unreadable, or
    holds a JSON object or a JSON scalar) over series whose listed raw files
    all have a size that the probe can tell never raises, in either dispatch
    mode and whatever the transfers do: it returns the summary with one
    result per identifier, in order, and [main] exits with status 0 when the
    summary counts no failed dataset and with status 1 otherwise. *)
Theorem valid_run_returns_summary
    (env : Env) (cfg : Config) (gse_ids : list string) (w : World) :
  1 <= workers cfg ->
  0 <= max_retries cfg ->
  Qle_bool 0 (retry_delay cfg) = true ->
  gse_ids <> [] ->
  Forall (sizes_known env) gse_ids ->
  (exists m0, loaded_status w = StatusDict m0) ->
  exists s w',
    download_multiple_datasets env cfg gse_ids w = (Ok (RunDone s), w') /\
    map dr_gse_id (rs_results s) = gse_ids /\
    fst (main_download env cfg gse_ids w) = Ok (if rs_failed s =? 0 then 0 else 1).
Proof.
  intros Hworkers Hretries Hwait Hne Hknown (m0 & Hloaded).
  destruct (download_multiple_datasets env cfg gse_ids w) as [[[msg|s]|e] w'] eqn:Hrun.
  - exfalso.
    exact (download_multiple_datasets_run env cfg gse_ids w _ _ m0 Hne Hloaded Hrun).
  - exists s, w'. split; [reflexivity|].
    pose proof (main_download_exit_status env cfg gse_ids w s w' Hrun) as Hexit.
    apply (download_multiple_datasets_run env cfg gse_ids w _ _ m0 Hne Hloaded) in Hrun.
    destruct Hrun as (Hids & _ & _ & _ & _ & _ & Hf).
    split; [exact Hids|]. rewrite Hf. exact Hexit.
  - exfalso.
    apply (download_multiple_datasets_run env cfg gse_ids w _ _ m0 Hne Hloaded) in Hrun.
    destruct Hrun as (g & w1 & w2 & Hin & Hraise).
    rewrite Forall_forall in Hknown.
    destruct (download_gse_dataset_returns env cfg g w1 Hworkers Hretries Hwait
                (Hknown g Hin)) as (r & w3 & Hok).
    rewrite Hok in Hraise. discriminate Hraise.
Qed.

(** The series GSE1, whose two files answer the probe with five bytes, with
    no status file in the output directory. *)
Lemma valid_run_returns_summary_witness :
  exists s w',
    download_multiple_datasets Scenario.env_gse1 Scenario.cfg_once [ "GSE1" ]
      Scenario.w_empty = (Ok (RunDone s), w') /\
    map dr_gse_id (rs_results s) = [ "GSE1" ] /\
    fst (main_download Scenario.env_gse1 Scenario.cfg_once [ "GSE1" ] Scenario.w_empty)
      = Ok (if rs_failed s =? 0 then 0 else 1).
Proof.
  apply (valid_run_returns_summary Scenario.env_gse1 Scenario.cfg_once [ "GSE1" ]
           Scenario.w_empty).
  - vm_compute. discriminate.
  - vm_compute. discriminate.
  - reflexivity.
  - discriminate.
  - constructor; [|constructor].
    intros links _. apply Forall_forall. intros name _.
    exists 5. reflexivity.
  - exists ∅. reflexivity.
Defined.

(** X15.  [main] never lets an exception of the run escape, and its exit
    status is 0 or 1: it is 0 exactly when the run returned a summary in
    which every dataset is [completed] or [partial].  A failed or raw-less
    dataset, an empty list of identifiers and an exception of the run all
    give status 1. *)
Theorem main_exit_status (env : Env) (cfg : Config) (gse_ids : list string) (w : World) :
  exists code w',
    main_download env cfg gse_ids w = (Ok code, w') /\
    (code = 0 \/ code = 1) /\
    (code = 0 <->
     exists s w1,
       download_multiple_datasets env cfg gse_ids w = (Ok (RunDone s), w1) /\
       Forall (fun r => dr_status r = DsCompleted \/ dr_status r = DsPartial)
         (rs_results s)).
Proof.
  unfold main_download, try_except. unfold bind at 1.
  destruct (download_multiple_datasets env cfg gse_ids w) as [[[msg|s]|e] w1] eqn:Hrun.
  - cbn. eexists _, _. split; [reflexivity|]. split; [auto|].
    split; [discriminate|]. intros (s & w2 & Heq & _). discriminate Heq.
  - assert (Hf : rs_failed s = count_status is_failed_or_no_raw (rs_results s)).
    { destruct (download_multiple_datasets_done env cfg gse_ids w s w1 Hrun)
        as (m0 & _ & _ & _ & _ & _ & _ & _ & Hf).
      exact Hf. }
    unfold bind at 1. unfold lift, summary_of.
    destruct (rs_failed s =? 0) eqn:Hz.
    + unfold bind, print, ret. eexists _, _. split; [reflexivity|]. split; [auto|].
      split; [|reflexivity]. intros _. exists s, w1. split; [reflexivity|].
      apply count_failed_zero. apply Z.eqb_eq in Hz. congruence.
    + assert (Hexit : exists w',
        (if 0 <? rs_completed s
         then print (LExitPartial (rs_completed s) (rs_total s)) >>> ret 1
         else print LExitFailed >>> ret 1) w1 = (Ok 1, w')).
      { destruct (0 <? rs_completed s); eexists; reflexivity. }
      destruct Hexit as (w' & ->).
      eexists _, _. split; [reflexivity|]. split; [auto|].
      split; [discriminate|]. intros (s2 & w2 & Heq & Hall).
      injection Heq as <- <-. apply count_failed_zero in Hall.
      apply Z.eqb_neq in Hz. congruence.
  - cbn. eexists _, _. split; [reflexivity|]. split; [auto|].
    split; [discriminate|]. intros (s & w2 & Heq & _). discriminate Heq.
Qed.

(** X16.  A run that returns its summary started from a status that is a
    mapping and ends with one: it holds for every identifier the latest
    result obtained for it in this run (so for an identifier given twice,
    the second result), and for every other identifier the entry loaded
    from the status file, unchanged. *)
Theorem run_status_keeps_latest_result
    (env : Env) (cfg : Config) (gse_ids : list string) (w : World)
    (s : RunSummary) (w' : World) :
  download_multiple_datasets env cfg gse_ids w = (Ok (RunDone s), w') ->
  exists m0 m',
    loaded_status w = StatusDict m0 /\
    download_status w' = StatusDict m' /\
    forall gse_id,
      m' !! gse_id
        = match latest_result gse_id (rs_results s) with
          | Some r => Some r
          | None => m0 !! gse_id
          end /\
      (gse_id ∈ gse_ids ->
       exists r, m' !! gse_id = Some r /\
                 r ∈ rs_results s /\ dr_gse_id r = gse_id) /\
      (gse_id ∉ gse_ids -> m' !! gse_id = m0 !! gse_id).
Proof.
  intros Hrun.
  destruct (download_multiple_datasets_done env cfg gse_ids w s w' Hrun)
    as (m0 & Hloaded & Hids & Hst & _).
  exists m0, (status_after m0 (rs_results s)).
  split; [exact Hloaded|]. split; [exact Hst|].
  intros gse_id.
  rewrite status_after_lookup, <- Hids.
  split; [reflexivity|].
  destruct (latest_result gse_id (rs_results s)) as [r|] eqn:Hlatest.
  - split.
    + intros _. exists r. split; [reflexivity|].
      eapply latest_result_spec. exact Hlatest.
    + intros Hnot. exfalso. apply Hnot.
      apply latest_result_spec in Hlatest as [Hin <-].
      apply list_elem_of_In, in_map, list_elem_of_In, Hin.
  - split; [|reflexivity]. intros Hin.
    apply latest_result_none in Hlatest. contradiction.
Qed.

(** Six series without raw files: each identifier ends with its entry. *)
Lemma run_status_keeps_latest_result_witness :
  exists s w' m' r,
    download_multiple_datasets Scenario.env_down Scenario.cfg Scenario.six_ids
      Scenario.w_empty = (Ok (RunDone s), w') /\
    download_status w' = StatusDict m' /\
    m' !! "GSE3" = Some r /\ dr_gse_id r = "GSE3" /\
    m' !! "GSE7" = None.
Proof.
  destruct (download_multiple_datasets Scenario.env_down Scenario.cfg Scenario.six_ids
              Scenario.w_empty) as [res w'] eqn:Heq.
  assert (Hres : exists s, res = Ok (RunDone s)).
  { vm_compute in Heq. injection Heq as <- _. eexists. reflexivity. }
  destruct Hres as (s & ->).
  destruct (run_status_keeps_latest_result Scenario.env_down Scenario.cfg
              Scenario.six_ids Scenario.w_empty s w' Heq)
    as (m0 & m' & Hloaded & Hst & Hall).
  injection Hloaded as <-.
  destruct (Hall "GSE3") as (_ & Hin & _).
  destruct (Hall "GSE7") as (_ & _ & Hout).
  destruct Hin as (r & Hlook & _ & Hid).
  { apply list_elem_of_In. cbn. tauto. }
  exists s, w', m', r. split; [reflexivity|]. split; [exact Hst|].
  split; [exact Hlook|]. split; [exact Hid|].
  rewrite Hout; [reflexivity|].
  intros Hin. apply list_elem_of_In in Hin. cbn in Hin.
  repeat (destruct Hin as [Hin|Hin]; [discriminate Hin|]). exact Hin.
Defined.

(** X17.  When a run raises, what raised depends on the status it loaded.
    With a mapping for a status, it raises while processing one of its
    series; the results of the series before it are in the status mapping,
    no final status write takes place, and the status writes made are those
    after every fifth dataset: the last one covers all the results but fewer
    than five.  With a JSON list or a JSON string for a status, it raises
    at its first series: either the processing of that series raises, or
    the processing returns and the update of the status that follows
    raises; the status is left as loaded and no status write is made. *)
Theorem aborted_run_keeps_periodic_snapshots
    (env : Env) (cfg : Config) (gse_ids : list string) (w : World)
    (e : string) (w' : World) :
  download_multiple_datasets env cfg gse_ids w = (Raise e, w') ->
  match loaded_status w with
  | StatusDict m0 =>
      exists done gse_id w1 k,
        (length done < length gse_ids)%nat /\
        map dr_gse_id done = take (length done) gse_ids /\
        gse_ids !! length done = Some gse_id /\
        download_gse_dataset env cfg gse_id w1 = (Raise e, w') /\
        download_status w' = StatusDict (status_after m0 done) /\
        saved_snapshots (trace w')
          = saved_snapshots (trace w)
            ++ map (fun j => StatusDict (status_after m0 (take j done)))
                 (periodic_positions (length done)) /\
        (k <= length done < k + 5)%nat /\
        (k <> 0%nat ->
         last (saved_snapshots (trace w'))
           = Some (StatusDict (status_after m0 (take k done))))
  | StatusOther j =>
      exists gse_id rest w1,
        gse_ids = gse_id :: rest /\
        (download_gse_dataset env cfg gse_id w1 = (Raise e, w') \/
         exists r,
           download_gse_dataset env cfg gse_id w1 = (Ok r, w') /\
           status_setitem (StatusOther j) gse_id r = Raise e) /\
        download_status w' = StatusOther j /\
        saved_snapshots (trace w') = saved_snapshots (trace w)
  end.
Proof.
  intros Hrun.
  destruct gse_ids as [|g rest]; [discriminate Hrun|].
  destruct (download_multiple_datasets_start env cfg g rest w)
    as (w1 & Hstart & Hloaded & Ht1 & _).
  rewrite Hstart in Hrun. clear Hstart.
  set (ids := g :: rest) in *. set (n := Z.of_nat (length ids)) in *.
  unfold bind at 1 in Hrun.
  destruct (loaded_status w) as [m0|j] eqn:Hl.
  - destruct (datasets_loop env cfg n 1 ids [] w1) as [[results|e0] w2] eqn:Hloop.
    + exfalso. unfold bind at 1 in Hrun.
      destruct (save_download_status_run env w2) as (w3 & Hsave & _).
      rewrite Hsave in Hrun.
      unfold bind, time_time, print, ret in Hrun. discriminate Hrun.
    + injection Hrun as <- <-.
      destruct (datasets_loop_aborted env cfg n m0 ids 1 [] w1 e0 w2 Hloop eq_refl Hloaded)
        as (done & gse_id & wg & Hlen & Hids & Hlook & Hraise & Hfinal & Hsnaps).
      cbn [app length] in Hfinal, Hsnaps.
      destruct (periodic_positions_last (length done)) as (k & Hk & _ & Hlast).
      exists done, gse_id, wg, k.
      split; [exact Hlen|]. split; [exact Hids|]. split; [exact Hlook|].
      split; [exact Hraise|]. split; [exact Hfinal|].
      rewrite Ht1 in Hsnaps. fold (periodic_positions (length done)) in Hsnaps.
      split; [exact Hsnaps|]. split; [exact Hk|].
      intros Hk0. rewrite Hsnaps.
      destruct (decide (k = 0%nat)); [contradiction|].
      destruct (periodic_positions (length done)) as [|p ps] eqn:Hpos using rev_ind;
        [discriminate Hlast|].
      rewrite last_snoc in Hlast. injection Hlast as ->.
      rewrite map_app, app_assoc. cbn [map]. apply last_snoc.
  - destruct (download_gse_dataset env cfg g
                (snd (print (LInfoDataset 1 n g) w1))) as [[r|e1] w2] eqn:Hds.
    + destruct (datasets_loop_step_other env cfg n 1 g rest [] w1 r w2 j Hds Hloaded)
        as (e0 & He & Hloop).
      fold ids in Hloop. rewrite Hloop in Hrun. injection Hrun as <- <-.
      destruct (quiet_download_gse_dataset env cfg g _ _ _ Hds) as (Hd & _ & Hs).
      cbn [print snd download_status trace] in Hd, Hs.
      exists g, rest, (snd (print (LInfoDataset 1 n g) w1)).
      split; [reflexivity|]. split.
      { right. exists r. split; [exact Hds | apply He]. }
      split; congruence.
    + assert (Hloop : datasets_loop env cfg n 1 ids [] w1 = (Raise e1, w2)).
      { subst ids. cbn [datasets_loop]. unfold bind at 1.
        destruct (print (LInfoDataset 1 n g) w1) as [[[]|?] wp] eqn:Hp;
          [|discriminate Hp].
        cbn [snd] in Hds. unfold bind at 1. rewrite Hds. reflexivity. }
      rewrite Hloop in Hrun. injection Hrun as <- <-.
      destruct (quiet_download_gse_dataset env cfg g _ _ _ Hds) as (Hd & _ & Hs).
      cbn [print snd download_status trace] in Hd, Hs.
      exists g, rest, (snd (print (LInfoDataset 1 n g) w1)).
      split; [reflexivity|]. split; [left; exact Hds|].
      split; congruence.
Qed.

(** Five series without raw files, then the series GSE1 with
    [max_retries = -1]: the run raises on the sixth, after the write that
    followed the fifth. *)
Lemma aborted_run_keeps_periodic_snapshots_witness :
  exists e w' done,
    download_multiple_datasets Scenario.env_gse1 Scenario2.cfg_negative_retries
      [ "GSE2"; "GSE3"; "GSE4"; "GSE5"; "GSE6"; "GSE1" ] Scenario.w_empty
      = (Raise e, w') /\
    (length done < 6)%nat /\
    download_status w' = StatusDict (status_after ∅ done).
Proof.
  destruct (download_multiple_datasets Scenario.env_gse1 Scenario2.cfg_negative_retries
              [ "GSE2"; "GSE3"; "GSE4"; "GSE5"; "GSE6"; "GSE1" ] Scenario.w_empty)
    as [res w'] eqn:Heq.
  assert (Hres : exists e, res = Raise e).
  { vm_compute in Heq. injection Heq as <- _. eexists. reflexivity. }
  destruct Hres as (e & ->).
  pose proof (aborted_run_keeps_periodic_snapshots Scenario.env_gse1
                Scenario2.cfg_negative_retries
                [ "GSE2"; "GSE3"; "GSE4"; "GSE5"; "GSE6"; "GSE1" ] Scenario.w_empty e w' Heq)
    as H.
  assert (Hl : loaded_status Scenario.w_empty = StatusDict ∅) by reflexivity.
  rewrite Hl in H.
  destruct H as (done & g & w1 & k & Hlen & _ & _ & _ & Hst & _).
  exists e, w', done. split; [reflexivity|]. split; [exact Hlen | exact Hst].
Defined.

(** X18.  Parallel dispatch contains the exceptions of its workers where
    sequential dispatch lets them escape: with parallel mode on, a pool of
    at least one worker and a [max_retries] that is not negative, the
    processing of a series that does not list exactly one raw file always
    returns a result, even for files whose size is unknown and for waits
    that [time.sleep] refuses. *)
Theorem parallel_dataset_contains_worker_errors
    (env : Env) (cfg : Config) (gse_id : string) (w : World) :
  parallel cfg = true ->
  1 <= workers cfg ->
  0 <= max_retries cfg ->
  (forall file_links,
     env_listing env (suppl_url gse_id) = Ok file_links ->
     length (raw_names file_links) <> 1%nat) ->
  exists r w', download_gse_dataset env cfg gse_id w = (Ok r, w').
Proof.
  intros Hpar Hworkers Hretries Hmany.
  unfold download_gse_dataset. unfold bind at 1. unfold print at 1.
  unfold bind at 1.
  match goal with |- context [get_gse_metadata env gse_id ?w0] =>
    destruct (get_gse_metadata_closed env gse_id w0)
      as (md & w1 & Hmd & _ & Hhas & _ & _ & _ & Hcase)
  end.
  rewrite Hmd.
  destruct (truthy_opt (md_error md)); [eexists _, _; reflexivity|].
  destruct (negb (md_has_raw_data md)) eqn:Hraw; [eexists _, _; reflexivity|].
  assert (Hlen : (1 <? length (md_raw_files md))%nat = true).
  { apply negb_false_iff in Hraw. rewrite Hhas in Hraw.
    apply negb_true_iff, bool_decide_eq_false in Hraw.
    destruct (env_listing env (suppl_url gse_id)) as [links|e] eqn:Hl.
    - destruct Hcase as (Hfiles & _). specialize (Hmany links eq_refl).
      rewrite Hfiles in Hraw |- *. rewrite length_map.
      destruct (raw_names links) as [|n1 [|n2 rest]];
        [contradiction | contradiction | reflexivity].
    - destruct Hcase as (Hfiles & _). contradiction. }
  rewrite Hpar, Hlen. cbn [andb]. unfold bind at 1.
  destruct (download_files_parallel_returns env cfg gse_id (md_raw_files md) w1
              Hworkers) as (results & w2 & Hrun).
  pose proof (download_files_parallel_kept _ _ _ _ _ _ _ Hrun) as Hkept.
  destruct (kept_all_some _ _ _ _ _ Hretries Hkept) as (files & ->).
  rewrite Hrun. unfold bind, lift. rewrite subscript_all_map_some.
  eexists _, _. reflexivity.
Qed.

(** The series GSE1 with a negative [retry_delay]: the worker of the signal
    file raises at its wait, and the dataset is returned all the same. *)
Lemma parallel_dataset_contains_worker_errors_witness :
  exists r w',
    download_gse_dataset Scenario.env_gse1 Scenario.cfg_negative_delay "GSE1"
      Scenario.w_empty = (Ok r, w').
Proof.
  apply (parallel_dataset_contains_worker_errors Scenario.env_gse1
           Scenario.cfg_negative_delay "GSE1" Scenario.w_empty);
    [reflexivity | discriminate | discriminate |].
  intros links Hl. vm_compute in Hl. injection Hl as <-. vm_compute. discriminate.
Defined.

(** ** The [Config] class *)

Section ConfigFacts.
Import ConfigClass.

Lemma update_known : forall items config,
  Forall (fun kv => known_key (fst kv) = true) items ->
  update items config = (Returns tt, stored items config).
Proof.
  induction items as [|[key value] items IH]; intros config Hall; [reflexivity|].
  apply Forall_cons in Hall as [Hk Hrest]. cbn [fst] in Hk.
  cbn [update]. rewrite Hk. apply IH. exact Hrest.
Qed.

Lemma stored_app a b config : stored (a ++ b) config = stored b (stored a config).
Proof. unfold stored. apply foldl_app. Qed.

Lemma update_unknown pre key value post config :
  Forall (fun kv => known_key (fst kv) = true) pre ->
  known_key key = false ->
  update (pre ++ (key, value) :: post) config
  = (Raises ValueError ("Unknown configuration key: " +:+ key), stored pre config).
Proof.
  revert config. induction pre as [|[k v] pre IH]; intros config Hall Hkey.
  - cbn [app update]. rewrite Hkey. reflexivity.
  - apply Forall_cons in Hall as [Hk Hrest]. cbn [fst] in Hk.
    cbn [app update]. rewrite Hk. apply IH; assumption.
Qed.

(** Whatever it does, [update] stores a prefix of the items. *)
Lemma update_prefix : forall items config,
  exists pre post, items = pre ++ post /\
    Forall (fun kv => known_key (fst kv) = true) pre /\
    snd (update items config) = stored pre config.
Proof.
  induction items as [|[key value] items IH]; intros config.
  - exists [], []. repeat split. constructor.
  - cbn [update]. destruct (known_key key) eqn:Hk.
    + destruct (IH (<[key := value]> config)) as (pre & post & -> & Hall & Hsnd).
      exists ((key, value) :: pre), post. split; [reflexivity|].
      split; [constructor; assumption | exact Hsnd].
    + exists [], ((key, value) :: items). repeat split. constructor.
Qed.

Lemma has_default_keys_insert key value config :
  known_key key = true -> has_default_keys config ->
  has_default_keys (<[key := value]> config).
Proof.
  intros Hk Hc k. destruct (decide (key = k)) as [->|Hne].
  - rewrite lookup_insert_eq. split; [intros _; exact Hk | eauto].
  - rewrite lookup_insert_ne by exact Hne. apply Hc.
Qed.

Lemma has_default_keys_stored : forall items config,
  Forall (fun kv => known_key (fst kv) = true) items ->
  has_default_keys config -> has_default_keys (stored items config).
Proof.
  induction items as [|[key value] items IH]; intros config Hall Hc; [exact Hc|].
  apply Forall_cons in Hall as [Hk Hrest].
  apply (IH _ Hrest). apply has_default_keys_insert; assumption.
Qed.

Lemma has_default_keys_update items config :
  has_default_keys config -> has_default_keys (snd (update items config)).
Proof.
  intros Hc. destruct (update_prefix items config) as (pre & post & _ & Hall & ->).
  apply has_default_keys_stored; assumption.
Qed.

Lemma has_default_keys_default : has_default_keys DEFAULT_CONFIG.
Proof.
  intros key. unfold known_key. rewrite bool_decide_eq_true. reflexivity.
Qed.

Lemma init_returns cpu_count config_dict config :
  __init__ cpu_count config_dict = Returns config ->
  exists n items,
    default_workers cpu_count = Returns n /\
    Forall (fun kv => known_key (fst kv) = true) items /\
    config = stored items (<["workers" := PyInt n]> DEFAULT_CONFIG).
Proof.
  unfold __init__. cbv zeta.
  change (__getitem__ "workers" DEFAULT_CONFIG) with (Returns PyNone).
  cbn [obind].
  destruct (default_workers cpu_count) as [n|cls msg]; [|discriminate].
  cbn [obind]. intros H. exists n.
  destruct config_dict as [[|kv items]|].
  - exists []. injection H as <-. repeat split. constructor.
  - destruct (update (kv :: items) _) as [[[]|cls msg] c'] eqn:Hu; [|discriminate].
    injection H as <-.
    destruct (update_prefix (kv :: items) (<["workers" := PyInt n]> DEFAULT_CONFIG))
      as (pre & post & _ & Hall & Hsnd).
    rewrite Hu in Hsnd. cbn [snd] in Hsnd. exists pre. auto.
  - exists []. injection H as <-. repeat split. constructor.
Qed.

End ConfigFacts.

Section CliConfig.
Import ConfigClass.

Lemma stored_lookup : forall items config key,
  stored items config !! key
  = match last (filter (fun kv => fst kv = key) items) with
    | Some kv => Some (snd kv)
    | None => config !! key
    end.
Proof.
  induction items as [|kv items IH] using rev_ind; intros config key; [reflexivity|].
  rewrite stored_app. cbn [stored foldl]. rewrite filter_app, filter_cons, filter_nil.
  destruct (decide (fst kv = key)) as [Heq|Hne].
  - rewrite last_snoc, Heq. apply lookup_insert_eq.
  - rewrite app_nil_r, lookup_insert_ne by exact Hne. apply IH.
Qed.

Lemma config_updates_known args :
  Forall (fun kv => known_key (fst kv) = true) (config_updates args).
Proof.
  unfold config_updates. apply Forall_app. split.
  - repeat constructor.
  - destruct (arg_workers args) as [n|]; [|constructor].
    destruct (n =? 0); repeat constructor.
Qed.

Lemma init_default cpu_count config :
  __init__ cpu_count None = Returns config ->
  exists n, default_workers cpu_count = Returns n /\
            config = <["workers" := PyInt n]> DEFAULT_CONFIG.
Proof.
  unfold __init__. cbv zeta.
  change (__getitem__ "workers" DEFAULT_CONFIG) with (Returns PyNone).
  cbn [obind].
  destruct (default_workers cpu_count) as [n|cls msg]; [|discriminate].
  cbn [obind]. intros [= <-]. eauto.
Qed.

(** How [create_config_from_args] comes to return: the configuration is
    what it was before the command-line values were stored, with these
    values stored, and [validate] accepted it. *)
Lemma create_config_from_args_returns host args config :
  create_config_from_args host args = CliReturns config ->
  exists before,
    has_default_keys before /\
    config = stored (config_updates args) before /\
    validate (host_upper host) config = Returns tt /\
    (truthy_opt (arg_config args) = false ->
     exists n, default_workers (host_cpu_count host) = Returns n /\
               before = <["workers" := PyInt n]> DEFAULT_CONFIG).
Proof.
  unfold create_config_from_args.
  destruct (__init__ (host_cpu_count host) None) as [c0|cls msg] eqn:Hinit;
    [|discriminate].
  apply init_default in Hinit as (n & Hn & ->).
  set (c0 := <["workers" := PyInt n]> DEFAULT_CONFIG).
  assert (Hc0 : has_default_keys c0).
  { apply has_default_keys_insert; [reflexivity | apply has_default_keys_default]. }
  set (loaded := match arg_config args with
                 | Some config_file =>
                     if PyStr.truthy config_file
                     then load_from_file (host_read_json host) config_file c0
                     else (Returns tt, c0)
                 | None => (Returns tt, c0)
                 end).
  assert (Hloaded : has_default_keys (snd loaded)).
  { subst loaded. destruct (arg_config args) as [f|]; [|exact Hc0].
    destruct (PyStr.truthy f); [|exact Hc0].
    unfold load_from_file. destruct (host_read_json host f) as [| | |v]; try exact Hc0.
    destruct v as [| | | | |l|d]; try exact Hc0.
    pose proof (has_default_keys_update d c0 Hc0) as Hu.
    destruct (update d c0) as [[[]|cls msg] c1]; cbn [snd] in *; [|exact Hu].
    apply has_default_keys_insert; [reflexivity | exact Hu]. }
  assert (Hnofile : truthy_opt (arg_config args) = false -> loaded = (Returns tt, c0)).
  { subst loaded. unfold truthy_opt. destruct (arg_config args) as [f|]; [|reflexivity].
    intros ->. reflexivity. }
  destruct loaded as [[[]|cls msg] c1]; [|discriminate].
  cbn [snd] in Hloaded.
  rewrite (update_known _ c1 (config_updates_known args)).
  destruct (validate (host_upper host) (stored (config_updates args) c1))
    as [[]|cls msg] eqn:Hv; [|destruct cls; discriminate].
  intros [= <-]. exists c1. split; [exact Hloaded|]. split; [reflexivity|].
  split; [exact Hv|].
  intros Hno. specialize (Hnofile Hno). injection Hnofile as ->. eauto.
Qed.

Ltac stored_lookup_tac :=
  unfold config_updates; rewrite stored_app;
  match goal with
  | |- context [arg_workers ?args] =>
      destruct (arg_workers args) as [n|]; [destruct (n =? 0)|]
  end;
  cbn [stored foldl fst snd];
  repeat (rewrite lookup_insert_ne by discriminate);
  apply lookup_insert_eq.

(** The nine keys that the command line always sets. *)
Lemma stored_cli_values args before :
  let config := stored (config_updates args) before in
  config !! "output_dir" = Some (PyStr (arg_output args)) /\
  config !! "parallel" = Some (PyBool (arg_parallel args)) /\
  config !! "delay" = Some (PyFloatV (arg_delay args)) /\
  config !! "chunk_size" = Some (PyInt (arg_chunk_size args)) /\
  config !! "max_retries" = Some (PyInt (arg_max_retries args)) /\
  config !! "retry_delay" = Some (PyFloatV (arg_retry_delay args)) /\
  config !! "force" = Some (PyBool (arg_force args)) /\
  config !! "verify_integrity" = Some (PyBool (negb (arg_no_verify args))) /\
  config !! "pattern" = Some (PyStr (arg_pattern args)).
Proof. cbv zeta. repeat split; stored_lookup_tac. Qed.

(** The keys that the command line never sets, and [workers]. *)
Lemma stored_cli_workers args before :
  let config := stored (config_updates args) before in
  config !! "workers"
    = match arg_workers args with
      | Some n => if n =? 0 then before !! "workers" else Some (PyInt n)
      | None => before !! "workers"
      end /\
  config !! "gse_ids" = before !! "gse_ids" /\
  config !! "input_file" = before !! "input_file" /\
  config !! "config_file" = before !! "config_file".
Proof.
  cbv zeta. unfold config_updates. rewrite stored_app.
  destruct (arg_workers args) as [n|]; [destruct (n =? 0)|];
    cbn [stored foldl fst snd];
    repeat split;
    repeat (rewrite lookup_insert_ne by discriminate);
    first [reflexivity | apply lookup_insert_eq].
Qed.

(** What [validate] has checked when it returns. *)
Lemma validate_returns upper config :
  validate upper config = Returns tt ->
  exists workers delay chunk_size max_retries retry_delay,
    config !! "workers" = Some workers /\
    is_int workers = true /\ lt_int workers 1 = false /\
    config !! "delay" = Some delay /\
    is_number delay = true /\ lt_int delay 0 = false /\
    config !! "chunk_size" = Some chunk_size /\
    is_int chunk_size = true /\ lt_int chunk_size 1 = false /\
    config !! "max_retries" = Some max_retries /\
    is_int max_retries = true /\ lt_int max_retries 0 = false /\
    config !! "retry_delay" = Some retry_delay /\
    is_number retry_delay = true /\ lt_int retry_delay 0 = false.
Proof.
  unfold validate, __getitem__, check. intros H.
  destruct (config !! "workers") as [v1|]; [|discriminate H]. cbn [obind] in H.
  destruct (is_int v1) eqn:H1; [|discriminate H].
  destruct (lt_int v1 1) eqn:H1'; [discriminate H|]. cbn [negb orb obind] in H.
  destruct (config !! "delay") as [v2|]; [|discriminate H]. cbn [obind] in H.
  destruct (is_number v2) eqn:H2; [|discriminate H].
  destruct (lt_int v2 0) eqn:H2'; [discriminate H|]. cbn [negb orb obind] in H.
  destruct (config !! "chunk_size") as [v3|]; [|discriminate H]. cbn [obind] in H.
  destruct (is_int v3) eqn:H3; [|discriminate H].
  destruct (lt_int v3 1) eqn:H3'; [discriminate H|]. cbn [negb orb obind] in H.
  destruct (config !! "max_retries") as [v4|]; [|discriminate H]. cbn [obind] in H.
  destruct (is_int v4) eqn:H4; [|discriminate H].
  destruct (lt_int v4 0) eqn:H4'; [discriminate H|]. cbn [negb orb obind] in H.
  destruct (config !! "retry_delay") as [v5|]; [|discriminate H]. cbn [obind] in H.
  destruct (is_number v5) eqn:H5; [|discriminate H].
  destruct (lt_int v5 0) eqn:H5'; [discriminate H|].
  exists v1, v2, v3, v4, v5. repeat split; assumption.
Qed.

(** An integer that is not below [n]. *)
Lemma as_int_checked v n :
  is_int v = true -> lt_int v n = false -> exists z, as_int v = Some z /\ n <= z.
Proof.
  destruct v as [|b|z| | | |]; try discriminate; intros _ H; cbn in *.
  - eexists. split; [reflexivity|]. apply Z.ltb_ge. exact H.
  - exists z. split; [reflexivity|]. apply Z.ltb_ge. exact H.
Qed.

End CliConfig.

(** X19.  [Config.update] stores the items of its argument one after the
    other.  When every key is a key of [DEFAULT_CONFIG] it returns with all
    of them stored; at the first key that is not, it raises [ValueError]
    naming that key, with the items before it already stored and those
    after it ignored.  After the items have been stored, a key holds the
    value of the last item that names it, or what it held before. *)
Theorem config_update_stores_known_prefix :
  (forall items config,
     Forall (fun kv => ConfigClass.known_key (fst kv) = true) items ->
     ConfigClass.update items config = (ConfigClass.Returns tt, stored items config)) /\
  (forall pre key value post config,
     Forall (fun kv => ConfigClass.known_key (fst kv) = true) pre ->
     ConfigClass.known_key key = false ->
     ConfigClass.update (pre ++ (key, value) :: post) config
     = (ConfigClass.Raises ConfigClass.ValueError ("Unknown configuration key: " +:+ key),
        stored pre config)) /\
  (forall items config key,
     stored items config !! key
     = match last (filter (fun kv => fst kv = key) items) with
       | Some kv => Some (snd kv)
       | None => config !! key
       end).
Proof.
  split; [exact update_known|]. split; [exact update_unknown | exact stored_lookup].
Qed.

(** X20.  A [Config] always holds exactly the keys of [DEFAULT_CONFIG]:
    this is so when [__init__] returns, and [update], [set] and
    [load_from_file] keep it whether they return or raise.  So
    [config[key]] never raises [KeyError] for a key of [DEFAULT_CONFIG], and
    [get] gives its default for every other key. *)
Theorem config_keys_invariant :
  (forall cpu_count config_dict config,
     ConfigClass.__init__ cpu_count config_dict = ConfigClass.Returns config ->
     has_default_keys config) /\
  (forall items config,
     has_default_keys config -> has_default_keys (snd (ConfigClass.update items config))) /\
  (forall key value config,
     has_default_keys config -> has_default_keys (snd (ConfigClass.set key value config))) /\
  (forall read_json config_file config,
     has_default_keys config ->
     has_default_keys (snd (ConfigClass.load_from_file read_json config_file config))) /\
  (forall config key,
     has_default_keys config ->
     (ConfigClass.known_key key = true ->
      exists value, ConfigClass.__getitem__ key config = ConfigClass.Returns value) /\
     (ConfigClass.known_key key = false ->
      forall default, ConfigClass.get key default config = default)).
Proof.
  split; [|split; [|split; [|split]]].
  - intros cpu_count config_dict config Hinit.
    apply init_returns in Hinit as (n & items & _ & Hitems & ->).
    apply has_default_keys_stored; [exact Hitems|].
    apply has_default_keys_insert; [reflexivity | apply has_default_keys_default].
  - exact has_default_keys_update.
  - intros key value config Hc. unfold ConfigClass.set.
    destruct (ConfigClass.known_key key) eqn:Hk; [|exact Hc].
    apply has_default_keys_insert; assumption.
  - intros read_json config_file config Hc. unfold ConfigClass.load_from_file.
    destruct (read_json config_file) as [| | |v]; try exact Hc.
    destruct v as [| | | | |l|d]; try exact Hc.
    pose proof (has_default_keys_update d config Hc) as Hu.
    destruct (ConfigClass.update d config) as [[[]|cls msg] c1]; cbn [snd] in *;
      [|exact Hu].
    apply has_default_keys_insert; [reflexivity | exact Hu].
  - intros config key Hc. split.
    + intros Hk. apply Hc in Hk as [value Hv].
      exists value. unfold ConfigClass.__getitem__. rewrite Hv. reflexivity.
    + intros Hk default. unfold ConfigClass.get.
      destruct (config !! key) as [value|] eqn:Hv; [|reflexivity].
      assert (Hsome : is_Some (config !! key)) by eauto.
      apply Hc in Hsome. congruence.
Qed.

(** X21.  [Config.set] on a key of [DEFAULT_CONFIG] stores the value: [get]
    then returns it for that key and what it returned before for every
    other key.  On any other key [set] raises [ValueError] and the
    configuration is unchanged. *)
Theorem config_set_then_get (key : string) (value : ConfigClass.PyVal)
    (config : gmap string ConfigClass.PyVal) :
  (ConfigClass.known_key key = true ->
   exists config',
     ConfigClass.set key value config = (ConfigClass.Returns tt, config') /\
     (forall default, ConfigClass.get key default config' = value) /\
     (forall other default,
        other <> key ->
        ConfigClass.get other default config' = ConfigClass.get other default config)) /\
  (ConfigClass.known_key key = false ->
   ConfigClass.set key value config
   = (ConfigClass.Raises ConfigClass.ValueError ("Unknown configuration key: " +:+ key),
      config)).
Proof.
  unfold ConfigClass.set. split; intros Hk; rewrite Hk; [|reflexivity].
  eexists. split; [reflexivity|]. unfold ConfigClass.get. split.
  - intros default. rewrite lookup_insert_eq. reflexivity.
  - intros other default Hne. rewrite lookup_insert_ne by congruence. reflexivity.
Qed.

(** X22.  In the configuration that [create_config_from_args] returns, the
    nine keys [output_dir], [parallel], [delay], [chunk_size],
    [max_retries], [retry_delay], [force], [verify_integrity] and [pattern]
    hold the values of the command line (its defaults when an option is not
    given), whatever a configuration file says for them: the file is loaded
    first and overwritten.  [workers] holds the command-line value when
    one other than 0 is given; without one and without a configuration file
    it holds 75 percent of the CPU count, at least 1. *)
Theorem cli_values_override_config_file
    (host : ConfigClass.Host) (args : ConfigClass.Args)
    (config : gmap string ConfigClass.PyVal) :
  ConfigClass.create_config_from_args host args = ConfigClass.CliReturns config ->
  (config !! "output_dir" = Some (ConfigClass.PyStr (ConfigClass.arg_output args)) /\
   config !! "parallel" = Some (ConfigClass.PyBool (ConfigClass.arg_parallel args)) /\
   config !! "delay" = Some (ConfigClass.PyFloatV (ConfigClass.arg_delay args)) /\
   config !! "chunk_size" = Some (ConfigClass.PyInt (ConfigClass.arg_chunk_size args)) /\
   config !! "max_retries" = Some (ConfigClass.PyInt (ConfigClass.arg_max_retries args)) /\
   config !! "retry_delay" = Some (ConfigClass.PyFloatV (ConfigClass.arg_retry_delay args)) /\
   config !! "force" = Some (ConfigClass.PyBool (ConfigClass.arg_force args)) /\
   config !! "verify_integrity"
     = Some (ConfigClass.PyBool (negb (ConfigClass.arg_no_verify args))) /\
   config !! "pattern" = Some (ConfigClass.PyStr (ConfigClass.arg_pattern args))) /\
  (forall n,
     ConfigClass.arg_workers args = Some n -> n <> 0 ->
     config !! "workers" = Some (ConfigClass.PyInt n)) /\
  ((ConfigClass.arg_workers args = None \/ ConfigClass.arg_workers args = Some 0) ->
   truthy_opt (ConfigClass.arg_config args) = false ->
   exists cpu_count,
     ConfigClass.host_cpu_count host = Some cpu_count /\
     config !! "workers"
       = Some (ConfigClass.PyInt (Z.max 1 (Z.quot (3 * cpu_count) 4)))).
Proof.
  intros Hrun.
  apply create_config_from_args_returns in Hrun as (before & _ & -> & _ & Hnofile).
  split; [apply stored_cli_values|].
  destruct (stored_cli_workers args before) as (Hw & _).
  split.
  - intros n Hn Hne. rewrite Hw, Hn.
    destruct (Z.eqb_spec n 0); [contradiction | reflexivity].
  - intros Hnone Hno. destruct (Hnofile Hno) as (n & Hn & ->).
    unfold ConfigClass.default_workers in Hn.
    destruct (ConfigClass.host_cpu_count host) as [cpu|]; [|discriminate Hn].
    injection Hn as <-. exists cpu. split; [reflexivity|].
    rewrite Hw. destruct Hnone as [-> | ->]; cbn; apply lookup_insert_eq.
Qed.

(** A configuration file that asks for another output directory and three
    workers, with no option on the command line: the output directory is
    the command line's default, the workers are the file's. *)
Lemma cli_values_override_config_file_witness :
  exists config,
    ConfigClass.create_config_from_args Scenario2.host Scenario2.args
      = ConfigClass.CliReturns config /\
    config !! "output_dir" = Some (ConfigClass.PyStr "downloads") /\
    config !! "workers" = Some (ConfigClass.PyInt 3).
Proof.
  assert (Hworkers :
    match ConfigClass.create_config_from_args Scenario2.host Scenario2.args with
    | ConfigClass.CliReturns config => config !! "workers"
    | _ => None
    end = Some (ConfigClass.PyInt 3)) by (vm_compute; reflexivity).
  destruct (ConfigClass.create_config_from_args Scenario2.host Scenario2.args)
    as [config|code message|cls msg] eqn:Heq;
    [|discriminate Hworkers|discriminate Hworkers].
  exists config. split; [reflexivity|].
  destruct (cli_values_override_config_file Scenario2.host Scenario2.args config Heq)
    as ((Hdir & _) & _).
  split; [exact Hdir | exact Hworkers].
Defined.

(** X23.  A configuration that [create_config_from_args] returns, for
    finite [--delay] and [--retry-delay], gives the engine the values of the
    command line, and these satisfy the checks of [Config.validate] on the
    keys the engine reads: at least one worker, a chunk size of at least 1,
    no negative number of retries, no negative wait. *)
Theorem cli_config_is_valid_for_engine
    (host : ConfigClass.Host) (args : ConfigClass.Args)
    (config : gmap string ConfigClass.PyVal) (delay_seconds retry_seconds : Q) :
  ConfigClass.create_config_from_args host args = ConfigClass.CliReturns config ->
  finite_seconds (ConfigClass.arg_delay args) = Some delay_seconds ->
  finite_seconds (ConfigClass.arg_retry_delay args) = Some retry_seconds ->
  exists cfg,
    ConfigClass.engine_config config = Some cfg /\
    in_domain cfg = true /\
    output_dir cfg = ConfigClass.arg_output args /\
    parallel cfg = ConfigClass.arg_parallel args /\
    delay cfg = delay_seconds /\
    chunk_size cfg = ConfigClass.arg_chunk_size args /\
    max_retries cfg = ConfigClass.arg_max_retries args /\
    retry_delay cfg = retry_seconds /\
    verify_integrity cfg = negb (ConfigClass.arg_no_verify args) /\
    force cfg = ConfigClass.arg_force args /\
    (forall n, ConfigClass.arg_workers args = Some n -> n <> 0 -> workers cfg = n).
Proof.
  intros Hrun Hdelay Hretry.
  apply create_config_from_args_returns in Hrun as (before & _ & -> & Hvalid & _).
  destruct (stored_cli_values args before)
    as (Hdir & Hpar & Hdly & Hchk & Hret & Hrdl & Hfrc & Hver & _).
  destruct (stored_cli_workers args before) as (Hw & _).
  apply validate_returns in Hvalid
    as (v1 & v2 & v3 & v4 & v5 & Hv1 & Hi1 & Hl1 & Hv2 & _ & Hl2 & Hv3 & _ & Hl3
        & Hv4 & _ & Hl4 & Hv5 & _ & Hl5).
  cbv zeta in *.
  rewrite Hdly in Hv2. injection Hv2 as <-.
  rewrite Hchk in Hv3. injection Hv3 as <-.
  rewrite Hret in Hv4. injection Hv4 as <-.
  rewrite Hrdl in Hv5. injection Hv5 as <-.
  destruct (as_int_checked v1 1 Hi1 Hl1) as (wrk & Hwrk & Hge).
  destruct (ConfigClass.arg_delay args) as [dq| |]; try discriminate Hdelay.
  destruct (ConfigClass.arg_retry_delay args) as [rq| |]; try discriminate Hretry.
  cbn in Hdelay, Hretry. injection Hdelay as ->. injection Hretry as ->.
  cbn in Hl2, Hl3, Hl4, Hl5.
  apply negb_false_iff in Hl2, Hl5.
  change (Qle_bool 0 delay_seconds = true) in Hl2.
  change (Qle_bool 0 retry_seconds = true) in Hl5.
  apply Z.ltb_ge in Hl3, Hl4.
  eexists. split.
  - unfold ConfigClass.engine_config.
    rewrite Hdir, Hpar, Hv1, Hdly, Hchk, Hret, Hrdl, Hver, Hfrc. cbn.
    rewrite Hwrk. cbn. reflexivity.
  - cbn [output_dir parallel workers delay chunk_size max_retries retry_delay
           verify_integrity force ConfigClass.truthy].
    split.
    { unfold in_domain. cbn [workers delay chunk_size max_retries retry_delay].
      rewrite Hl2, Hl5.
      rewrite (proj2 (Z.leb_le _ _) Hge), (proj2 (Z.leb_le _ _) Hl3),
        (proj2 (Z.leb_le _ _) Hl4). reflexivity. }
    repeat split.
    intros n Hn Hne. rewrite Hn in Hw.
    destruct (Z.eqb_spec n 0); [contradiction|].
    rewrite Hw in Hv1. injection Hv1 as <-. cbn in Hwrk. congruence.
Qed.

(** The same command line: the engine gets three workers and the default
    values of every other key. *)
Lemma cli_config_is_valid_for_engine_witness :
  exists config cfg,
    ConfigClass.create_config_from_args Scenario2.host Scenario2.args
      = ConfigClass.CliReturns config /\
    ConfigClass.engine_config config = Some cfg /\
    in_domain cfg = true /\
    output_dir cfg = "downloads" /\ max_retries cfg = 3.
Proof.
  assert (Hreturns :
    match ConfigClass.create_config_from_args Scenario2.host Scenario2.args with
    | ConfigClass.CliReturns _ => true
    | _ => false
    end = true) by (vm_compute; reflexivity).
  destruct (ConfigClass.create_config_from_args Scenario2.host Scenario2.args)
    as [config|code message|cls msg] eqn:Heq;
    [|discriminate Hreturns|discriminate Hreturns].
  destruct (cli_config_is_valid_for_engine Scenario2.host Scenario2.args config
              (3602879701896397 # 9007199254740992) 2 Heq eq_refl eq_refl)
    as (cfg & Hcfg & Hvalid & Hdir & _ & _ & _ & Hret & _).
  exists config, cfg. split; [reflexivity|]. split; [exact Hcfg|].
  split; [exact Hvalid|]. split; [exact Hdir | exact Hret].
Defined.

(** ** The transfer unit and the size header *)

(** X24.  The size announced by the response serves the progress lines
    only, yet the transfer depends on it: for a fresh download, when the
    [Content-Length] header of the response cannot be read as an integer
    (or is absent while the expected size is unknown), the call raises that
    error before the local file is opened.  Nothing is written, whatever
    the body holds. *)
Theorem unusable_size_header_fails_before_writing
    (env : Env) (cfg : Config) (url path : string) (expected : option Z)
    (w : World) (resp : Response) :
  fs w !! path = None ->
  env_get env (length (filter (fun ev => is_get ev = true) (trace w)))
    (build_request url 0) = NetResponse resp ->
  is_ok (total_size_of env 0 expected resp) = false ->
  exists e w',
    _download_with_progress env cfg url path expected w = (Raise e, w') /\
    total_size_of env 0 expected resp = Raise e /\
    fs w' = fs w /\
    trace w' = trace w ++ [ EvTransfer url path expected; EvGet (build_request url 0) ].
Proof.
  intros Hnone Hget Hsize.
  unfold _download_with_progress. unfold bind at 1. unfold emit at 1.
  unfold bind at 1. unfold resume_decision. unfold bind at 1.
  rewrite os_path_exists_false by exact Hnone. unfold ret at 1.
  unfold bind at 1. unfold urlopen. cbn [trace].
  rewrite count_gets_transfer, Hget. unfold emit. cbn [trace].
  unfold bind at 1. unfold lift.
  destruct (total_size_of env 0 expected resp) as [n|e]; [discriminate Hsize|].
  eexists _, _. split; [reflexivity|]. split; [reflexivity|]. cbn [fs trace].
  rewrite <- app_assoc. auto.
Qed.

(** A response whose [Content-Length] is not a number, with the five
    bytes of the file in its body. *)
Lemma unusable_size_header_fails_before_writing_witness :
  exists e w',
    _download_with_progress
      (Scenario.with_get Scenario.env_down
         (fun _ _ => NetResponse (Scenario.response_of Scenario.body5 "five")))
      Scenario.cfg Scenario.raw_tar_url "downloads/GSE1_RAW.tar" (Some 5)
      Scenario.w_empty = (Raise e, w') /\
    fs w' = fs Scenario.w_empty.
Proof.
  destruct (unusable_size_header_fails_before_writing
              (Scenario.with_get Scenario.env_down
                 (fun _ _ => NetResponse (Scenario.response_of Scenario.body5 "five")))
              Scenario.cfg Scenario.raw_tar_url "downloads/GSE1_RAW.tar" (Some 5)
              Scenario.w_empty (Scenario.response_of Scenario.body5 "five")
              eq_refl eq_refl eq_refl)
    as (e & w' & Hrun & _ & Hfs & _).
  exists e, w'. split; [exact Hrun | exact Hfs].
Defined.

(** ** The run status is written, never consulted *)

Section StatusBlind.

Lemma same_event_refl e : same_event e e.
Proof. destruct e; cbn; auto. Qed.

Lemma same_events_length t1 t2 : Forall2 same_event t1 t2 -> length t1 = length t2.
Proof. apply Forall2_length. Qed.

Lemma same_events_filter (p : Event -> bool) t1 t2 :
  (forall e1 e2, same_event e1 e2 -> p e1 = p e2) ->
  Forall2 same_event t1 t2 ->
  Forall2 same_event (filter (fun e => p e = true) t1) (filter (fun e => p e = true) t2).
Proof.
  intros Hp. induction 1 as [|e1 e2 t1 t2 He _ IH]; [constructor|].
  rewrite !filter_cons. rewrite <- (Hp _ _ He).
  destruct (decide (p e1 = true)); [constructor; assumption | exact IH].
Qed.

Lemma same_events_gets t1 t2 :
  Forall2 same_event t1 t2 ->
  length (filter (fun e => is_get e = true) t1)
  = length (filter (fun e => is_get e = true) t2).
Proof.
  intros H. apply same_events_length, same_events_filter; [|exact H].
  intros [] []; cbn; congruence || discriminate || reflexivity.
Qed.

Lemma same_events_saves t1 t2 :
  Forall2 same_event t1 t2 ->
  length (filter (fun e => is_save e = true) t1)
  = length (filter (fun e => is_save e = true) t2).
Proof.
  intros H. apply same_events_length, same_events_filter; [|exact H].
  intros [] []; cbn; congruence || discriminate || reflexivity.
Qed.

Lemma same_events_network t1 t2 :
  Forall2 same_event t1 t2 -> network_calls t1 = network_calls t2.
Proof.
  unfold network_calls. induction 1 as [|e1 e2 t1 t2 He _ IH]; [reflexivity|].
  rewrite !filter_cons.
  destruct e1, e2; cbn in He; try discriminate He; try (injection He as ->);
    cbn; rewrite ?IH; try reflexivity.
Qed.

Lemma same_events_snoc t1 t2 e1 e2 :
  Forall2 same_event t1 t2 -> same_event e1 e2 ->
  Forall2 same_event (t1 ++ [e1]) (t2 ++ [e2]).
Proof. intros Ht He. apply Forall2_app; [exact Ht | constructor; [exact He|constructor]]. Qed.

Lemma blind_bind {A B} (ma mb : M A) (ka kb : A -> M B) :
  status_blind2 ma mb -> (forall a, status_blind2 (ka a) (kb a)) ->
  status_blind2 (bind ma ka) (bind mb kb).
Proof.
  intros Hm Hk w1 w2 HR. unfold bind.
  destruct (Hm w1 w2 HR) as [Hres Hw].
  destruct (ma w1) as [[a|e] wa], (mb w2) as [[b|e'] wb]; cbn [fst snd] in *;
    try discriminate Hres.
  - injection Hres as <-. apply Hk. exact Hw.
  - injection Hres as <-. auto.
Qed.

Lemma blind_try_except {A} (ma mb : M A) (ha hb : string -> M A) :
  status_blind2 ma mb -> (forall e, status_blind2 (ha e) (hb e)) ->
  status_blind2 (try_except ma ha) (try_except mb hb).
Proof.
  intros Hm Hh w1 w2 HR. unfold try_except.
  destruct (Hm w1 w2 HR) as [Hres Hw].
  destruct (ma w1) as [[a|e] wa], (mb w2) as [[b|e'] wb]; cbn [fst snd] in *;
    try discriminate Hres.
  - injection Hres as <-. auto.
  - injection Hres as <-. apply Hh. exact Hw.
Qed.

Lemma blind_try_result {A} (ma mb : M A) :
  status_blind2 ma mb -> status_blind2 (try_result ma) (try_result mb).
Proof.
  intros Hm w1 w2 HR. unfold try_result.
  destruct (Hm w1 w2 HR) as [Hres Hw].
  destruct (ma w1) as [ra wa], (mb w2) as [rb wb]; cbn [fst snd] in *.
  subst rb. auto.
Qed.

(** The current world may be read when what is done with it is blind. *)
Lemma blind_get_world {A} (ka kb : World -> M A) :
  (forall wa wb, same_but_status wa wb -> status_blind2 (ka wa) (kb wb)) ->
  status_blind2 (bind get_world ka) (bind get_world kb).
Proof. intros Hk w1 w2 HR. unfold bind, get_world. apply Hk; exact HR. Qed.

Lemma blind_ret {A} (a : A) : status_blind (ret a).
Proof. intros w1 w2 HR. auto. Qed.

Lemma blind_raise {A} (e : string) : status_blind (@raise A e).
Proof. intros w1 w2 HR. auto. Qed.

Lemma blind_lift {A} (x : pyresult A) : status_blind (lift x).
Proof. intros w1 w2 HR. auto. Qed.

Lemma blind_print2 l1 l2 : status_blind2 (print l1) (print l2).
Proof. intros w1 w2 HR. split; [reflexivity | exact HR]. Qed.

Lemma blind_emit2 e1 e2 : same_event e1 e2 -> status_blind2 (emit e1) (emit e2).
Proof.
  intros He w1 w2 [Hfs Ht]. split; [reflexivity|]. split; [exact Hfs|].
  cbn. apply same_events_snoc; assumption.
Qed.

Lemma blind_emit e : status_blind (emit e).
Proof. apply blind_emit2, same_event_refl. Qed.

Lemma blind_set_fs files : status_blind (set_fs files).
Proof. intros w1 w2 [Hfs Ht]. split; [reflexivity|]. split; [reflexivity | exact Ht]. Qed.

Lemma blind_set_status_disk2 sf1 sf2 :
  status_blind2 (set_status_disk sf1) (set_status_disk sf2).
Proof. intros w1 w2 HR. split; [reflexivity | exact HR]. Qed.

Lemma blind_set_download_status2 m1 m2 :
  status_blind2 (set_download_status m1) (set_download_status m2).
Proof. intros w1 w2 HR. split; [reflexivity | exact HR]. Qed.

Lemma blind_os_path_exists p : status_blind (os_path_exists p).
Proof.
  intros w1 w2 [Hfs Ht]. unfold os_path_exists. cbn. rewrite Hfs.
  split; [reflexivity|]. split; assumption.
Qed.

Lemma blind_os_path_getsize p : status_blind (os_path_getsize p).
Proof.
  intros w1 w2 [Hfs Ht]. unfold os_path_getsize, file_size. rewrite Hfs.
  destruct (fs w2 !! p); cbn; (split; [reflexivity|]); split; assumption.
Qed.

Lemma blind_time_sleep d : status_blind (time_sleep d).
Proof.
  unfold time_sleep. destruct (Qle_bool 0 d); [apply blind_emit | apply blind_raise].
Qed.

Lemma blind_time_time env : status_blind (time_time env).
Proof.
  intros w1 w2 [Hfs Ht]. unfold time_time. cbn.
  rewrite (same_events_length _ _ Ht). split; [reflexivity|]. split; assumption.
Qed.

Lemma blind_urlopen env req : status_blind (urlopen env req).
Proof.
  intros w1 w2 [Hfs Ht]. unfold urlopen, emit.
  rewrite (same_events_gets _ _ Ht).
  destruct (env_get env _ req); cbn; (split; [reflexivity|]);
    (split; [exact Hfs|]); apply same_events_snoc; auto; apply same_event_refl.
Qed.

Lemma blind_write_stream cfg p append resp : status_blind (write_stream cfg p append resp).
Proof.
  intros w1 w2 [Hfs Ht]. unfold write_stream, set_fs. rewrite Hfs.
  destruct (read_loop _ _ _ _ _). cbn [fst snd fs trace].
  split; [reflexivity|]. split; [reflexivity | exact Ht].
Qed.

Ltac blind_step :=
  first
    [ assumption
    | match goal with H : forall _, status_blind _ |- _ => apply H end
    | match goal with H : forall _ _, status_blind _ |- _ => apply H end
    | apply blind_ret | apply blind_raise | apply blind_lift
    | apply blind_print2 | apply blind_emit | apply blind_set_fs
    | apply blind_os_path_exists | apply blind_os_path_getsize
    | apply blind_time_sleep | apply blind_time_time | apply blind_urlopen
    | apply blind_write_stream
    | apply blind_try_result
    | apply blind_bind; [|intros ?]
    | apply blind_try_except; [|intros ?]
    | match goal with
      | |- status_blind (if ?b then _ else _) => destruct b
      | |- status_blind (match ?x with _ => _ end) => destruct x
      | |- status_blind (let (_, _) := ?x in _) => destruct x
      | |- status_blind2 (if ?b then _ else _) (if ?b then _ else _) => destruct b
      | |- status_blind2 (match ?x with _ => _ end) (match ?x with _ => _ end) =>
          destruct x
      | |- status_blind2 (let (_, _) := ?x in _) (let (_, _) := ?x in _) => destruct x
      end
    | progress (unfold status_blind) ].

Ltac blind_auto := repeat blind_step.

Lemma blind_verify_file_integrity p e : status_blind (verify_file_integrity p e).
Proof. unfold verify_file_integrity. blind_auto. Qed.

Lemma blind_get_file_size env url : status_blind (get_file_size env url).
Proof. unfold get_file_size. blind_auto. Qed.

Lemma blind_download_with_progress env cfg url p e :
  status_blind (_download_with_progress env cfg url p e).
Proof. unfold _download_with_progress, resume_decision. blind_auto. Qed.

Lemma blind_download_attempt env cfg fn url p e :
  status_blind (download_attempt env cfg fn url p e).
Proof.
  unfold download_attempt.
  pose proof (blind_download_with_progress env cfg url p e).
  pose proof (blind_verify_file_integrity p e).
  blind_auto.
Qed.

Lemma blind_retry_loop env cfg fn url p e attempts :
  status_blind (retry_loop env cfg fn url p e attempts).
Proof.
  pose proof (blind_download_attempt env cfg fn url p e).
  induction attempts as [|a attempts IH]; cbn [retry_loop];
    unfold wait_before_retry; blind_auto.
Qed.

Lemma blind_download_single_file env cfg gse_id fi :
  status_blind (_download_single_file env cfg gse_id fi).
Proof.
  unfold _download_single_file, already_complete.
  pose proof (blind_retry_loop env cfg (rf_filename fi) (rf_url fi)
                (local_path_of cfg fi) (rf_size_bytes fi)
                (py_range (max_retries cfg + 1))).
  pose proof (blind_verify_file_integrity (local_path_of cfg fi) (rf_size_bytes fi)).
  blind_auto.
Qed.

Lemma blind_sequential_loop env cfg gse_id n files : forall i acc,
  status_blind (sequential_loop env cfg gse_id n i files acc).
Proof.
  induction files as [|fi files IH]; intros i acc; cbn [sequential_loop].
  - blind_auto.
  - pose proof (blind_download_single_file env cfg gse_id fi).
    blind_auto.
Qed.

Lemma blind_collect_completed env cfg gse_id raw_files order : forall acc,
  status_blind (collect_completed env cfg gse_id raw_files order acc).
Proof.
  induction order as [|k order IH]; intros acc; cbn [collect_completed].
  - blind_auto.
  - destruct (raw_files !! k) as [fi|]; [|apply IH].
    pose proof (blind_download_single_file env cfg gse_id fi).
    blind_auto.
Qed.

Lemma blind_probe_raw_files env suppl names : forall acc,
  status_blind (probe_raw_files env suppl names acc).
Proof.
  induction names as [|nm names IH]; intros acc; cbn [probe_raw_files].
  - blind_auto.
  - destruct (is_raw nm); [|apply IH].
    pose proof (blind_get_file_size env (suppl +:+ nm)).
    blind_auto.
Qed.

Lemma blind_get_gse_metadata env gse_id : status_blind (get_gse_metadata env gse_id).
Proof.
  unfold get_gse_metadata, _check_raw_files.
  pose proof (fun names => blind_probe_raw_files env (suppl_url gse_id) names []).
  blind_auto.
Qed.

Lemma blind_download_gse_dataset env cfg gse_id :
  status_blind (download_gse_dataset env cfg gse_id).
Proof.
  unfold download_gse_dataset, _download_files_parallel, _download_files_sequential.
  pose proof (blind_get_gse_metadata env gse_id).
  pose proof (fun n files => blind_sequential_loop env cfg gse_id n files 1 []).
  pose proof (fun files order => blind_collect_completed env cfg gse_id files order []).
  blind_auto.
Qed.

(** Writing the status: the snapshot differs, the rest does not. *)
Lemma blind_save_download_status env : status_blind (save_download_status env).
Proof.
  unfold save_download_status. apply blind_try_except; [|intros e; apply blind_print2].
  apply blind_get_world. intros wa wb [_ Ht].
  rewrite (same_events_saves _ _ Ht).
  apply blind_bind; [apply blind_emit2; exact I|intros _].
  destruct (env_save env _).
  - apply blind_set_status_disk2.
  - apply blind_raise.
  - apply blind_bind; [apply blind_set_status_disk2 | intros _; apply blind_raise].
Qed.

(** Reading the status changes nothing but the status. *)
Lemma blind_load_download_status : status_blind load_download_status.
Proof.
  intros w1 w2 HR.
  destruct (load_download_status_run w1) as (w1' & -> & _ & Ht1 & _ & Hfs1 & _).
  destruct (load_download_status_run w2) as (w2' & -> & _ & Ht2 & _ & Hfs2 & _).
  cbn [fst snd]. split; [reflexivity|]. destruct HR as [Hfs Ht].
  split; [congruence|]. rewrite Ht1, Ht2. exact Ht.
Qed.

(** One iteration of the loop over the datasets, when the status is a
    dictionary: the update goes through and the loop goes on. *)
Lemma datasets_loop_unfold env cfg n i gse_id rest acc w r w1 m :
  download_gse_dataset env cfg gse_id (snd (print (LInfoDataset i n gse_id) w)) = (Ok r, w1) ->
  download_status w = StatusDict m ->
  datasets_loop env cfg n i (gse_id :: rest) acc w
  = bind (if i mod 5 =? 0 then save_download_status env else ret tt)
      (fun _ => datasets_loop env cfg n (i + 1) rest (acc ++ [r]))
      (snd (set_download_status (StatusDict (<[gse_id := r]> m)) w1)).
Proof.
  intros Hrun Hdict. cbn [datasets_loop]. unfold bind at 1.
  destruct (print (LInfoDataset i n gse_id) w) as [[[]|?] wp] eqn:Hp; [|discriminate Hp].
  cbn [snd] in Hrun. unfold bind at 1. rewrite Hrun.
  destruct (quiet_download_gse_dataset env cfg gse_id _ _ _ Hrun) as (Hd & _ & _).
  injection Hp as <-. cbn [download_status] in Hd.
  unfold bind at 1. unfold get_world at 1. unfold bind at 1.
  rewrite Hd, Hdict. cbn [status_setitem]. unfold lift at 1.
  unfold bind at 1. unfold set_download_status at 1. reflexivity.
Qed.

Lemma bind_returns {A B} (m : M A) (k : A -> M B) w a w' :
  m w = (Ok a, w') -> bind m k w = k a w'.
Proof. intros H. unfold bind. rewrite H. reflexivity. Qed.

Lemma blind_at_bind {A B} (ma mb : M A) (ka kb : A -> M B) w1 w2 :
  fst (ma w1) = fst (mb w2) -> same_but_status (snd (ma w1)) (snd (mb w2)) ->
  (forall a wa wb,
     ma w1 = (Ok a, wa) -> mb w2 = (Ok a, wb) ->
     fst (ka a wa) = fst (kb a wb) /\ same_but_status (snd (ka a wa)) (snd (kb a wb))) ->
  fst (bind ma ka w1) = fst (bind mb kb w2) /\
  same_but_status (snd (bind ma ka w1)) (snd (bind mb kb w2)).
Proof.
  intros Hres Hw Hk. unfold bind.
  destruct (ma w1) as [[a|e] wa], (mb w2) as [[b|e'] wb]; cbn [fst snd] in *;
    try discriminate Hres.
  - injection Hres as <-. apply Hk; reflexivity.
  - injection Hres as <-. auto.
Qed.

(** The loop over the datasets goes the same way from two worlds that
    agree but for the status, as long as the status is a dictionary in
    both. *)
Lemma blind_datasets_loop env cfg n : forall gse_ids i acc w1 w2 m1 m2,
  same_but_status w1 w2 ->
  download_status w1 = StatusDict m1 ->
  download_status w2 = StatusDict m2 ->
  fst (datasets_loop env cfg n i gse_ids acc w1)
  = fst (datasets_loop env cfg n i gse_ids acc w2) /\
  same_but_status (snd (datasets_loop env cfg n i gse_ids acc w1))
    (snd (datasets_loop env cfg n i gse_ids acc w2)).
Proof.
  induction gse_ids as [|gse_id rest IH]; intros i acc w1 w2 m1 m2 HR H1 H2.
  - cbn. auto.
  - pose proof (blind_print2 (LInfoDataset i n gse_id) (LInfoDataset i n gse_id) w1 w2 HR)
      as [_ HRp].
    destruct (blind_download_gse_dataset env cfg gse_id _ _ HRp) as [Hres Hw].
    destruct (download_gse_dataset env cfg gse_id
                (snd (print (LInfoDataset i n gse_id) w1))) as [[r|e] wa] eqn:Ha;
      destruct (download_gse_dataset env cfg gse_id
                  (snd (print (LInfoDataset i n gse_id) w2))) as [[r2|e2] wb] eqn:Hb;
      cbn [fst snd] in Hres, Hw; try discriminate Hres.
    + injection Hres as <-.
      rewrite (datasets_loop_unfold env cfg n i gse_id rest acc w1 r wa m1 Ha H1).
      rewrite (datasets_loop_unfold env cfg n i gse_id rest acc w2 r wb m2 Hb H2).
      set (wa1 := snd (set_download_status (StatusDict (<[gse_id := r]> m1)) wa)).
      set (wb1 := snd (set_download_status (StatusDict (<[gse_id := r]> m2)) wb)).
      assert (HR1 : same_but_status wa1 wb1) by exact Hw.
      destruct (i mod 5 =? 0).
      * destruct (blind_save_download_status env wa1 wb1 HR1) as [_ HR2].
        destruct (save_download_status_run env wa1) as (wa2 & Hsa & _ & Hda & _).
        destruct (save_download_status_run env wb1) as (wb2 & Hsb & _ & Hdb & _).
        rewrite Hsa, Hsb in HR2. cbn [snd] in HR2.
        rewrite (bind_returns _ _ _ _ _ Hsa), (bind_returns _ _ _ _ _ Hsb).
        apply (IH _ _ _ _ (<[gse_id := r]> m1) (<[gse_id := r]> m2) HR2);
          [rewrite Hda | rewrite Hdb]; reflexivity.
      * rewrite (bind_returns (ret tt) _ wa1 tt wa1 eq_refl).
        rewrite (bind_returns (ret tt) _ wb1 tt wb1 eq_refl).
        apply (IH _ _ _ _ (<[gse_id := r]> m1) (<[gse_id := r]> m2) HR1); reflexivity.
    + injection Hres as <-.
      assert (Hl : forall w e0 w',
        download_gse_dataset env cfg gse_id (snd (print (LInfoDataset i n gse_id) w))
          = (Raise e0, w') ->
        datasets_loop env cfg n i (gse_id :: rest) acc w = (Raise e0, w')).
      { intros w e0 w' Hds. cbn [datasets_loop]. unfold bind at 1.
        destruct (print (LInfoDataset i n gse_id) w) as [[[]|?] wp] eqn:Hp;
          [|discriminate Hp].
        cbn [snd] in Hds. unfold bind at 1. rewrite Hds. reflexivity. }
      rewrite (Hl _ _ _ Ha), (Hl _ _ _ Hb). cbn [fst snd]. auto.
Qed.

Lemma blind_download_multiple_datasets env cfg gse_ids w1 w2 m1 m2 :
  fs w1 = fs w2 -> trace w1 = trace w2 ->
  loaded_status w1 = StatusDict m1 ->
  loaded_status w2 = StatusDict m2 ->
  fst (download_multiple_datasets env cfg gse_ids w1)
  = fst (download_multiple_datasets env cfg gse_ids w2) /\
  same_but_status (snd (download_multiple_datasets env cfg gse_ids w1))
    (snd (download_multiple_datasets env cfg gse_ids w2)).
Proof.
  intros Hfs Ht Hl1 Hl2.
  assert (Hrefl : forall t, Forall2 same_event t t).
  { intros t. apply Forall2_same_length_lookup.
    split; [reflexivity|]. intros i e1 e2 Ha Hb. rewrite Ha in Hb.
    injection Hb as <-. apply same_event_refl. }
  destruct gse_ids as [|g rest].
  { cbn. split; [reflexivity|]. split; [exact Hfs|]. rewrite Ht. apply Hrefl. }
  destruct (download_multiple_datasets_start env cfg g rest w1)
    as (wa & -> & Hda & Hta & _ & Hfa).
  destruct (download_multiple_datasets_start env cfg g rest w2)
    as (wb & -> & Hdb & Htb & _ & Hfb).
  rewrite Hl1 in Hda. rewrite Hl2 in Hdb. rewrite Ht.
  assert (HR : same_but_status wa wb).
  { split; [congruence|]. rewrite Hta, Htb, Ht. apply Hrefl. }
  destruct (blind_datasets_loop env cfg (Z.of_nat (length (g :: rest))) (g :: rest) 1 []
              wa wb m1 m2 HR Hda Hdb) as [Hres Hw].
  apply blind_at_bind; [exact Hres | exact Hw|].
  intros results wa' wb' Hra Hrb. rewrite Hra, Hrb in Hw. cbn [snd] in Hw.
  clear Hra Hrb. revert wa' wb' Hw.
  change (status_blind
            (save_download_status env >>>
             let* end_time := time_time env in
             let total_time := (end_time - env_clock env (length (trace w2)))%Q in
             let completed := count_status is_completed results in
             let partial := count_status is_partial results in
             let failed := count_status is_failed_or_no_raw results in
             print (LSummary (Z.of_nat (length results)) completed partial failed
                      total_time) >>>
             ret (RunDone {| rs_total := Z.of_nat (length results);
                             rs_completed := completed; rs_partial := partial;
                             rs_failed := failed; rs_results := results;
                             rs_total_time := total_time |}))).
  apply blind_bind; [apply blind_save_download_status|intros _].
  apply blind_bind; [apply blind_time_time|intros t1].
  apply blind_bind; [apply blind_print2|intros _].
  apply blind_ret.
Qed.

End StatusBlind.

(** X25.  When the status a run loads is a mapping (the status file is
    absent, unreadable, or holds a JSON object or a JSON scalar), the status
    file is written but never consulted: what the run returns (its summary
    with every dataset result, or the exception it raises), the network
    calls it makes and the files it leaves do not depend on the status file
    it finds or on the status already in memory.  In particular a dataset
    recorded as completed by an earlier run is processed again. *)
Theorem status_file_is_never_consulted
    (env : Env) (cfg : Config) (gse_ids : list string) (w w2 : World)
    (m m2 : gmap string DatasetResult) :
  fs w2 = fs w ->
  trace w2 = trace w ->
  loaded_status w = StatusDict m ->
  loaded_status w2 = StatusDict m2 ->
  let run := download_multiple_datasets env cfg gse_ids w in
  let run2 := download_multiple_datasets env cfg gse_ids w2 in
  fst run2 = fst run /\
  fs (snd run2) = fs (snd run) /\
  network_calls (trace (snd run2)) = network_calls (trace (snd run)).
Proof.
  intros Hfs Ht Hl Hl2. cbv zeta.
  destruct (blind_download_multiple_datasets env cfg gse_ids w2 w m2 m Hfs Ht Hl2 Hl)
    as (Hres & Hfs' & Ht').
  split; [exact Hres|]. split; [exact Hfs'|]. apply same_events_network. exact Ht'.
Qed.

(** The series GSE1 over an empty directory, once with no status file and
    once with a status file that records GSE1 as completed: the archive is
    fetched in both runs. *)
Lemma status_file_is_never_consulted_witness :
  let earlier := {| dr_gse_id := "GSE1"; dr_status := DsCompleted; dr_error := None;
                    dr_files := []; dr_metadata := None |} in
  let w := Scenario.w_empty in
  let w2 := init_world ∅ (SfJson (StatusDict {[ "GSE1" := earlier ]})) in
  let run := download_multiple_datasets Scenario.env_gse1 Scenario.cfg_once [ "GSE1" ] w in
  let run2 := download_multiple_datasets Scenario.env_gse1 Scenario.cfg_once [ "GSE1" ] w2 in
  fst run2 = fst run /\
  fs (snd run2) = fs (snd run) /\
  network_calls (trace (snd run2)) = network_calls (trace (snd run)) /\
  file_size (snd run2) "downloads/GSE1_RAW.tar" = Some 5.
Proof.
  intros earlier w w2 run run2.
  destruct (status_file_is_never_consulted Scenario.env_gse1 Scenario.cfg_once [ "GSE1" ]
              w w2 ∅ {[ "GSE1" := earlier ]} eq_refl eq_refl eq_refl eq_refl)
    as (Hres & Hfs & Hnet).
  split; [exact Hres|]. split; [exact Hfs|]. split; [exact Hnet|].
  vm_compute. reflexivity.
Defined.

(** ** What a run asks of the network *)

Section Events.

Lemma emits_only_silent {A} (P : Event -> Prop) (m : M A) :
  (forall w, trace (snd (m w)) = trace w) -> emits_only P m.
Proof.
  intros H w r w' Hrun. specialize (H w). rewrite Hrun in H. cbn [snd] in H.
  exists []. rewrite app_nil_r. split; [exact H | constructor].
Qed.

Lemma emits_only_bind {A B} P (m : M A) (k : A -> M B) :
  emits_only P m -> (forall a, emits_only P (k a)) -> emits_only P (bind m k).
Proof.
  intros Hm Hk w r w'. unfold bind.
  destruct (m w) as [[a|e] w1] eqn:Hrun.
  - intros Hrun2. destruct (Hm _ _ _ Hrun) as (n1 & Ht1 & Hp1).
    destruct (Hk a _ _ _ Hrun2) as (n2 & Ht2 & Hp2).
    exists (n1 ++ n2). rewrite Ht2, Ht1, <- app_assoc.
    split; [reflexivity | apply Forall_app; auto].
  - intros [= <- <-]. exact (Hm _ _ _ Hrun).
Qed.

Lemma emits_only_try_except {A} P (m : M A) (h : string -> M A) :
  emits_only P m -> (forall e, emits_only P (h e)) -> emits_only P (try_except m h).
Proof.
  intros Hm Hh w r w'. unfold try_except.
  destruct (m w) as [[a|e] w1] eqn:Hrun.
  - intros [= <- <-]. exact (Hm _ _ _ Hrun).
  - intros Hrun2. destruct (Hm _ _ _ Hrun) as (n1 & Ht1 & Hp1).
    destruct (Hh e _ _ _ Hrun2) as (n2 & Ht2 & Hp2).
    exists (n1 ++ n2). rewrite Ht2, Ht1, <- app_assoc.
    split; [reflexivity | apply Forall_app; auto].
Qed.

Lemma emits_only_try_result {A} P (m : M A) :
  emits_only P m -> emits_only P (try_result m).
Proof.
  intros Hm w r w'. unfold try_result.
  destruct (m w) as [a w1] eqn:Hrun. intros [= <- <-]. exact (Hm _ _ _ Hrun).
Qed.

Lemma emits_only_ret {A} P (a : A) : emits_only P (ret a).
Proof. apply emits_only_silent. reflexivity. Qed.

Lemma emits_only_raise {A} P (e : string) : emits_only P (@raise A e).
Proof. apply emits_only_silent. reflexivity. Qed.

Lemma emits_only_lift {A} P (x : pyresult A) : emits_only P (lift x).
Proof. apply emits_only_silent. reflexivity. Qed.

Lemma emits_only_print P l : emits_only P (print l).
Proof. apply emits_only_silent. reflexivity. Qed.

Lemma emits_only_get_world P : emits_only P get_world.
Proof. apply emits_only_silent. reflexivity. Qed.

Lemma emits_only_set_status_disk P sf : emits_only P (set_status_disk sf).
Proof. apply emits_only_silent. reflexivity. Qed.

Lemma emits_only_set_download_status P m : emits_only P (set_download_status m).
Proof. apply emits_only_silent. reflexivity. Qed.

Lemma emits_only_os_path_exists P p : emits_only P (os_path_exists p).
Proof. apply emits_only_silent. reflexivity. Qed.

Lemma emits_only_os_path_getsize P p : emits_only P (os_path_getsize p).
Proof.
  apply emits_only_silent. intros w. unfold os_path_getsize.
  destruct (file_size w p); reflexivity.
Qed.

Lemma emits_only_time_time P env : emits_only P (time_time env).
Proof. apply emits_only_silent. reflexivity. Qed.

Lemma emits_only_write_stream P cfg p append resp :
  emits_only P (write_stream cfg p append resp).
Proof.
  apply emits_only_silent. intros w. unfold write_stream, set_fs.
  destruct (read_loop _ _ _ _ _). reflexivity.
Qed.

Lemma emits_only_emit (P : Event -> Prop) e : P e -> emits_only P (emit e).
Proof.
  intros He w r w' [= <- <-]. exists [e]. split; [reflexivity|].
  constructor; [exact He | constructor].
Qed.

Lemma emits_only_time_sleep (P : Event -> Prop) d :
  P (EvSleep d) -> emits_only P (time_sleep d).
Proof.
  intros Hd. unfold time_sleep. destruct (Qle_bool 0 d).
  - apply emits_only_emit. exact Hd.
  - apply emits_only_raise.
Qed.

Lemma emits_only_urlopen (P : Event -> Prop) env req :
  P (EvGet req) -> emits_only P (urlopen env req).
Proof.
  intros Hreq w r w'. unfold urlopen, emit.
  destruct (env_get env _ req); intros [= <- <-]; exists [EvGet req];
    (split; [reflexivity|]); constructor; (exact Hreq || constructor).
Qed.

Ltac events_step :=
  first
    [ assumption
    | match goal with H : forall _, emits_only _ _ |- _ => apply H end
    | match goal with H : forall _ _, emits_only _ _ |- _ => apply H end
    | apply emits_only_ret | apply emits_only_raise | apply emits_only_lift
    | apply emits_only_print | apply emits_only_get_world
    | apply emits_only_set_status_disk | apply emits_only_set_download_status
    | apply emits_only_os_path_exists | apply emits_only_os_path_getsize
    | apply emits_only_time_time | apply emits_only_write_stream
    | apply emits_only_try_result
    | apply emits_only_bind; [|intros ?]
    | apply emits_only_try_except; [|intros ?]
    | match goal with
      | |- emits_only _ (if ?b then _ else _) => destruct b
      | |- emits_only _ (match ?x with _ => _ end) => destruct x
      | |- emits_only _ (let (_, _) := ?x in _) => destruct x
      end ].

Ltac events_auto := repeat events_step.

Variables (env : Env) (cfg : Config) (gse_ids : list string).

Let P := run_event cfg gse_ids.

Lemma emits_only_verify_file_integrity p e : emits_only P (verify_file_integrity p e).
Proof. unfold verify_file_integrity. events_auto. Qed.

Lemma emits_only_save_download_status : emits_only P (save_download_status env).
Proof.
  unfold save_download_status.
  assert (forall m, emits_only P (emit (EvSave m))) by (intros m; apply emits_only_emit; exact I).
  events_auto.
Qed.

Lemma emits_only_load_download_status : emits_only P load_download_status.
Proof. unfold load_download_status. events_auto. Qed.

(** One raw file of one of the series. *)
Section OneFile.

Variables (gse_id name : string) (size : option Z).
Hypothesis listed : gse_id ∈ gse_ids.
Hypothesis raw : is_raw name = true.

Let url := suppl_url gse_id +:+ name.
Let path := path_join (output_dir cfg) (safe_filename name).

Lemma emits_only_get_file_size : emits_only P (get_file_size env url).
Proof.
  unfold get_file_size.
  apply emits_only_bind; [|intros _; events_auto].
  apply emits_only_emit. exists gse_id, name.
  split; [exact listed|]. split; [exact raw|]. symmetry. apply build_geo_url_suppl.
Qed.

Lemma emits_only_download_with_progress :
  emits_only P (_download_with_progress env cfg url path size).
Proof.
  unfold _download_with_progress, resume_decision.
  apply emits_only_bind.
  { apply emits_only_emit. exists gse_id, name.
    split; [exact listed|]. split; [exact raw|].
    split; [symmetry; apply build_geo_url_suppl | reflexivity]. }
  intros _. apply emits_only_bind; [events_auto|intros [resume_pos append]].
  apply emits_only_bind; [|intros resp; events_auto].
  apply emits_only_urlopen. exists gse_id, name.
  split; [exact listed|]. split; [exact raw|]. symmetry. apply build_geo_url_suppl.
Qed.

Lemma emits_only_download_attempt fn : emits_only P (download_attempt env cfg fn url path size).
Proof.
  unfold download_attempt.
  pose proof emits_only_download_with_progress.
  pose proof (emits_only_verify_file_integrity path size).
  events_auto.
Qed.

Lemma emits_only_retry_loop fn attempts :
  emits_only P (retry_loop env cfg fn url path size attempts).
Proof.
  pose proof (emits_only_download_attempt fn).
  assert (Hsleep : emits_only P (time_sleep (retry_delay cfg))).
  { apply emits_only_time_sleep. right. reflexivity. }
  induction attempts as [|a attempts IH]; cbn [retry_loop];
    unfold wait_before_retry; events_auto.
Qed.

Lemma emits_only_download_single_file g :
  emits_only P (_download_single_file env cfg g
                  {| rf_filename := name; rf_url := url; rf_size_bytes := size;
                     rf_size_human := size_human_of size |}).
Proof.
  unfold _download_single_file, already_complete, local_path_of.
  cbn [rf_filename rf_url rf_size_bytes]. fold path.
  pose proof (emits_only_retry_loop name (py_range (max_retries cfg + 1))).
  pose proof (emits_only_verify_file_integrity path size).
  events_auto.
Qed.

End OneFile.

(** The raw files of one of the series. *)
Section OneSeries.

Variable gse_id : string.
Hypothesis listed : gse_id ∈ gse_ids.

Lemma emits_only_sequential_loop n names : forall i acc,
  Forall (fun name => is_raw name = true) names ->
  emits_only P
    (sequential_loop env cfg gse_id n i (map (raw_entry env (suppl_url gse_id)) names) acc).
Proof.
  assert (Hsleep : emits_only P (time_sleep (delay cfg))).
  { apply emits_only_time_sleep. left. reflexivity. }
  induction names as [|name names IH]; intros i acc Hraw; cbn [map sequential_loop].
  - events_auto.
  - apply Forall_cons in Hraw as [Hname Hrest].
    pose proof (emits_only_download_single_file gse_id name
                  (probed_size env (suppl_url gse_id +:+ name)) listed Hname gse_id)
      as Hfile.
    specialize (fun i acc => IH i acc Hrest).
    apply emits_only_bind; [apply emits_only_print|intros _].
    apply emits_only_bind; [exact Hfile|intros result].
    apply emits_only_bind; [|intros _; apply IH].
    destruct ((i <? n) && negb (Qle_bool (delay cfg) 0)); [exact Hsleep|apply emits_only_ret].
Qed.

Lemma emits_only_collect_completed names order : forall acc,
  Forall (fun name => is_raw name = true) names ->
  emits_only P
    (collect_completed env cfg gse_id (map (raw_entry env (suppl_url gse_id)) names)
       order acc).
Proof.
  intros acc Hraw. revert acc.
  induction order as [|k order IH]; intros acc; cbn [collect_completed].
  - events_auto.
  - destruct (map (raw_entry env (suppl_url gse_id)) names !! k) as [fi|] eqn:Hk;
      [|apply IH].
    apply list_lookup_fmap_Some_1 in Hk as (name & -> & Hname).
    assert (Hn : is_raw name = true).
    { rewrite Forall_forall in Hraw. apply Hraw. eapply list_elem_of_lookup_2. exact Hname. }
    pose proof (emits_only_download_single_file gse_id name
                  (probed_size env (suppl_url gse_id +:+ name)) listed Hn gse_id)
      as Hfile.
    apply emits_only_bind; [apply emits_only_try_result; exact Hfile|intros r].
    apply IH.
Qed.

Lemma emits_only_probe_raw_files names : forall acc,
  emits_only P (probe_raw_files env (suppl_url gse_id) names acc).
Proof.
  induction names as [|nm names IH]; intros acc; cbn [probe_raw_files].
  - events_auto.
  - destruct (is_raw nm) eqn:Hraw; [|apply IH].
    pose proof (emits_only_get_file_size gse_id nm listed Hraw).
    events_auto.
Qed.

Lemma emits_only_get_gse_metadata : emits_only P (get_gse_metadata env gse_id).
Proof.
  unfold get_gse_metadata, _check_raw_files.
  pose proof (fun names => emits_only_probe_raw_files names []).
  assert (emits_only P (emit (EvDescribe gse_id))) by (apply emits_only_emit; exact listed).
  assert (emits_only P (emit (EvList (suppl_url gse_id)))).
  { apply emits_only_emit. exists gse_id. auto. }
  events_auto.
Qed.

Lemma emits_only_download_gse_dataset : emits_only P (download_gse_dataset env cfg gse_id).
Proof.
  intros w r w'. unfold download_gse_dataset. unfold bind at 1. unfold print at 1.
  unfold bind at 1.
  destruct (get_gse_metadata env gse_id _) as [[md|e] w1] eqn:Hmd.
  - pose proof (emits_only_get_gse_metadata _ _ _ Hmd) as (n1 & Ht1 & Hp1).
    cbn [trace] in Ht1.
    assert (Hfiles : exists names,
      Forall (fun name => is_raw name = true) names /\
      md_raw_files md = map (raw_entry env (suppl_url gse_id)) names).
    { match type of Hmd with get_gse_metadata _ _ ?w0 = _ =>
        destruct (get_gse_metadata_closed env gse_id w0)
          as (md0 & w0' & Hrun0 & _ & _ & _ & _ & _ & Hcase)
      end.
      rewrite Hmd in Hrun0. injection Hrun0 as <- <-.
      destruct (env_listing env (suppl_url gse_id)) as [links|e].
      - destruct Hcase as (-> & _). exists (raw_names links).
        split; [|reflexivity]. apply Forall_forall. intros name Hname.
        unfold raw_names in Hname. apply list_elem_of_filter in Hname. tauto.
      - destruct Hcase as (-> & _). exists []. split; [constructor|reflexivity]. }
    destruct Hfiles as (names & Hraw & Hfiles).
    assert (Hrest : emits_only P
      (if truthy_opt (md_error md) then
         ret {| dr_gse_id := gse_id; dr_status := DsFailed;
                dr_error := md_error md; dr_files := []; dr_metadata := None |}
       else if negb (md_has_raw_data md) then
         ret {| dr_gse_id := gse_id; dr_status := DsNoRawData;
                dr_error := Some "No raw data files found"; dr_files := [];
                dr_metadata := None |}
       else
         let* download_results :=
           (if parallel cfg && (1 <? length (md_raw_files md))%nat
            then _download_files_parallel env cfg gse_id (md_raw_files md)
            else _download_files_sequential env cfg gse_id (md_raw_files md)) in
         let* files := lift (subscript_all download_results) in
         ret {| dr_gse_id := gse_id;
                dr_status := overall_status (count_completed files)
                               (Z.of_nat (length files));
                dr_error := None; dr_files := files; dr_metadata := Some md |})).
    { destruct (truthy_opt (md_error md)); [apply emits_only_ret|].
      destruct (negb (md_has_raw_data md)); [apply emits_only_ret|].
      apply emits_only_bind.
      - rewrite Hfiles.
        destruct (parallel cfg && _).
        + unfold _download_files_parallel.
          apply emits_only_bind; [apply emits_only_print|intros _].
          apply emits_only_bind.
          * destruct (workers cfg <=? 0); [apply emits_only_raise|apply emits_only_ret].
          * intros _. apply emits_only_collect_completed. exact Hraw.
        + apply emits_only_sequential_loop. exact Hraw.
      - intros results. apply emits_only_bind; [apply emits_only_lift|].
        intros files. apply emits_only_ret. }
    intros Hrun. destruct (Hrest _ _ _ Hrun) as (n2 & Ht2 & Hp2).
    exists (n1 ++ n2). rewrite Ht2, Ht1, <- app_assoc.
    split; [reflexivity | apply Forall_app; auto].
  - intros [= <- <-].
    pose proof (emits_only_get_gse_metadata _ _ _ Hmd) as (n1 & Ht1 & Hp1).
    exists n1. auto.
Qed.

End OneSeries.

Lemma emits_only_datasets_loop n : forall ids i acc,
  (forall g, g ∈ ids -> g ∈ gse_ids) ->
  emits_only P (datasets_loop env cfg n i ids acc).
Proof.
  induction ids as [|g rest IH]; intros i acc Hsub; cbn [datasets_loop].
  - apply emits_only_ret.
  - apply emits_only_bind; [apply emits_only_print|intros _].
    apply emits_only_bind;
      [apply emits_only_download_gse_dataset, Hsub; left|intros result].
    apply emits_only_bind; [apply emits_only_get_world|intros w0].
    apply emits_only_bind; [apply emits_only_lift|intros status].
    apply emits_only_bind; [apply emits_only_set_download_status|intros _].
    apply emits_only_bind; [|intros _; apply IH; intros g' Hg'; apply Hsub; right; exact Hg'].
    destruct (i mod 5 =? 0);
      [apply emits_only_save_download_status | apply emits_only_ret].
Qed.

Lemma emits_only_download_multiple_datasets ids :
  (forall g, g ∈ ids -> g ∈ gse_ids) ->
  emits_only P (download_multiple_datasets env cfg ids).
Proof.
  intros Hsub. unfold download_multiple_datasets.
  destruct ids as [|g rest] eqn:Hids; [apply emits_only_ret|].
  rewrite <- Hids in *.
  apply emits_only_bind; [apply emits_only_print|intros _].
  apply emits_only_bind;
    [destruct (parallel cfg); [apply emits_only_print|apply emits_only_ret]|intros _].
  apply emits_only_bind; [apply emits_only_load_download_status|intros _].
  apply emits_only_bind; [apply emits_only_time_time|intros t0].
  apply emits_only_bind; [apply emits_only_datasets_loop; auto|intros results].
  apply emits_only_bind; [apply emits_only_save_download_status|intros _].
  apply emits_only_bind; [apply emits_only_time_time|intros t1].
  apply emits_only_bind; [apply emits_only_print|intros _].
  apply emits_only_ret.
Qed.

(** Every address of a run event lies under the series root. *)
Lemma run_event_url ev url :
  run_event cfg gse_ids ev -> event_url ev = Some url ->
  PyStr.startswith "https://ftp.ncbi.nlm.nih.gov/geo/series/GSE" url = true.
Proof.
  assert (Hs : forall g rest,
    PyStr.startswith "https://ftp.ncbi.nlm.nih.gov/geo/series/GSE"
      (suppl_url g +:+ rest) = true).
  { intros g rest. apply PyStrFacts.startswith_spec. unfold suppl_url. cbv zeta.
    eexists. rewrite !PyStrFacts.append_assoc. reflexivity. }
  destruct ev; cbn [run_event event_url]; intros Hev Hurl; try discriminate Hurl;
    injection Hurl as <-.
  - destruct Hev as (g & _ & ->).
    specialize (Hs g EmptyString).
    replace (suppl_url g +:+ EmptyString) with (suppl_url g) in Hs; [exact Hs|].
    clear. induction (suppl_url g) as [|c s IH]; [reflexivity|].
    rewrite PyStrFacts.append_cons, <- IH. reflexivity.
  - destruct Hev as (g & name & _ & _ & ->). rewrite build_geo_url_suppl. apply Hs.
  - destruct Hev as (g & name & _ & _ & ->). rewrite build_geo_url_suppl. apply Hs.
Qed.

End Events.

(** X26.  What a run records is confined to its identifiers and its
    configuration: catalog calls and listings for the given series only;
    HEAD probes, transfers and GET requests only for files of these series
    whose names classify as raw, at the URL that [build_geo_url] gives them
    and into the output directory under their safe name; waits of [delay]
    or [retry_delay] seconds only.  Every URL asked for starts with
    [https://ftp.ncbi.nlm.nih.gov/geo/series/GSE]. *)
Theorem run_events_are_confined
    (env : Env) (cfg : Config) (gse_ids : list string) (w : World) :
  exists new,
    trace (snd (download_multiple_datasets env cfg gse_ids w)) = trace w ++ new /\
    Forall (run_event cfg gse_ids) new /\
    Forall (fun ev =>
              forall url, event_url ev = Some url ->
                PyStr.startswith "https://ftp.ncbi.nlm.nih.gov/geo/series/GSE" url = true)
      new.
Proof.
  destruct (download_multiple_datasets env cfg gse_ids w) as [r w'] eqn:Hrun.
  destruct (emits_only_download_multiple_datasets env cfg gse_ids gse_ids
              (fun g Hg => Hg) w r w' Hrun)
    as (new & Ht & Hp).
  exists new. cbn [snd]. split; [exact Ht|]. split; [exact Hp|].
  eapply Forall_impl; [exact Hp|].
  intros ev Hev url Hurl. eapply run_event_url; eassumption.
Qed.

(** ** The run status as a mapping *)

(** X27.  As long as the run status is a mapping, it is kept as the
    orchestrator intends.  Reading the status file never raises: a missing
    file leaves the status as it is (empty for a fresh downloader), an
    unreadable one is dropped for the empty mapping with a warning, and so
    is a JSON number, truth value or [null], whose length cannot be taken.
    Writing never raises either: the whole status goes to the writer, which
    leaves it in the file, or fails with a warning, leaving the file as it
    was or cut short.  Each result is entered under its identifier before
    the next dataset starts, the status is written after every fifth dataset
    and once more after the last, and a run that raises does so because the
    processing of a dataset raised. *)
Theorem status_persistence_of_mapping (env : Env) (cfg : Config) :
  (forall w,
     exists w1,
       load_download_status w = (Ok tt, w1) /\
       download_status w1 = loaded_status w /\
       trace w1 = trace w /\ fs w1 = fs w /\ status_disk w1 = status_disk w /\
       match status_disk w with
       | SfAbsent => w1 = w
       | SfCorrupt msg =>
           download_status w1 = StatusDict ∅ /\ console w1 = console w ++ [LWarnLoad msg]
       | SfJson (StatusDict m) =>
           download_status w1 = StatusDict m /\
           console w1 = console w ++ [LInfoLoaded (Z.of_nat (size m))]
       | SfJson (StatusOther (JsonScalar type_name)) =>
           download_status w1 = StatusDict ∅ /\
           exists msg, console w1 = console w ++ [LWarnLoad msg]
       | SfJson (StatusOther j) => download_status w1 = StatusOther j
       end) /\
  (forall files, loaded_status (init_world files SfAbsent) = StatusDict ∅) /\
  (forall w,
     exists w1,
       save_download_status env w = (Ok tt, w1) /\
       saved_snapshots (trace w1) = saved_snapshots (trace w) ++ [download_status w] /\
       download_status w1 = download_status w /\
       fs w1 = fs w /\
       match env_save env (length (saved_snapshots (trace w))) with
       | SaveOk => status_disk w1 = SfJson (download_status w) /\ console w1 = console w
       | SaveOpenError msg =>
           status_disk w1 = status_disk w /\ console w1 = console w ++ [LWarnSave msg]
       | SaveDumpError msg remains =>
           status_disk w1 = SfCorrupt remains /\ console w1 = console w ++ [LWarnSave msg]
       end) /\
  (forall n i gse_id rest acc w r w1 m,
     download_gse_dataset env cfg gse_id (snd (print (LInfoDataset i n gse_id) w)) = (Ok r, w1) ->
     download_status w = StatusDict m ->
     exists w2,
       datasets_loop env cfg n i (gse_id :: rest) acc w
         = datasets_loop env cfg n (i + 1) rest (acc ++ [r]) w2 /\
       download_status w2 = StatusDict (<[gse_id := r]> m) /\
       saved_snapshots (trace w2)
         = saved_snapshots (trace w)
           ++ (if i mod 5 =? 0 then [ StatusDict (<[gse_id := r]> m) ] else [])) /\
  (forall gse_ids w s w',
     download_multiple_datasets env cfg gse_ids w = (Ok (RunDone s), w') ->
     exists m0,
       loaded_status w = StatusDict m0 /\
       map dr_gse_id (rs_results s) = gse_ids /\
       download_status w' = StatusDict (status_after m0 (rs_results s)) /\
       saved_snapshots (trace w')
         = saved_snapshots (trace w)
           ++ map (fun j => StatusDict (status_after m0 (take j (rs_results s))))
                (periodic_positions (length gse_ids))
           ++ [ StatusDict (status_after m0 (rs_results s)) ]) /\
  (forall gse_ids w e w' m0,
     loaded_status w = StatusDict m0 ->
     download_multiple_datasets env cfg gse_ids w = (Raise e, w') ->
     exists gse_id w1 w2,
       gse_id ∈ gse_ids /\ download_gse_dataset env cfg gse_id w1 = (Raise e, w2)).
Proof.
  split.
  { intros w.
    destruct (load_download_status_run w) as (w1 & Hrun & Hst & Ht & Hsd & Hfs & Hcase).
    exists w1. split; [exact Hrun|]. split; [exact Hst|].
    split; [exact Ht|]. split; [exact Hfs|]. split; [exact Hsd|].
    unfold loaded_status in Hst.
    destruct (status_disk w) as [|msg|[m|[items|s|type_name]]]; cbn in Hcase; auto.
    split; [exact Hst|]. eexists. exact Hcase. }
  split; [reflexivity|].
  split.
  { intros w.
    destruct (save_download_status_run env w) as (w1 & Hrun & Ht & Hd & Hfs & Hcase).
    exists w1. split; [exact Hrun|]. split; [|split; [exact Hd|split; [exact Hfs|]]].
    - rewrite Ht, saved_snapshots_app. reflexivity.
    - rewrite saved_snapshots_length. exact Hcase. }
  split; [apply datasets_loop_step|].
  split.
  { intros gse_ids w s w' Hrun.
    destruct (download_multiple_datasets_done env cfg gse_ids w s w' Hrun)
      as (m0 & H0 & H1 & H2 & H3 & _).
    exists m0. auto. }
  intros gse_ids w e w' m0 Hloaded Hrun.
  destruct gse_ids as [|g rest]; [discriminate Hrun|].
  apply (download_multiple_datasets_run env cfg (g :: rest) w _ _ m0) in Hrun;
    [exact Hrun | discriminate | exact Hloaded].
Qed.

(** Six datasets without raw files, over an empty directory: the status is
    written after the fifth and at the end, and the file ends up holding the
    six entries. *)
Lemma status_persistence_of_mapping_witness :
  exists s w' m',
    download_multiple_datasets Scenario.env_down Scenario.cfg Scenario.six_ids
      Scenario.w_empty = (Ok (RunDone s), w') /\
    length (saved_snapshots (trace w')) = 2%nat /\
    download_status w' = StatusDict m' /\
    size m' = 6%nat /\
    status_disk w' = SfJson (StatusDict m').
Proof.
  destruct (status_persistence_of_mapping Scenario.env_down Scenario.cfg)
    as (_ & _ & _ & _ & Hrun & _).
  destruct (download_multiple_datasets Scenario.env_down Scenario.cfg Scenario.six_ids
              Scenario.w_empty) as [res w'] eqn:Heq.
  assert (Hres : exists s, res = Ok (RunDone s) /\
                           size (status_after ∅ (rs_results s)) = 6%nat).
  { vm_compute in Heq. injection Heq as <- _. eexists. split; reflexivity. }
  destruct Hres as (s & -> & Hsix).
  destruct (Hrun _ _ _ _ Heq) as (m0 & Hloaded & _ & Hstatus & Hsaved).
  injection Hloaded as <-.
  exists s, w', (status_after ∅ (rs_results s)).
  split; [reflexivity|]. split; [|split; [exact Hstatus|split; [exact Hsix|]]].
  - rewrite Hsaved. rewrite !length_app, length_map. reflexivity.
  - rewrite <- Hstatus. vm_compute in Heq. injection Heq as _ <-. reflexivity.
Defined.
